(** * PerceptronJS: the perceptron learning rule and its three variants

    A shallow embedding of the three JavaScript classes of the repository,

    - [BinaryPerceptron] (the spec's ThresholdPerceptron),
    - [Perceptron]       (the spec's CanonicalPerceptron),
    - [MultiPerceptron]  (the spec's MultiClassPerceptron), by value and,
      as [MultiPerceptronRef], with its weight rows by reference,

    followed by the properties the specification states about them and
    by further properties of the code.

    JavaScript numbers are IEEE 754 binary64 values; they are modelled by
    Rocq's primitive [float], which is the same format with the same
    rounding, so that [0 * Infinity] is [NaN] here as it is there.  Loop
    counters and array lengths are integers far below 2^53 and are
    modelled by [Z] and [nat].  A method is a computation over the fields
    of [this] that returns a value, throws, or (for a loop run on fuel)
    stops for lack of fuel. *)

From Stdlib Require Import ZArith Lia Floats.
From stdpp Require Import base option list.

(** ** Numbers: the arithmetic and comparisons of JavaScript numbers *)

Declare Scope js_scope.
Delimit Scope js_scope with js.
Notation "x + y" := (PrimFloat.add x y) : js_scope.
Notation "x - y" := (PrimFloat.sub x y) : js_scope.
Notation "x * y" := (PrimFloat.mul x y) : js_scope.
Notation "x > y" := (PrimFloat.ltb y x) : js_scope.
Notation "x == y" := (PrimFloat.eqb x y) (at level 70, no associativity) : js_scope.

(** ** Exceptions

    The three strings the library throws, and the [TypeError] the runtime
    raises when the code reads a property of [undefined] or calls it. *)

Inductive exn : Set :=
  | IllegalInputDimension        (* throw 'Illegal input dimension' *)
  | CannotChangeWeightDimension  (* throw 'Cannot change weight dimension' *)
  | InputAndExpectationMismatch  (* throw 'Input and expectation mismatch' *)
  | TypeError.

(** The specification groups the thrown strings into two error kinds. *)

Inductive ErrorKind : Set := DimensionMismatch | SetSizeMismatch.

Definition error_kind (e : exn) : option ErrorKind :=
  match e with
  | IllegalInputDimension | CannotChangeWeightDimension => Some DimensionMismatch
  | InputAndExpectationMismatch => Some SetSizeMismatch
  | TypeError => None
  end.

(** ** Method calls

    A call runs on a state [St] (the fields of [this], possibly with the
    state of the caller's callback) and ends in one of three ways.  Both
    [Return] and [Throw] carry the state the call leaves behind: a throw
    does not undo the assignments made before it. *)

Inductive outcome (St A : Type) : Type :=
  | Return (a : A) (s : St)
  | Throw (e : exn) (s : St)
  | OutOfFuel.
Arguments Return {St A} a s.
Arguments Throw {St A} e s.
Arguments OutOfFuel {St A}.

Definition js (St A : Type) : Type := St → outcome St A.

#[global] Instance js_ret {St} : MRet (js St) := λ A a s, Return a s.
#[global] Instance js_bind {St} : MBind (js St) := λ A B k m s,
  match m s with
  | Return a s' => k a s'
  | Throw e s' => Throw e s'
  | OutOfFuel => OutOfFuel
  end.

Definition throw {St A} (e : exn) : js St A := λ s, Throw e s.
Definition out_of_fuel {St A} : js St A := λ _, OutOfFuel.
Definition gets {St A} (f : St → A) : js St A := λ s, Return (f s) s.
Definition modify {St} (f : St → St) : js St unit := λ s, Return tt (f s).

(** A method of [this] called from a computation that also carries the
    state [W] of a callback. *)
Definition this {St W A} (m : js St A) : js (St * W) A := λ '(s, w),
  match m s with
  | Return a s' => Return a (s', w)
  | Throw e s' => Throw e (s', w)
  | OutOfFuel => OutOfFuel
  end.

(** [for (var i = lo; i < lo + count; i++) acc = body(i, acc)], where the
    body may change the state or throw. *)
Fixpoint for_loop {St A} (count lo : nat) (body : nat → A → js St A) (acc : A) : js St A :=
  match count with
  | O => mret acc
  | S count' => acc' ← body lo acc; for_loop count' (S lo) body acc'
  end.

(** ** Arrays of numbers

    [a[i]] read as an operand of arithmetic: an index past the end gives
    [undefined], which arithmetic turns into [NaN]. *)
Definition js_get (a : list float) (i : nat) : float := default nan (a !! i).

(** [a[i] = v]: inside the array the slot is replaced; past its end the
    array grows, the skipped slots being holes (read as [undefined], hence
    [NaN] in arithmetic). *)
Definition js_set (a : list float) (i : nat) (v : float) : list float :=
  if decide (i < length a) then <[i := v]> a
  else a ++ replicate (i - length a) nan ++ [v].

(** The per-pass callback of [trainSet]: [undefined] when the caller passes
    none, otherwise a function of the three arguments acting on the
    caller's own state [W]. *)
Definition callback_fn (W : Type) : Type := option (Z → Z → Z → W → W).

Definition call {St W} (callback : callback_fn W) (a b c : Z) : js (St * W) unit :=
  match callback with
  | None => throw TypeError
  | Some f => modify (λ '(s, w), (s, f a b c w))
  end.

(** The fields shared by [BinaryPerceptron] and [Perceptron]. *)
Record neuron : Type := Neuron {
  inputs_ : list float;
  inputWeights_ : list float;
  learningRate_ : float;
  threshold_ : float
}.

Definition set_inputs_ (f : list float → list float) (p : neuron) : neuron :=
  Neuron (f (inputs_ p)) (inputWeights_ p) (learningRate_ p) (threshold_ p).
Definition set_inputWeights_ (f : list float → list float) (p : neuron) : neuron :=
  Neuron (inputs_ p) (f (inputWeights_ p)) (learningRate_ p) (threshold_ p).

(** ** src/js/binaryperceptron.js

    The loops over [this.inputWeights_] and [this.inputs_] read the
    array's [length] at every round; their bodies never change it, so
    each is a fold over the indices known when the loop starts. *)

Module BinaryPerceptron.

(** [new BinaryPerceptron(inputDimension, learningRate, threshold)] *)
Definition new (inputDimension : Z) (learningRate threshold : float) : neuron :=
  let n := Z.to_nat (inputDimension + 1) in
  {| inputs_ := js_set (replicate n 0%float) 0 1%float;
     inputWeights_ := replicate n 0%float;
     learningRate_ := learningRate;
     threshold_ := threshold |}.

Definition getScore_ (p : neuron) : float :=
  foldl (λ score i, (score + js_get (inputWeights_ p) i * js_get (inputs_ p) i)%js)
        0%float (seq 0 (length (inputWeights_ p))).

(** [this.inputs_[i] = input[i - 1]] for [i] from 1.  The callers have
    checked the length of [input], so [input[i - 1]] is a number; what is
    stored is only ever read back as an operand of arithmetic. *)
Definition setInput_ (input : list float) (p : neuron) : neuron :=
  foldl (λ p i, set_inputs_ (λ a, js_set a i (js_get input (i - 1))) p)
        p (seq 1 (length (inputs_ p) - 1)).

(** Returns a copy ([slice(0)]). *)
Definition getWeights : js neuron (list float) := gets inputWeights_.

Definition setWeights (weights : list float) : js neuron (list float) :=
  len ← gets (λ p, length (inputWeights_ p));
  if negb (length weights =? len) then throw CannotChangeWeightDimension
  else modify (set_inputWeights_ (λ _, weights));; mret weights.

Definition updateWeights_ (error : float) (p : neuron) : neuron :=
  foldl (λ p i,
           let delta := (learningRate_ p * error * js_get (inputs_ p) i)%js in
           set_inputWeights_ (λ w, js_set w i (js_get w i + delta)%js) p)
        p (seq 0 (length (inputWeights_ p))).

Definition train (input : list float) (expected : bool) : js neuron bool :=
  len ← gets (λ p, length (inputs_ p));
  if negb (Z.of_nat (length input) =? Z.of_nat len - 1)%Z then throw IllegalInputDimension
  else
    modify (setInput_ input);;
    score ← gets getScore_;
    threshold ← gets threshold_;
    let expectedValue := if expected then 1%float else 0%float in
    let result := if (score > threshold)%js then 1%float else 0%float in
    if (expectedValue == result)%js then mret true
    else modify (updateWeights_ (expectedValue - result)%js);; mret false.

Definition classify (input : list float) : js neuron bool :=
  len ← gets (λ p, length (inputs_ p));
  if negb (Z.of_nat (length input) =? Z.of_nat len - 1)%Z then throw IllegalInputDimension
  else
    modify (setInput_ input);;
    score ← gets getScore_;
    threshold ← gets threshold_;
    mret (score > threshold)%js.

Section trainSet.
Context {W : Type}.
Variables (inputSet : list (list float)) (expectedSet : list bool).
Variables (maxIterations : Z) (callback : callback_fn W).

(** The body of the [for] loop: one example, [numberFailed] threaded.
    The set lengths are equal here, so both reads are in range; read past
    the end, [inputSet[i]] would be [undefined] (whose [length] is a
    [TypeError]) and [expectedSet[i]] would be falsy. *)
Definition trainSet_example (i : nat) (numberFailed : Z) : js (neuron * W) Z :=
  match inputSet !! i with
  | None => throw TypeError
  | Some input =>
      passed ← this (train input (default false (expectedSet !! i)));
      mret (if negb passed then numberFailed + 1 else numberFailed)%Z
  end.

(** The [while] loop; each round of it costs one unit of fuel. *)
Fixpoint trainSet_while (fuel : nat) (numberFailed iteration : Z) : js (neuron * W) Z :=
  if negb (numberFailed =? 0)%Z && (iteration <? maxIterations)%Z then
    match fuel with
    | O => out_of_fuel
    | S fuel' =>
        numberFailed ← for_loop (length inputSet) 0 trainSet_example 0%Z;
        call callback numberFailed (Z.of_nat (length inputSet)) iteration;;
        trainSet_while fuel' numberFailed (iteration + 1)%Z
    end
  else mret iteration.

Definition trainSet_fuel (fuel : nat) : js (neuron * W) bool :=
  if negb (length inputSet =? length expectedSet) then throw InputAndExpectationMismatch
  else
    iteration ← trainSet_while fuel (-1)%Z 0%Z;
    mret (negb (iteration =? maxIterations)%Z).

(** The loop makes at most [maxIterations] rounds, so that much fuel is
    enough: more changes nothing ([BinaryPerceptron_trainSet_fuel_enough])
    and the call never stops for lack of it. *)
Definition trainSet : js (neuron * W) bool := trainSet_fuel (Z.to_nat maxIterations).

End trainSet.

End BinaryPerceptron.

(** ** src/unnamed/part_000: the class [Perceptron]

    Its constructor and its methods for one example are, word for word,
    those of [BinaryPerceptron]; it has no weight accessors, and its
    [trainSet] has no callback and no failure count. *)

Module Perceptron.

(** [new Perceptron(inputDimension, learningRate, threshold)] *)
Definition new (inputDimension : Z) (learningRate threshold : float) : neuron :=
  let n := Z.to_nat (inputDimension + 1) in
  {| inputs_ := js_set (replicate n 0%float) 0 1%float;
     inputWeights_ := replicate n 0%float;
     learningRate_ := learningRate;
     threshold_ := threshold |}.

Definition getScore_ (p : neuron) : float :=
  foldl (λ score i, (score + js_get (inputWeights_ p) i * js_get (inputs_ p) i)%js)
        0%float (seq 0 (length (inputWeights_ p))).

Definition setInput_ (input : list float) (p : neuron) : neuron :=
  foldl (λ p i, set_inputs_ (λ a, js_set a i (js_get input (i - 1))) p)
        p (seq 1 (length (inputs_ p) - 1)).

Definition updateWeights_ (error : float) (p : neuron) : neuron :=
  foldl (λ p i,
           let delta := (learningRate_ p * error * js_get (inputs_ p) i)%js in
           set_inputWeights_ (λ w, js_set w i (js_get w i + delta)%js) p)
        p (seq 0 (length (inputWeights_ p))).

Definition train (input : list float) (expected : bool) : js neuron bool :=
  len ← gets (λ p, length (inputs_ p));
  if negb (Z.of_nat (length input) =? Z.of_nat len - 1)%Z then throw IllegalInputDimension
  else
    modify (setInput_ input);;
    score ← gets getScore_;
    threshold ← gets threshold_;
    let expectedValue := if expected then 1%float else 0%float in
    let result := if (score > threshold)%js then 1%float else 0%float in
    if (expectedValue == result)%js then mret true
    else modify (updateWeights_ (expectedValue - result)%js);; mret false.

Definition classify (input : list float) : js neuron bool :=
  len ← gets (λ p, length (inputs_ p));
  if negb (Z.of_nat (length input) =? Z.of_nat len - 1)%Z then throw IllegalInputDimension
  else
    modify (setInput_ input);;
    score ← gets getScore_;
    threshold ← gets threshold_;
    mret (score > threshold)%js.

Section trainSet.
Variables (inputSet : list (list float)) (expectedSet : list bool).
Variable maxIterations : Z.

(** [allPassed = allPassed && this.train(inputSet[i], expectedSet[i])]:
    the right operand of [&&] is evaluated only when the left one is
    true. *)
Definition trainSet_example (i : nat) (allPassed : bool) : js neuron bool :=
  if allPassed then
    match inputSet !! i with
    | None => throw TypeError
    | Some input => train input (default false (expectedSet !! i))
    end
  else mret false.

Fixpoint trainSet_while (fuel : nat) (allPassed : bool) (iteration : Z) : js neuron Z :=
  if negb allPassed && (iteration <? maxIterations)%Z then
    match fuel with
    | O => out_of_fuel
    | S fuel' =>
        allPassed ← for_loop (length inputSet) 0 trainSet_example true;
        trainSet_while fuel' allPassed (iteration + 1)%Z
    end
  else mret iteration.

Definition trainSet_fuel (fuel : nat) : js neuron bool :=
  if negb (length inputSet =? length expectedSet) then throw InputAndExpectationMismatch
  else
    iteration ← trainSet_while fuel false 0%Z;
    mret (negb (iteration =? maxIterations)%Z).

Definition trainSet : js neuron bool := trainSet_fuel (Z.to_nat maxIterations).

End trainSet.

End Perceptron.

(** ** src/unnamed/part_001: the class [MultiPerceptron]

    The weight matrix is held by value here, which is the class on a
    perceptron whose rows are distinct arrays, as the constructor builds
    them.  The source holds a reference to each row and writes into the
    rows in place; [MultiPerceptronRef] below is the same class with the
    rows by reference, for what depends on two classes sharing one
    array; the last part of the file relates the two. *)

Module MultiPerceptron.

Record t : Type := Multi {
  inputs_ : list float;
  inputWeights_ : list (list float);
  learningRate_ : float
}.

Definition set_inputs_ (f : list float → list float) (p : t) : t :=
  Multi (f (inputs_ p)) (inputWeights_ p) (learningRate_ p).
Definition set_inputWeights_ (f : list (list float) → list (list float)) (p : t) : t :=
  Multi (inputs_ p) (f (inputWeights_ p)) (learningRate_ p).

(** [a[i]] for an index the caller supplies: [undefined] unless
    [0 <= i < a.length]. *)
Definition row_at (a : list (list float)) (i : Z) : option (list float) :=
  if (i <? 0)%Z then None else a !! Z.to_nat i.

(** [new MultiPerceptron(inputDimension, classCount, learningRate)] *)
Definition new (inputDimension classCount : Z) (learningRate : float) : t :=
  let n := Z.to_nat (inputDimension + 1) in
  {| inputs_ := js_set (replicate n 0%float) 0 1%float;
     inputWeights_ := replicate (Z.to_nat classCount) (replicate n 0%float);
     learningRate_ := learningRate |}.

(** [this.inputWeights_[classification].length] is a [TypeError] when
    there is no such row. *)
Definition getScore_ (classification : Z) : js t float := λ p,
  match row_at (inputWeights_ p) classification with
  | None => Throw TypeError p
  | Some row =>
      Return (foldl (λ score i, (score + js_get row i * js_get (inputs_ p) i)%js)
                    0%float (seq 0 (length row))) p
  end.

Definition setInput_ (input : list float) (p : t) : t :=
  foldl (λ p i, set_inputs_ (λ a, js_set a i (js_get input (i - 1))) p)
        p (seq 1 (length (inputs_ p) - 1)).

(** Returns the live matrix, not a copy. *)
Definition getWeights : js t (list (list float)) := gets inputWeights_.

(** [weights.length != this.inputWeights_.length ||
     weights[0].length != this.inputWeights_[0].length]: only row 0 of
    either matrix is measured, and only when the row counts agree; with no
    row at all, [weights[0].length] is a [TypeError]. *)
Definition setWeights (weights : list (list float)) : js t (list (list float)) := λ p,
  if negb (length weights =? length (inputWeights_ p)) then Throw CannotChangeWeightDimension p
  else
    match weights !! 0, inputWeights_ p !! 0 with
    | Some row, Some row0 =>
        if negb (length row =? length row0) then Throw CannotChangeWeightDimension p
        else Return weights (set_inputWeights_ (λ _, weights) p)
    | _, _ => Throw TypeError p
    end.

Definition punishWeights_ (classification : Z) : js t unit := λ p,
  match row_at (inputWeights_ p) classification with
  | None => Throw TypeError p
  | Some row =>
      Return tt
        (foldl (λ p i,
                  let delta := (learningRate_ p * js_get (inputs_ p) i)%js in
                  set_inputWeights_
                    (alter (λ r, js_set r i (js_get r i - delta)%js) (Z.to_nat classification)) p)
               p (seq 0 (length row)))
  end.

Definition encourageWeights_ (classification : Z) : js t unit := λ p,
  match row_at (inputWeights_ p) classification with
  | None => Throw TypeError p
  | Some row =>
      Return tt
        (foldl (λ p i,
                  let delta := (learningRate_ p * js_get (inputs_ p) i)%js in
                  set_inputWeights_
                    (alter (λ r, js_set r i (js_get r i + delta)%js) (Z.to_nat classification)) p)
               p (seq 0 (length row)))
  end.

(** The body of the scan that [train] and [classify] both spell out: the
    running maximum and its class, replaced only by a strictly greater
    score. *)
Definition scan_example (i : nat) (best : float * nat) : js t (float * nat) :=
  let '(maxScore, maxScoreClassification) := best in
  score ← getScore_ (Z.of_nat i);
  mret (if (score > maxScore)%js then (score, i) else (maxScore, maxScoreClassification)).

Definition train (input : list float) (expected : Z) : js t bool :=
  len ← gets (λ p, length (inputs_ p));
  if negb (Z.of_nat (length input) =? Z.of_nat len - 1)%Z then throw IllegalInputDimension
  else
    modify (setInput_ input);;
    maxScore ← getScore_ 0;
    classes ← gets (λ p, length (inputWeights_ p));
    '(_, maxScoreClassification) ← for_loop (classes - 1) 1 scan_example (maxScore, 0);
    if (expected =? Z.of_nat maxScoreClassification)%Z then mret true
    else
      encourageWeights_ expected;;
      punishWeights_ (Z.of_nat maxScoreClassification);;
      mret false.

Definition classify (input : list float) : js t nat :=
  len ← gets (λ p, length (inputs_ p));
  if negb (Z.of_nat (length input) =? Z.of_nat len - 1)%Z then throw IllegalInputDimension
  else
    modify (setInput_ input);;
    maxScore ← getScore_ 0;
    classes ← gets (λ p, length (inputWeights_ p));
    '(_, maxScoreClassification) ← for_loop (classes - 1) 1 scan_example (maxScore, 0);
    mret maxScoreClassification.

Section trainSet.
Context {W : Type}.
Variables (inputSet : list (list float)) (expectedSet : list Z).
Variables (maxIterations : Z) (callback : callback_fn W).

(** Both reads are in range, the set lengths being equal; past the end
    [expectedSet[i]] would be [undefined], which like [-1] equals no class
    index and names no row. *)
Definition trainSet_example (i : nat) (numberFailed : Z) : js (t * W) Z :=
  match inputSet !! i with
  | None => throw TypeError
  | Some input =>
      passed ← this (train input (default (-1)%Z (expectedSet !! i)));
      mret (if negb passed then numberFailed + 1 else numberFailed)%Z
  end.

Fixpoint trainSet_while (fuel : nat) (numberFailed iteration : Z) : js (t * W) Z :=
  if negb (numberFailed =? 0)%Z && (iteration <? maxIterations)%Z then
    match fuel with
    | O => out_of_fuel
    | S fuel' =>
        numberFailed ← for_loop (length inputSet) 0 trainSet_example 0%Z;
        call callback numberFailed (Z.of_nat (length inputSet)) iteration;;
        trainSet_while fuel' numberFailed (iteration + 1)%Z
    end
  else mret iteration.

Definition trainSet_fuel (fuel : nat) : js (t * W) bool :=
  if negb (length inputSet =? length expectedSet) then throw InputAndExpectationMismatch
  else
    iteration ← trainSet_while fuel (-1)%Z 0%Z;
    mret (negb (iteration =? maxIterations)%Z).

Definition trainSet : js (t * W) bool := trainSet_fuel (Z.to_nat maxIterations).

End trainSet.

End MultiPerceptron.

(** ** src/unnamed/part_001 again: the weight rows by reference

    [this.inputWeights_] is an array of references to the row arrays.  The
    constructor makes a new array for every class, but [setWeights] stores
    the rows the caller passes and [getWeights] hands them out, and
    [punishWeights_] and [encourageWeights_] write into a row in place: two
    classes given one and the same array share every write.  Here the
    arrays live in a heap, and a row of the matrix is the address of its
    array.  No method writes into the outer array of the matrix, which is
    the list of these addresses, and none hands out the input buffer,
    which stays a field held by value. *)

Module MultiPerceptronRef.

(** The address of an array, and the arrays of the program by address. *)
Abbreviation ref := nat (only parsing).
Abbreviation heap := (list (list float)) (only parsing).

Record t : Type := Multi {
  inputs_ : list float;
  inputWeights_ : list ref;
  learningRate_ : float
}.

(** A call runs on the heap and the fields of [this]. *)
Abbreviation state := (heap * t)%type (only parsing).

Definition set_inputs_ (f : list float → list float) (s : state) : state :=
  (s.1, Multi (f (inputs_ s.2)) (inputWeights_ s.2) (learningRate_ s.2)).
Definition set_inputWeights_ (f : list ref → list ref) (s : state) : state :=
  (s.1, Multi (inputs_ s.2) (f (inputWeights_ s.2)) (learningRate_ s.2)).

(** A write into the array at address [r]. *)
Definition set_array (f : list float → list float) (r : ref) (s : state) : state :=
  (alter f r s.1, s.2).

(** The array a reference names.  A reference of the program always names
    an array of the heap; the methods below throw where one does not, which
    no call reaches from a state whose rows are all in the heap. *)
Definition array_at (h : heap) (r : ref) : option (list float) := h !! r.

(** [this.inputWeights_[i]] for an index the caller supplies: [undefined]
    unless [0 <= i < this.inputWeights_.length], otherwise the reference
    held there. *)
Definition row_ref (s : state) (i : Z) : option ref :=
  if (i <? 0)%Z then None else inputWeights_ s.2 !! Z.to_nat i.

(** The array behind [this.inputWeights_[i]]. *)
Definition row_at (s : state) (i : Z) : option (list float) :=
  r ← row_ref s i; array_at s.1 r.

(** [new MultiPerceptron(inputDimension, classCount, learningRate)]: one
    new array for every class, at the next free addresses of the heap. *)
Definition new (inputDimension classCount : Z) (learningRate : float) (h : heap) : state :=
  let n := Z.to_nat (inputDimension + 1) in
  (h ++ replicate (Z.to_nat classCount) (replicate n 0%float),
   {| inputs_ := js_set (replicate n 0%float) 0 1%float;
      inputWeights_ := seq (length h) (Z.to_nat classCount);
      learningRate_ := learningRate |}).

(** [this.inputWeights_[classification].length] is a [TypeError] when
    there is no such row. *)
Definition getScore_ (classification : Z) : js state float := λ s,
  match row_at s classification with
  | None => Throw TypeError s
  | Some row =>
      Return (foldl (λ score i, (score + js_get row i * js_get (inputs_ s.2) i)%js)
                    0%float (seq 0 (length row))) s
  end.

Definition setInput_ (input : list float) (s : state) : state :=
  foldl (λ s i, set_inputs_ (λ a, js_set a i (js_get input (i - 1))) s)
        s (seq 1 (length (inputs_ s.2) - 1)).

(** Returns the live matrix: the references of the rows themselves. *)
Definition getWeights : js state (list ref) := gets (λ s, inputWeights_ s.2).

(** [weights.length != this.inputWeights_.length ||
     weights[0].length != this.inputWeights_[0].length], then
    [this.inputWeights_ = weights]: the rows are stored as they are passed,
    none is copied and no two are compared. *)
Definition setWeights (weights : list ref) : js state (list ref) := λ s,
  if negb (length weights =? length (inputWeights_ s.2)) then Throw CannotChangeWeightDimension s
  else
    match weights !! 0 ≫= array_at s.1, inputWeights_ s.2 !! 0 ≫= array_at s.1 with
    | Some row, Some row0 =>
        if negb (length row =? length row0) then Throw CannotChangeWeightDimension s
        else Return weights (set_inputWeights_ (λ _, weights) s)
    | _, _ => Throw TypeError s
    end.

(** [this.inputWeights_[classification][i] -= delta] writes into the array
    the row refers to. *)
Definition punishWeights_ (classification : Z) : js state unit := λ s,
  match row_ref s classification, row_at s classification with
  | Some r, Some row =>
      Return tt
        (foldl (λ s i,
                  let delta := (learningRate_ s.2 * js_get (inputs_ s.2) i)%js in
                  set_array (λ a, js_set a i (js_get a i - delta)%js) r s)
               s (seq 0 (length row)))
  | _, _ => Throw TypeError s
  end.

Definition encourageWeights_ (classification : Z) : js state unit := λ s,
  match row_ref s classification, row_at s classification with
  | Some r, Some row =>
      Return tt
        (foldl (λ s i,
                  let delta := (learningRate_ s.2 * js_get (inputs_ s.2) i)%js in
                  set_array (λ a, js_set a i (js_get a i + delta)%js) r s)
               s (seq 0 (length row)))
  | _, _ => Throw TypeError s
  end.

Definition scan_example (i : nat) (best : float * nat) : js state (float * nat) :=
  let '(maxScore, maxScoreClassification) := best in
  score ← getScore_ (Z.of_nat i);
  mret (if (score > maxScore)%js then (score, i) else (maxScore, maxScoreClassification)).

Definition train (input : list float) (expected : Z) : js state bool :=
  len ← gets (λ s, length (inputs_ s.2));
  if negb (Z.of_nat (length input) =? Z.of_nat len - 1)%Z then throw IllegalInputDimension
  else
    modify (setInput_ input);;
    maxScore ← getScore_ 0;
    classes ← gets (λ s, length (inputWeights_ s.2));
    '(_, maxScoreClassification) ← for_loop (classes - 1) 1 scan_example (maxScore, 0);
    if (expected =? Z.of_nat maxScoreClassification)%Z then mret true
    else
      encourageWeights_ expected;;
      punishWeights_ (Z.of_nat maxScoreClassification);;
      mret false.

Definition classify (input : list float) : js state nat :=
  len ← gets (λ s, length (inputs_ s.2));
  if negb (Z.of_nat (length input) =? Z.of_nat len - 1)%Z then throw IllegalInputDimension
  else
    modify (setInput_ input);;
    maxScore ← getScore_ 0;
    classes ← gets (λ s, length (inputWeights_ s.2));
    '(_, maxScoreClassification) ← for_loop (classes - 1) 1 scan_example (maxScore, 0);
    mret maxScoreClassification.

End MultiPerceptronRef.

(** * The vocabulary of the properties *)

(** ** Binary perceptrons *)

(** The shape a binary perceptron of input dimension [n] keeps all its
    life: a buffer of [n + 1] slots whose slot 0 is the bias input 1.0,
    and as many weights. *)
Definition neuron_wf (n : nat) (p : neuron) : Prop :=
  ∃ r, inputs_ p = 1%float :: r ∧ length r = n ∧ length (inputWeights_ p) = S n.

(** The state once [input] is in the buffer. *)
Definition buffered (input : list float) (p : neuron) : neuron :=
  Neuron (1%float :: input) (inputWeights_ p) (learningRate_ p) (threshold_ p).

(** The weight update the specification describes:
    [weight[i] + learningRate * error * input[i]] at every index. *)
Definition updated (error : float) (p : neuron) : neuron :=
  Neuron (inputs_ p)
         (zip_with (λ w x, (w + learningRate_ p * error * x)%js) (inputWeights_ p) (inputs_ p))
         (learningRate_ p) (threshold_ p).

(** The dot product of the specification, summed left to right from 0. *)
Definition dot (ws xs : list float) : float :=
  foldl (λ score wx, (score + wx.1 * wx.2)%js) 0%float (zip ws xs).

(** ** Multi-class perceptrons *)

(** The buffer of a multi-class perceptron of input dimension [n]. *)
Definition multi_wf (n : nat) (p : MultiPerceptron.t) : Prop :=
  ∃ r, MultiPerceptron.inputs_ p = 1%float :: r ∧ length r = n.

(** The shape a multi-class perceptron of input dimension [n] with [c]
    classes keeps through [train]. *)
Definition multi_shape (n c : nat) (p : MultiPerceptron.t) : Prop :=
  multi_wf n p ∧ length (MultiPerceptron.inputWeights_ p) = c.

(** The state once [input] is in the buffer. *)
Definition multi_buffered (input : list float) (p : MultiPerceptron.t) : MultiPerceptron.t :=
  MultiPerceptron.Multi (1%float :: input)
    (MultiPerceptron.inputWeights_ p) (MultiPerceptron.learningRate_ p).

(** The score of one class as [getScore_] sums it, left to right from 0. *)
Definition row_score (row buffer : list float) : float :=
  foldl (λ score i, (score + js_get row i * js_get buffer i)%js) 0%float (seq 0 (length row)).

(** The scores of all classes on the current buffer. *)
Definition scores (p : MultiPerceptron.t) : list float :=
  map (λ row, row_score row (MultiPerceptron.inputs_ p)) (MultiPerceptron.inputWeights_ p).

(** The scan of [train] and [classify] over the scores of the classes
    from index [i] on. *)
Fixpoint scan_from (maxScore : float) (maxScoreClassification i : nat) (rest : list float)
    : float * nat :=
  match rest with
  | [] => (maxScore, maxScoreClassification)
  | score :: rest' =>
      if (score > maxScore)%js then scan_from score i (S i) rest'
      else scan_from maxScore maxScoreClassification (S i) rest'
  end.

(** The class the scan retains. *)
Definition winner (ss : list float) : nat :=
  match ss with
  | [] => 0
  | s :: rest => (scan_from s 0 1 rest).2
  end.

(** [x] is a number other than [NaN]: [x == x]. *)
Definition not_nan (x : float) : Prop := (x == x)%js = true.

(** [r] is the smallest index whose score is the maximum of [ss]: no
    score exceeds it and every earlier one is strictly smaller. *)
Definition first_max (ss : list float) (r : nat) : Prop :=
  ∃ m, ss !! r = Some m ∧
       (∀ j s, ss !! j = Some s → (s <=? m)%float = true) ∧
       (∀ j s, j < r → ss !! j = Some s → (m > s)%js = true).

(** The rows [encourageWeights_] and [punishWeights_] leave behind. *)
Definition encouraged (learningRate : float) (buffer row : list float) : list float :=
  imap (λ i w, (w + learningRate * js_get buffer i)%js) row.
Definition punished (learningRate : float) (buffer row : list float) : list float :=
  imap (λ i w, (w - learningRate * js_get buffer i)%js) row.

(** ** Multi-class perceptrons, the rows by reference *)

(** The buffer of a multi-class perceptron of input dimension [n]. *)
Definition ref_wf (n : nat) (s : MultiPerceptronRef.state) : Prop :=
  ∃ r, MultiPerceptronRef.inputs_ s.2 = 1%float :: r ∧ length r = n.

(** Every row of the matrix is an array of the heap. *)
Definition rows_allocated (s : MultiPerceptronRef.state) : Prop :=
  Forall (λ r, is_Some (MultiPerceptronRef.array_at s.1 r))
         (MultiPerceptronRef.inputWeights_ s.2).

(** Class [c] has a row array of its own: no other class holds a
    reference to it. *)
Definition own_row (s : MultiPerceptronRef.state) (c : nat) : Prop :=
  ∀ c', c' ≠ c →
    MultiPerceptronRef.inputWeights_ s.2 !! c' ≠ MultiPerceptronRef.inputWeights_ s.2 !! c.

(** The rows are pairwise distinct arrays, as the constructor builds
    them. *)
Definition rows_distinct (s : MultiPerceptronRef.state) : Prop :=
  NoDup (MultiPerceptronRef.inputWeights_ s.2).

(** The weight matrix read through its references, and the perceptron by
    value. *)
Definition matrix (s : MultiPerceptronRef.state) : list (list float) :=
  map (λ r, default [] (MultiPerceptronRef.array_at s.1 r))
      (MultiPerceptronRef.inputWeights_ s.2).

Definition by_value (s : MultiPerceptronRef.state) : MultiPerceptron.t :=
  MultiPerceptron.Multi (MultiPerceptronRef.inputs_ s.2) (matrix s)
    (MultiPerceptronRef.learningRate_ s.2).

Definition outcome_by_value {A} (o : outcome MultiPerceptronRef.state A)
    : outcome MultiPerceptron.t A :=
  match o with
  | Return a s => Return a (by_value s)
  | Throw e s => Throw e (by_value s)
  | OutOfFuel => OutOfFuel
  end.

(** The state once [input] is in the buffer. *)
Definition ref_buffered (input : list float) (s : MultiPerceptronRef.state)
    : MultiPerceptronRef.state :=
  (s.1, MultiPerceptronRef.Multi (1%float :: input)
          (MultiPerceptronRef.inputWeights_ s.2) (MultiPerceptronRef.learningRate_ s.2)).

(** ** Training passes

    [BinaryPerceptron.trainSet] and [MultiPerceptron.trainSet] are the
    same text around two different [train] methods.  The definitions
    below name what one pass does to the perceptron alone and which
    sequences of passes the [while] loop may execute; the loop of each
    class is shown further down to be an instance. *)

Module Passes.
Section Definitions.
Context {St E W : Type}.
Variable train : list float → E → js St bool.
Variable no_expected : E.
Variables (inputSet : list (list float)) (expectedSet : list E).
Variables (maxIterations : Z) (callback : callback_fn W).

(** The body of the [for] loop of a pass, on the perceptron alone. *)
Definition pass_example (i : nat) (numberFailed : Z) : js St Z :=
  match inputSet !! i with
  | None => throw TypeError
  | Some input =>
      passed ← train input (default no_expected (expectedSet !! i));
      mret (if negb passed then numberFailed + 1 else numberFailed)%Z
  end.

(** One pass: every example in order, the failures counted. *)
Definition pass : js St Z := for_loop (length inputSet) 0 pass_example 0%Z.

(** [passes p nfs p']: from [p], [length nfs] passes in a row all return,
    the k-th with [nfs !! k] failures, and leave the perceptron in [p']. *)
Inductive passes : St → list Z → St → Prop :=
  | passes_nil p : passes p [] p
  | passes_cons p nf p1 nfs p' :
      pass p = Return nf p1 → passes p1 nfs p' → passes p (nf :: nfs) p'.

(** The discipline of the [while] loop entered with [numberFailed] and
    [iteration]: a pass is executed only while the previous count is not
    zero and the budget is not used up, and the loop stops as soon as
    either fails. *)
Fixpoint loop_discipline (numberFailed iteration : Z) (nfs : list Z) : Prop :=
  match nfs with
  | [] => numberFailed = 0%Z ∨ (maxIterations ≤ iteration)%Z
  | nf :: nfs' =>
      numberFailed ≠ 0%Z ∧ (iteration < maxIterations)%Z ∧
      loop_discipline nf (iteration + 1)%Z nfs'
  end.

(** What the callback has done to the caller's state after the passes
    [nfs], the first of which has index [iteration]. *)
Fixpoint reported (f : Z → Z → Z → W → W) (iteration : Z) (nfs : list Z) (w : W) : W :=
  match nfs with
  | [] => w
  | nf :: nfs' =>
      reported f (iteration + 1)%Z nfs' (f nf (Z.of_nat (length inputSet)) iteration w)
  end.

(** The [while] loop around [pass], fuelled like the loops of the classes. *)
Fixpoint pass_while (fuel : nat) (numberFailed iteration : Z) : js (St * W) Z :=
  if negb (numberFailed =? 0)%Z && (iteration <? maxIterations)%Z then
    match fuel with
    | O => out_of_fuel
    | S fuel' =>
        numberFailed ← this pass;
        call callback numberFailed (Z.of_nat (length inputSet)) iteration;;
        pass_while fuel' numberFailed (iteration + 1)%Z
    end
  else mret iteration.

(** A zero-failure pass is reached strictly before the budget is used up:
    pass number [k] has no failure and [k + 1 < maxIterations]. *)
Definition converged_within (p : St) : Prop :=
  ∃ nfs p' k, passes p nfs p' ∧ nfs !! k = Some 0%Z ∧ (Z.of_nat k + 1 < maxIterations)%Z.

(** [trainSet] around the loop. *)
Definition pass_trainSet (fuel : nat) : js (St * W) bool :=
  if negb (length inputSet =? length expectedSet) then throw InputAndExpectationMismatch
  else
    iteration ← pass_while fuel (-1)%Z 0%Z;
    mret (negb (iteration =? maxIterations)%Z).

(** What the specification says of a call that turns [p] into [p'] and
    returns [b]: full passes were executed, at most [maxIterations] of
    them, none after a pass without failure, the last one without failure
    when budget is left; and [b] tells whether a pass without failure was
    reached strictly before the budget was used up. *)
Definition stops_as_specified (p : St) (b : bool) (p' : St) : Prop :=
  ∃ nfs, passes p nfs p' ∧
    (Z.of_nat (length nfs) ≤ maxIterations)%Z ∧
    (∀ k nf, nfs !! k = Some nf → S k < length nfs → nf ≠ 0%Z) ∧
    ((Z.of_nat (length nfs) < maxIterations)%Z → last nfs = Some 0%Z) ∧
    (b = true ↔ converged_within p).

End Definitions.
End Passes.

(** A pass spelled out over the examples themselves: [train] on each, in
    order, the failures counted. *)
Fixpoint train_each {St E} (train : list float → E → js St bool)
    (examples : list (list float * E)) (numberFailed : Z) : js St Z :=
  match examples with
  | [] => mret numberFailed
  | (input, expected) :: rest =>
      passed ← train input expected;
      train_each train rest (if negb passed then numberFailed + 1 else numberFailed)%Z
  end.

(** ** What a call leaves behind *)

(** The outcome of a call as far as the perceptron goes, the state of the
    callback forgotten. *)
Definition perceptron_outcome {St W A} (o : outcome (St * W) A) : outcome St A :=
  match o with
  | Return a (s, _) => Return a s
  | Throw e (s, _) => Throw e s
  | OutOfFuel => OutOfFuel
  end.

(** The call has ended, by a return or by a throw, and the state it
    leaves satisfies [I]. *)
Definition leaves {St A} (I : St → Prop) (o : outcome St A) : Prop :=
  match o with
  | Return _ s | Throw _ s => I s
  | OutOfFuel => False
  end.

(** A binary perceptron as [new] configures it and every method keeps it:
    the shape of input dimension [n], and the learning rate and the
    threshold given to the constructor. *)
Definition configured (n : nat) (learningRate threshold : float) (p : neuron) : Prop :=
  neuron_wf n p ∧ learningRate_ p = learningRate ∧ threshold_ p = threshold.

(** A multi-class perceptron as [new] configures it: the shape of input
    dimension [n] with [c] classes, every weight row of length [n + 1],
    and the learning rate given to the constructor. *)
Definition multi_configured (n c : nat) (learningRate : float) (p : MultiPerceptron.t) : Prop :=
  multi_shape n c p ∧
  Forall (λ row, length row = S n) (MultiPerceptron.inputWeights_ p) ∧
  MultiPerceptron.learningRate_ p = learningRate.

(** ** Numbers *)

(** [<=] on the binary64 values that specify the primitive floats. *)
Definition SFle (f1 f2 : spec_float) : Prop :=
  SFcompare f1 f2 = Some Lt ∨ SFcompare f1 f2 = Some Eq.

(** Case analysis on the integer comparisons inside [SFcompare]. *)
Ltac cmp_cases :=
  repeat match goal with
  | |- context [(?a ?= ?b)%Z] => destruct (Z.compare_spec a b)
  | H : context [(?a ?= ?b)%Z] |- _ => destruct (Z.compare_spec a b)
  | |- context [Pos.compare_cont Eq ?a ?b] =>
      change (Pos.compare_cont Eq a b) with (Pos.compare a b);
      destruct (Pos.compare_spec a b)
  | H : context [Pos.compare_cont Eq ?a ?b] |- _ =>
      change (Pos.compare_cont Eq a b) with (Pos.compare a b) in H;
      destruct (Pos.compare_spec a b)
  end.

(** * Properties *)

(** ** Arrays and loops *)

Lemma js_get_lookup (a : list float) (i : nat) (x : float) :
  a !! i = Some x → js_get a i = x.
Proof. unfold js_get. by intros ->. Qed.

Lemma js_set_lt (a : list float) (i : nat) (v : float) :
  i < length a → js_set a i v = <[i := v]> a.
Proof. unfold js_set. intros Hi. by rewrite decide_True. Qed.

Lemma js_get_middle (l1 l2 : list float) (x : float) :
  js_get (l1 ++ x :: l2) (length l1) = x.
Proof. apply js_get_lookup, list_lookup_middle. done. Qed.

Lemma js_set_middle (l1 l2 : list float) (x v : float) :
  js_set (l1 ++ x :: l2) (length l1) v = (l1 ++ [v]) ++ l2.
Proof.
  rewrite js_set_lt by (rewrite length_app; simpl; lia).
  rewrite insert_app_r_alt by lia.
  replace (length l1 - length l1) with 0 by lia. simpl. by rewrite <- app_assoc.
Qed.

(** A loop that rewrites every slot of an array from its index and its
    old content is an indexed map. *)
Lemma foldl_js_set (g : nat → float → float) (l1 l2 : list float) :
  foldl (λ a i, js_set a i (g i (js_get a i))) (l1 ++ l2) (seq (length l1) (length l2))
  = l1 ++ imap (λ i, g (length l1 + i)) l2.
Proof.
  revert l1. induction l2 as [|x l2 IH]; intros l1; [done|].
  cbn [length seq foldl imap].
  rewrite js_get_middle, js_set_middle.
  replace (S (length l1)) with (length (l1 ++ [g (length l1) x]))
    by (rewrite length_app; simpl; lia).
  rewrite IH, <- app_assoc. simpl. f_equal. rewrite Nat.add_0_r. f_equal.
  apply imap_ext. intros i y _. simpl. f_equal. rewrite length_app. simpl. lia.
Qed.

Lemma foldl_js_set_all (g : nat → float → float) (l : list float) :
  foldl (λ a i, js_set a i (g i (js_get a i))) l (seq 0 (length l)) = imap g l.
Proof. apply (foldl_js_set g [] l). Qed.

Lemma imap_js_get (input l : list float) :
  length l = length input → imap (λ i _, js_get input i) l = input.
Proof.
  intros Hlen. apply list_eq. intros i. rewrite list_lookup_imap.
  destruct (input !! i) as [x|] eqn:Hx.
  - destruct (lookup_lt_is_Some_2 l i) as [y Hy].
    { rewrite Hlen. eapply lookup_lt_Some. exact Hx. }
    rewrite Hy. simpl. by rewrite (js_get_lookup _ _ _ Hx).
  - rewrite lookup_ge_None_2; [done|]. rewrite Hlen. by apply lookup_ge_None_1.
Qed.

Lemma bind_Return {St A B} (m : js St A) (k : A → js St B) (s s' : St) (a : A) :
  m s = Return a s' → (m ≫= k) s = k a s'.
Proof. unfold mbind, js_bind. by intros ->. Qed.

Lemma bind_Throw {St A B} (m : js St A) (k : A → js St B) (s s' : St) (e : exn) :
  m s = Throw e s' → (m ≫= k) s = Throw e s'.
Proof. unfold mbind, js_bind. by intros ->. Qed.

Lemma this_Return {St W A} (m : js St A) (s s' : St) (w : W) (a : A) :
  m s = Return a s' → this m (s, w) = Return a (s', w).
Proof. unfold this. by intros ->. Qed.

Lemma this_Throw {St W A} (m : js St A) (s s' : St) (w : W) (e : exn) :
  m s = Throw e s' → this m (s, w) = Throw e (s', w).
Proof. unfold this. by intros ->. Qed.

(** ** The binary perceptrons: buffer and weight update in closed form *)

Lemma foldl_set_inputs_ (F : nat → list float → list float) (p : neuron) (idx : list nat) :
  foldl (λ p i, set_inputs_ (F i) p) p idx
  = set_inputs_ (λ a, foldl (λ a i, F i a) a idx) p.
Proof.
  revert p. induction idx as [|i idx IH]; intros p; simpl.
  - by destruct p.
  - rewrite IH. by destruct p.
Qed.

Lemma foldl_set_inputWeights_
    (G : float → list float → nat → list float → list float) (p : neuron) (idx : list nat) :
  foldl (λ p i, set_inputWeights_ (G (learningRate_ p) (inputs_ p) i) p) p idx
  = set_inputWeights_ (λ w, foldl (λ w i, G (learningRate_ p) (inputs_ p) i w) w idx) p.
Proof.
  revert p. induction idx as [|i idx IH]; intros p; simpl.
  - by destruct p.
  - rewrite IH. by destruct p.
Qed.

Lemma setInput_buffered (n : nat) (input : list float) (p : neuron) :
  neuron_wf n p → length input = n →
  BinaryPerceptron.setInput_ input p = buffered input p.
Proof.
  intros (r & Hin & Hr & Hw) Hlen. unfold BinaryPerceptron.setInput_, buffered.
  rewrite (foldl_set_inputs_ (λ i a, js_set a i (js_get input (i - 1)))).
  unfold set_inputs_. f_equal. rewrite Hin. simpl. rewrite Nat.sub_0_r.
  etrans; [exact (foldl_js_set (λ i _, js_get input (i - 1)) [1%float] r)|].
  simpl. f_equal.
  etrans; [|apply (imap_js_get input r); congruence].
  apply imap_ext. intros i x _. simpl. f_equal. lia.
Qed.

Lemma imap_zip_with (f : float → float → float) (w a : list float) :
  length w ≤ length a →
  imap (λ i x, f x (js_get a i)) w = zip_with f w a.
Proof.
  revert a. induction w as [|x w IH]; intros a Hlen; [by destruct a|].
  destruct a as [|y a]; simpl in *; [lia|].
  f_equal. rewrite <- IH by lia. by apply imap_ext.
Qed.

Lemma updateWeights_updated (error : float) (p : neuron) :
  length (inputWeights_ p) ≤ length (inputs_ p) →
  BinaryPerceptron.updateWeights_ error p = updated error p.
Proof.
  intros Hlen. unfold BinaryPerceptron.updateWeights_, updated.
  rewrite (foldl_set_inputWeights_
             (λ lr inp i w, js_set w i (js_get w i + lr * error * js_get inp i)%js)).
  unfold set_inputWeights_. f_equal.
  rewrite (foldl_js_set_all (λ i x, (x + learningRate_ p * error * js_get (inputs_ p) i)%js)).
  by apply (imap_zip_with (λ x y, (x + learningRate_ p * error * y)%js)).
Qed.

(** ** Training passes *)

Section PassesFacts.
Context {St E W : Type}.
Variable train : list float → E → js St bool.
Variable no_expected : E.
Variables (inputSet : list (list float)) (expectedSet : list E).
Variables (maxIterations : Z) (callback : callback_fn W).

#[local] Abbreviation pass := (Passes.pass train no_expected inputSet expectedSet).
#[local] Abbreviation passes := (Passes.passes train no_expected inputSet expectedSet).
#[local] Abbreviation loop_discipline := (Passes.loop_discipline maxIterations).
#[local] Abbreviation reported := (Passes.reported inputSet).
#[local] Abbreviation pass_while :=
  (Passes.pass_while train no_expected inputSet expectedSet maxIterations callback).
#[local] Abbreviation converged_within :=
  (Passes.converged_within train no_expected inputSet expectedSet maxIterations).

Lemma passes_deterministic p nfs1 p1 nfs2 p2 k nf :
  passes p nfs1 p1 → passes p nfs2 p2 →
  nfs1 !! k = Some nf → k < length nfs2 → nfs2 !! k = Some nf.
Proof.
  intros H1. revert nfs2 p2 k. induction H1 as [|p nf1 q nfs1 p1 Hp _ IH];
    intros nfs2 p2 k H2 Hk Hlt; [done|].
  destruct H2 as [|p nf2 q2 nfs2 p2 Hp2 H2]; simpl in *; [lia|].
  rewrite Hp in Hp2. injection Hp2 as -> ->.
  destruct k as [|k]; simpl in *; [done|]. eapply IH; eauto. lia.
Qed.

Hypothesis train_no_fuel : ∀ input expected s, train input expected s ≠ OutOfFuel.

Lemma for_loop_no_fuel {S' A} (body : nat → A → js S' A) count lo acc s :
  (∀ i a s, body i a s ≠ OutOfFuel) → for_loop count lo body acc s ≠ OutOfFuel.
Proof.
  intros Hbody. revert lo acc s. induction count as [|count IH]; intros lo acc s; [done|].
  simpl. unfold mbind, js_bind. specialize (Hbody lo acc s).
  destruct (body lo acc s); [apply IH|done|done].
Qed.

Lemma pass_no_fuel s : pass s ≠ OutOfFuel.
Proof.
  unfold Passes.pass. apply for_loop_no_fuel. intros i a s'. unfold Passes.pass_example.
  destruct (inputSet !! i) as [input|]; [|done].
  unfold mbind, js_bind. specialize (train_no_fuel input (default no_expected (expectedSet !! i)) s').
  by destruct (train _ _ s').
Qed.

(** The loop never stops for lack of fuel once it has as much fuel as the
    budget leaves rounds. *)
Lemma pass_while_no_fuel fuel numberFailed iteration s :
  Z.to_nat (maxIterations - iteration) ≤ fuel →
  pass_while fuel numberFailed iteration s ≠ OutOfFuel.
Proof.
  revert numberFailed iteration s.
  induction fuel as [|fuel IH]; intros nf it [p w] Hfuel; simpl.
  - destruct (Z.ltb_spec it maxIterations); [lia|]. by rewrite andb_false_r.
  - destruct (negb (nf =? 0)%Z && (it <? maxIterations)%Z) eqn:Hc; [|done].
    apply andb_true_iff in Hc as [_ Hlt%Z.ltb_lt].
    unfold mbind, js_bind, this. pose proof (pass_no_fuel p) as Hp.
    destruct (pass p) as [nf' p'| |]; [|done|done].
    destruct callback as [f|]; simpl; [|done]. apply IH. lia.
Qed.

(** More fuel than that changes nothing. *)
Lemma pass_while_fuel_irrelevant fuel fuel' numberFailed iteration s :
  Z.to_nat (maxIterations - iteration) ≤ fuel →
  Z.to_nat (maxIterations - iteration) ≤ fuel' →
  pass_while fuel numberFailed iteration s = pass_while fuel' numberFailed iteration s.
Proof.
  revert fuel' numberFailed iteration s.
  induction fuel as [|fuel IH]; intros fuel' nf it [p w] Hfuel Hfuel'.
  - assert (maxIterations ≤ it)%Z as Hge by lia.
    destruct fuel'; simpl; destruct (Z.ltb_spec it maxIterations); try lia;
      by rewrite andb_false_r.
  - destruct fuel' as [|fuel'].
    + assert (maxIterations ≤ it)%Z as Hge by lia.
      simpl; destruct (Z.ltb_spec it maxIterations); try lia; by rewrite andb_false_r.
    + simpl. destruct (negb (nf =? 0)%Z && (it <? maxIterations)%Z) eqn:Hc; [|done].
      apply andb_true_iff in Hc as [_ Hlt%Z.ltb_lt].
      unfold mbind, js_bind, this. destruct (pass p) as [nf' p'| |]; [|done|done].
      destruct callback as [f|]; simpl; [|done]. apply IH; lia.
Qed.

(** Every normal return of the loop is a run of passes that obeys the
    loop's discipline, each followed by one call of the callback. *)
Lemma pass_while_Return fuel numberFailed iteration p w iteration' p' w' :
  pass_while fuel numberFailed iteration (p, w) = Return iteration' (p', w') →
  ∃ nfs, passes p nfs p' ∧ iteration' = (iteration + Z.of_nat (length nfs))%Z ∧
         loop_discipline numberFailed iteration nfs ∧
         match callback with
         | Some f => w' = reported f iteration nfs w
         | None => nfs = [] ∧ w' = w
         end.
Proof.
  revert numberFailed iteration p w.
  induction fuel as [|fuel IH]; intros nf it p w; simpl.
  - destruct (negb (nf =? 0)%Z && (it <? maxIterations)%Z) eqn:Hc; [done|].
    intros [= <- <- <-]. exists []. split; [constructor|]. split; [simpl; lia|]. split.
    + simpl. apply andb_false_iff in Hc as [Hc|Hc].
      * left. apply negb_false_iff in Hc. lia.
      * right. apply Z.ltb_ge in Hc. done.
    + by destruct callback.
  - destruct (negb (nf =? 0)%Z && (it <? maxIterations)%Z) eqn:Hc.
    + apply andb_true_iff in Hc as [Hnz%negb_true_iff%Z.eqb_neq Hlt%Z.ltb_lt].
      unfold mbind, js_bind, this. destruct (pass p) as [nf1 p1| |] eqn:Hp; [|done|done].
      destruct callback as [f|] eqn:Hcb; simpl; [|done].
      intros Hrun. apply IH in Hrun as (nfs & Hps & -> & Hd & Hw).
      exists (nf1 :: nfs). split; [by econstructor|]. split; [simpl; lia|]. done.
    + intros [= <- <- <-]. exists []. split; [constructor|]. split; [simpl; lia|]. split.
      * simpl. apply andb_false_iff in Hc as [Hc|Hc].
        -- left. apply negb_false_iff in Hc. lia.
        -- right. apply Z.ltb_ge in Hc. done.
      * by destruct callback.
Qed.

(** With a callback, and on perceptrons that satisfy an invariant [I]
    under which a pass returns, the loop returns. *)
Lemma pass_while_returns (I : St → Prop) f fuel numberFailed iteration p w :
  (∀ p, I p → ∃ nf p', pass p = Return nf p' ∧ I p') →
  callback = Some f → I p →
  Z.to_nat (maxIterations - iteration) ≤ fuel →
  ∃ iteration' p' w', pass_while fuel numberFailed iteration (p, w) = Return iteration' (p', w')
                      ∧ I p'.
Proof.
  intros Hpass Hcb. rewrite Hcb. revert numberFailed iteration p w.
  induction fuel as [|fuel IH]; intros nf it p w HI Hfuel; simpl.
  - destruct (Z.ltb_spec it maxIterations); [lia|]. rewrite andb_false_r. eauto.
  - destruct (negb (nf =? 0)%Z && (it <? maxIterations)%Z) eqn:Hc; [|eauto].
    apply andb_true_iff in Hc as [_ Hlt%Z.ltb_lt].
    destruct (Hpass p HI) as (nf1 & p1 & Hp & HI1).
    unfold mbind, js_bind, this. rewrite Hp. simpl. apply IH; [done|lia].
Qed.

Lemma loop_discipline_length numberFailed iteration nfs :
  loop_discipline numberFailed iteration nfs → (iteration ≤ maxIterations)%Z →
  (iteration + Z.of_nat (length nfs) ≤ maxIterations)%Z.
Proof.
  revert numberFailed iteration. induction nfs as [|nf nfs IH]; intros nf0 it; simpl; [lia|].
  intros (_ & Hlt & Hd) _. specialize (IH _ _ Hd). lia.
Qed.

(** A pass without failure is the last one executed. *)
Lemma loop_discipline_zero_last numberFailed iteration nfs k :
  loop_discipline numberFailed iteration nfs → nfs !! k = Some 0%Z → S k = length nfs.
Proof.
  revert numberFailed iteration k. induction nfs as [|nf nfs IH]; intros nf0 it k; [done|].
  simpl. intros (_ & _ & Hd) Hk. destruct k as [|k]; simpl in Hk.
  - injection Hk as ->. destruct nfs as [|nf' nfs]; [done|]. simpl in Hd. lia.
  - f_equal. eauto.
Qed.

(** Stopping with budget left means the last pass had no failure. *)
Lemma loop_discipline_early numberFailed iteration nfs :
  loop_discipline numberFailed iteration nfs →
  (iteration + Z.of_nat (length nfs) < maxIterations)%Z →
  last (numberFailed :: nfs) = Some 0%Z.
Proof.
  revert numberFailed iteration. induction nfs as [|nf nfs IH]; intros nf0 it; simpl.
  - intros [->|?] ?; [done|lia].
  - intros (_ & _ & Hd) Hlt. apply (IH _ _ Hd). lia.
Qed.

End PassesFacts.

Section TrainSetFacts.
Context {St E W : Type}.
Variable train : list float → E → js St bool.
Variable no_expected : E.
Variables (inputSet : list (list float)) (expectedSet : list E).
Variables (maxIterations : Z) (callback : callback_fn W).

#[local] Abbreviation pass := (Passes.pass train no_expected inputSet expectedSet).
#[local] Abbreviation passes := (Passes.passes train no_expected inputSet expectedSet).
#[local] Abbreviation loop_discipline := (Passes.loop_discipline maxIterations).
#[local] Abbreviation reported := (Passes.reported inputSet).
#[local] Abbreviation pass_while :=
  (Passes.pass_while train no_expected inputSet expectedSet maxIterations callback).
#[local] Abbreviation converged_within :=
  (Passes.converged_within train no_expected inputSet expectedSet maxIterations).
#[local] Abbreviation pass_trainSet :=
  (Passes.pass_trainSet train no_expected inputSet expectedSet maxIterations callback).
#[local] Abbreviation stops_as_specified :=
  (Passes.stops_as_specified train no_expected inputSet expectedSet maxIterations).

Lemma pass_trainSet_Return fuel p w b p' w' :
  pass_trainSet fuel (p, w) = Return b (p', w') →
  ∃ nfs, passes p nfs p' ∧ b = negb (Z.of_nat (length nfs) =? maxIterations)%Z ∧
         loop_discipline (-1)%Z 0%Z nfs ∧
         match callback with
         | Some f => w' = reported f 0%Z nfs w
         | None => nfs = [] ∧ w' = w
         end.
Proof.
  unfold Passes.pass_trainSet. destruct (negb (length inputSet =? length expectedSet)); [done|].
  unfold mbind, js_bind.
  destruct (Passes.pass_while _ _ _ _ _ _ _ _ _ _) as [it [q v]| |] eqn:Hw; [|done|done].
  intros [= <- <- <-]. apply pass_while_Return in Hw as (nfs & Hps & -> & Hd & Hcb).
  exists nfs. by rewrite Z.add_0_l.
Qed.

Lemma pass_trainSet_stops fuel p w b p' w' :
  (0 ≤ maxIterations)%Z →
  pass_trainSet fuel (p, w) = Return b (p', w') → stops_as_specified p b p'.
Proof.
  intros Hmax (nfs & Hps & -> & Hd & _)%pass_trainSet_Return. exists nfs.
  pose proof (loop_discipline_length _ _ _ _ Hd) as Hlen.
  split; [done|]. split; [lia|]. split; [|split].
  - intros k nf Hk Hlt ->. apply (loop_discipline_zero_last _ _ _ _ _ Hd) in Hk. lia.
  - intros Hlt. pose proof (loop_discipline_early _ _ _ _ Hd) as Hlast.
    destruct nfs as [|nf nfs]; [simpl in Hd; lia|]. apply Hlast. lia.
  - rewrite negb_true_iff, Z.eqb_neq. split.
    + intros Hne. assert (Z.of_nat (length nfs) < maxIterations)%Z as Hlt by lia.
      pose proof (loop_discipline_early _ _ _ _ Hd) as Hlast.
      destruct nfs as [|nf nfs _] using rev_ind; [simpl in Hd; lia|].
      rewrite app_comm_cons, last_snoc in Hlast.
      exists (nfs ++ [nf]), p', (length nfs). split; [done|]. split.
      * rewrite list_lookup_middle by done. f_equal. injection Hlast; [done|lia].
      * rewrite length_app in Hlt. simpl in Hlt. lia.
    + intros (nfs2 & p2 & k & Hps2 & Hk & Hlt) Heq.
      assert (k < length nfs) as Hkl by lia.
      pose proof (passes_deterministic _ _ _ _ _ _ _ _ _ _ _ Hps2 Hps Hk Hkl) as Hk'.
      apply (loop_discipline_zero_last _ _ _ _ _ Hd) in Hk'. lia.
Qed.

End TrainSetFacts.

(** ** The loops of the two classes are instances *)

Lemma this_for_loop {St W A} (body : nat → A → js St A) (body' : nat → A → js (St * W) A)
    count lo acc s w :
  (∀ i a s w, body' i a (s, w) = this (body i a) (s, w)) →
  for_loop count lo body' acc (s, w) = this (for_loop count lo body acc) (s, w).
Proof.
  intros Hbody. revert lo acc s. induction count as [|count IH]; intros lo acc s; [done|].
  simpl. unfold mbind, js_bind. rewrite Hbody.
  unfold this at 1.
  destruct (body lo acc s) as [a s'| |] eqn:Hb; [|done|done]. apply IH.
Qed.

Lemma this_bind_mret {St W A B} (m : js St A) (g : A → B) (s : St) (w : W) :
  (this m ≫= λ a, mret (g a)) (s, w) = this (m ≫= λ a, mret (g a)) (s, w).
Proof. unfold mbind, js_bind, this. by destruct (m s). Qed.

Lemma BinaryPerceptron_trainSet_while_eq {W} inputSet expectedSet maxIterations
    (callback : callback_fn W) fuel numberFailed iteration s :
  BinaryPerceptron.trainSet_while inputSet expectedSet maxIterations callback
    fuel numberFailed iteration s
  = Passes.pass_while BinaryPerceptron.train false inputSet expectedSet maxIterations callback
      fuel numberFailed iteration s.
Proof.
  revert numberFailed iteration s.
  induction fuel as [|fuel IH]; intros nf it [p w]; simpl; [done|].
  destruct (negb (nf =? 0)%Z && (it <? maxIterations)%Z); [|done].
  unfold mbind, js_bind, Passes.pass.
  rewrite (this_for_loop (Passes.pass_example BinaryPerceptron.train false inputSet expectedSet)).
  - destruct (this _ _) as [nf' s'| |]; [|done|done].
    destruct (call _ _ _ _ _) as [[] s''| |]; [|done|done]. apply IH.
  - intros i a q v. unfold BinaryPerceptron.trainSet_example, Passes.pass_example.
    destruct (inputSet !! i); [|done]. apply this_bind_mret.
Qed.

Lemma BinaryPerceptron_trainSet_fuel_eq {W} inputSet expectedSet maxIterations
    (callback : callback_fn W) fuel s :
  BinaryPerceptron.trainSet_fuel inputSet expectedSet maxIterations callback fuel s
  = Passes.pass_trainSet BinaryPerceptron.train false inputSet expectedSet maxIterations callback fuel s.
Proof.
  unfold BinaryPerceptron.trainSet_fuel, Passes.pass_trainSet.
  destruct (negb (length inputSet =? length expectedSet)); [done|].
  unfold mbind, js_bind. by rewrite BinaryPerceptron_trainSet_while_eq.
Qed.

Lemma MultiPerceptron_trainSet_while_eq {W} inputSet expectedSet maxIterations
    (callback : callback_fn W) fuel numberFailed iteration s :
  MultiPerceptron.trainSet_while inputSet expectedSet maxIterations callback
    fuel numberFailed iteration s
  = Passes.pass_while MultiPerceptron.train (-1)%Z inputSet expectedSet maxIterations callback
      fuel numberFailed iteration s.
Proof.
  revert numberFailed iteration s.
  induction fuel as [|fuel IH]; intros nf it [p w]; simpl; [done|].
  destruct (negb (nf =? 0)%Z && (it <? maxIterations)%Z); [|done].
  unfold mbind, js_bind, Passes.pass.
  rewrite (this_for_loop (Passes.pass_example MultiPerceptron.train (-1)%Z inputSet expectedSet)).
  - destruct (this _ _) as [nf' s'| |]; [|done|done].
    destruct (call _ _ _ _ _) as [[] s''| |]; [|done|done]. apply IH.
  - intros i a q v. unfold MultiPerceptron.trainSet_example, Passes.pass_example.
    destruct (inputSet !! i); [|done]. apply this_bind_mret.
Qed.

Lemma MultiPerceptron_trainSet_fuel_eq {W} inputSet expectedSet maxIterations
    (callback : callback_fn W) fuel s :
  MultiPerceptron.trainSet_fuel inputSet expectedSet maxIterations callback fuel s
  = Passes.pass_trainSet MultiPerceptron.train (-1)%Z inputSet expectedSet maxIterations callback fuel s.
Proof.
  unfold MultiPerceptron.trainSet_fuel, Passes.pass_trainSet.
  destruct (negb (length inputSet =? length expectedSet)); [done|].
  unfold mbind, js_bind. by rewrite MultiPerceptron_trainSet_while_eq.
Qed.

(** ** [BinaryPerceptron.train] and [classify] in closed form *)

Lemma neuron_wf_length n p : neuron_wf n p → length (inputs_ p) = S n.
Proof. intros (r & -> & <- & _). done. Qed.

Lemma buffered_wf n input p : neuron_wf n p → length input = n → neuron_wf n (buffered input p).
Proof. intros (r & _ & _ & Hw) Hlen. by exists input. Qed.

Lemma updated_wf n error p : neuron_wf n p → neuron_wf n (updated error p).
Proof.
  intros (r & Hin & Hr & Hw). exists r. simpl. split; [done|]. split; [done|].
  rewrite length_zip_with, Hw, Hin. simpl. lia.
Qed.

Lemma BinaryPerceptron_train_eq n p input expected :
  neuron_wf n p → length input = n →
  BinaryPerceptron.train input expected p =
    let q := buffered input p in
    let expectedValue := if expected then 1%float else 0%float in
    let result := if (BinaryPerceptron.getScore_ q > threshold_ p)%js then 1%float else 0%float in
    if (expectedValue == result)%js then Return true q
    else Return false (updated (expectedValue - result)%js q).
Proof.
  intros Hwf Hlen. unfold BinaryPerceptron.train, mbind, js_bind, gets, modify, throw, mret, js_ret.
  rewrite (neuron_wf_length _ _ Hwf).
  replace (Z.of_nat (length input) =? Z.of_nat (S n) - 1)%Z with true
    by (symmetry; apply Z.eqb_eq; lia).
  change (negb true) with false. cbv beta iota zeta. rewrite (setInput_buffered n) by done.
  change (threshold_ (buffered input p)) with (threshold_ p).
  destruct (_ == _)%js; [done|].
  rewrite updateWeights_updated; [done|].
  pose proof (buffered_wf _ _ _ Hwf Hlen) as (r & Hin & Hr & Hw). rewrite Hw, Hin. simpl. lia.
Qed.

Lemma BinaryPerceptron_classify_eq n p input :
  neuron_wf n p → length input = n →
  BinaryPerceptron.classify input p =
    Return (BinaryPerceptron.getScore_ (buffered input p) > threshold_ p)%js (buffered input p).
Proof.
  intros Hwf Hlen. unfold BinaryPerceptron.classify, mbind, js_bind, gets, modify, throw, mret, js_ret.
  rewrite (neuron_wf_length _ _ Hwf).
  replace (Z.of_nat (length input) =? Z.of_nat (S n) - 1)%Z with true
    by (symmetry; apply Z.eqb_eq; lia).
  change (negb true) with false. cbv beta iota. by rewrite (setInput_buffered n).
Qed.

Lemma BinaryPerceptron_train_throws n p input expected :
  neuron_wf n p → length input ≠ n →
  BinaryPerceptron.train input expected p = Throw IllegalInputDimension p.
Proof.
  intros Hwf Hlen. unfold BinaryPerceptron.train, mbind, js_bind, gets, throw.
  rewrite (neuron_wf_length _ _ Hwf).
  replace (Z.of_nat (length input) =? Z.of_nat (S n) - 1)%Z with false; [done|].
  symmetry; apply Z.eqb_neq; lia.
Qed.

Lemma BinaryPerceptron_classify_throws n p input :
  neuron_wf n p → length input ≠ n →
  BinaryPerceptron.classify input p = Throw IllegalInputDimension p.
Proof.
  intros Hwf Hlen. unfold BinaryPerceptron.classify, mbind, js_bind, gets, throw.
  rewrite (neuron_wf_length _ _ Hwf).
  replace (Z.of_nat (length input) =? Z.of_nat (S n) - 1)%Z with false; [done|].
  symmetry; apply Z.eqb_neq; lia.
Qed.

Lemma BinaryPerceptron_new_wf (inputDimension : Z) learningRate threshold :
  (0 ≤ inputDimension)%Z →
  neuron_wf (Z.to_nat inputDimension) (BinaryPerceptron.new inputDimension learningRate threshold).
Proof.
  intros Hd. unfold BinaryPerceptron.new.
  replace (Z.to_nat (inputDimension + 1)) with (S (Z.to_nat inputDimension)) by lia.
  exists (replicate (Z.to_nat inputDimension) 0%float). simpl.
  rewrite !length_replicate. done.
Qed.

(** ** Comparisons of JavaScript numbers

    [>] and [<=] on numbers other than [NaN] form a total preorder; a
    comparison with [NaN] is false.  The facts are read off the
    specification of binary64 comparison. *)

Lemma SFcompare_refl f : f ≠ S754_nan → SFcompare f f = Some Eq.
Proof.
  destruct f as [s|s| |s m e]; try done; intros _; simpl.
  - by destruct s.
  - rewrite Z.compare_refl, Pos.compare_cont_refl. by destruct s.
Qed.

Lemma SFcompare_irrefl f : SFcompare f f ≠ Some Lt.
Proof.
  destruct f as [s|s| |s m e]; try done; simpl.
  - by destruct s.
  - rewrite Z.compare_refl, Pos.compare_cont_refl. by destruct s.
Qed.

Lemma SFcompare_total f1 f2 :
  f1 ≠ S754_nan → f2 ≠ S754_nan → SFcompare f2 f1 ≠ Some Lt → SFle f1 f2.
Proof.
  unfold SFle.
  destruct f1 as [s1|s1| |s1 m1 e1], f2 as [s2|s2| |s2 m2 e2]; try done; intros _ _; simpl;
    try (destruct s1; try destruct s2; simpl; intros; try done; auto; fail);
    try (destruct s2; simpl; intros; try done; auto; fail).
  destruct s1, s2; simpl; intros H; auto; try done;
    cmp_cases; simpl in *; auto; try done; try lia.
Qed.

Lemma SFcompare_le_lt f1 f2 f3 :
  SFle f1 f2 → SFcompare f2 f3 = Some Lt → SFcompare f1 f3 = Some Lt.
Proof.
  unfold SFle.
  destruct f1 as [s1|s1| |s1 m1 e1], f2 as [s2|s2| |s2 m2 e2], f3 as [s3|s3| |s3 m3 e3];
    simpl; intros [H1|H1] H2; try done;
    repeat match goal with s : bool |- _ => destruct s end; simpl in *; try done;
    cmp_cases; simpl in *; try done; try lia.
Qed.

Lemma not_nan_SF x : not_nan x → Prim2SF x ≠ S754_nan.
Proof. unfold not_nan. rewrite FloatAxioms.eqb_spec. intros H Hn. by rewrite Hn in H. Qed.

Lemma leb_SFle x y : (x <=? y)%float = true ↔ SFle (Prim2SF x) (Prim2SF y).
Proof.
  rewrite leb_spec. unfold SFleb, SFle.
  destruct (SFcompare _ _) as [[]|]; split; try done; auto; by intros [?|?].
Qed.

Lemma ltb_SFlt x y : (x <? y)%float = true ↔ SFcompare (Prim2SF x) (Prim2SF y) = Some Lt.
Proof.
  rewrite ltb_spec. unfold SFltb.
  by destruct (SFcompare _ _) as [[]|].
Qed.

Lemma gt_irrefl x : (x > x)%js = false.
Proof.
  destruct (x > x)%js eqn:H; [|done]. apply ltb_SFlt in H. by apply SFcompare_irrefl in H.
Qed.

Lemma leb_refl x : not_nan x → (x <=? x)%float = true.
Proof. intros H%not_nan_SF. apply leb_SFle. right. by apply SFcompare_refl. Qed.

Lemma gt_leb x y : (y > x)%js = true → (x <=? y)%float = true.
Proof. intros H%ltb_SFlt. apply leb_SFle. by left. Qed.

Lemma not_gt_leb x y : not_nan x → not_nan y → (x > y)%js = false → (x <=? y)%float = true.
Proof.
  intros Hx%not_nan_SF Hy%not_nan_SF H. apply leb_SFle, SFcompare_total; [done..|].
  intros Hlt%ltb_SFlt. congruence.
Qed.

Lemma leb_gt_trans x y z : (x <=? y)%float = true → (z > y)%js = true → (z > x)%js = true.
Proof. intros H1%leb_SFle H2%ltb_SFlt. apply ltb_SFlt. by eapply SFcompare_le_lt. Qed.

(** Zero times a finite number is a zero, and adding a zero to [+0]
    leaves [+0]. *)
Lemma mul_zero_finite x :
  is_finite x = true → (0 * x = 0 ∨ 0 * x = -0)%float.
Proof.
  unfold is_finite, is_nan, is_infinity.
  rewrite negb_true_iff, orb_false_iff, negb_false_iff. intros [Hnan Hinf].
  rewrite FloatAxioms.eqb_spec, abs_spec in Hinf. rewrite FloatAxioms.eqb_spec in Hnan.
  pose proof (mul_spec 0 x) as Hmul.
  rewrite <- (SF2Prim_Prim2SF (0 * x)), Hmul.
  destruct (Prim2SF x) as [s|s| |s m e].
  - destruct s; [right|left]; reflexivity.
  - destruct s; vm_compute in Hinf; done.
  - vm_compute in Hnan. done.
  - destruct s; [right|left]; reflexivity.
Qed.

Lemma add_zero_mul_zero_finite x : is_finite x = true → (0 + 0 * x = 0)%float.
Proof. intros [->| ->]%mul_zero_finite; reflexivity. Qed.

(** ** [MultiPerceptron]: scores, scan and weight updates in closed form *)

Lemma multi_foldl_set_inputs_ (F : nat → list float → list float) p (idx : list nat) :
  foldl (λ p i, MultiPerceptron.set_inputs_ (F i) p) p idx
  = MultiPerceptron.set_inputs_ (λ a, foldl (λ a i, F i a) a idx) p.
Proof.
  revert p. induction idx as [|i idx IH]; intros p; simpl.
  - by destruct p.
  - rewrite IH. by destruct p.
Qed.

Lemma multi_setInput_buffered n input p :
  multi_wf n p → length input = n →
  MultiPerceptron.setInput_ input p = multi_buffered input p.
Proof.
  intros (r & Hin & Hr) Hlen. unfold MultiPerceptron.setInput_, multi_buffered.
  rewrite (multi_foldl_set_inputs_ (λ i a, js_set a i (js_get input (i - 1)))).
  unfold MultiPerceptron.set_inputs_. f_equal. rewrite Hin. simpl. rewrite Nat.sub_0_r.
  etrans; [exact (foldl_js_set (λ i _, js_get input (i - 1)) [1%float] r)|].
  simpl. f_equal.
  etrans; [|apply (imap_js_get input r); congruence].
  apply imap_ext. intros i x _. simpl. f_equal. lia.
Qed.

Lemma row_at_nat (rows : list (list float)) (c : nat) :
  MultiPerceptron.row_at rows (Z.of_nat c) = rows !! c.
Proof.
  unfold MultiPerceptron.row_at. destruct (Z.ltb_spec (Z.of_nat c) 0); [lia|].
  by rewrite Nat2Z.id.
Qed.

Lemma multi_getScore_eq p c row :
  MultiPerceptron.inputWeights_ p !! c = Some row →
  MultiPerceptron.getScore_ (Z.of_nat c) p = Return (row_score row (MultiPerceptron.inputs_ p)) p.
Proof. intros Hrow. unfold MultiPerceptron.getScore_. by rewrite row_at_nat, Hrow. Qed.

Lemma multi_scan_loop rest pre m c q :
  MultiPerceptron.inputWeights_ q = pre ++ rest →
  for_loop (length rest) (length pre) MultiPerceptron.scan_example (m, c) q
  = Return (scan_from m c (length pre)
              (map (λ row, row_score row (MultiPerceptron.inputs_ q)) rest)) q.
Proof.
  revert pre m c. induction rest as [|row rest IH]; intros pre m c Hrows; [done|].
  simpl. unfold mbind, js_bind. unfold MultiPerceptron.scan_example at 1.
  unfold mbind, js_bind.
  rewrite (multi_getScore_eq q (length pre) row)
    by (rewrite Hrows; by apply list_lookup_middle).
  unfold mret, js_ret.
  assert (MultiPerceptron.inputWeights_ q = (pre ++ [row]) ++ rest) as Hrows'
    by (by rewrite <- app_assoc).
  assert (S (length pre) = length (pre ++ [row])) as ->
    by (rewrite length_app; simpl; lia).
  destruct (_ > _)%js; rewrite (IH _ _ _ Hrows'); by rewrite length_app, Nat.add_1_r.
Qed.

Lemma multi_classify_eq n p input :
  multi_wf n p → length input = n → MultiPerceptron.inputWeights_ p ≠ [] →
  MultiPerceptron.classify input p
  = Return (winner (scores (multi_buffered input p))) (multi_buffered input p).
Proof.
  intros Hwf Hlen Hrows. pose proof Hwf as (r & Hin & Hr).
  unfold MultiPerceptron.classify, mbind, js_bind, gets, modify, throw.
  replace (Z.of_nat (length input) =? Z.of_nat (length (MultiPerceptron.inputs_ p)) - 1)%Z
    with true by (symmetry; apply Z.eqb_eq; rewrite Hin; simpl; lia).
  change (negb true) with false. cbv beta iota.
  rewrite (multi_setInput_buffered n) by done.
  destruct (MultiPerceptron.inputWeights_ p) as [|row0 rest] eqn:Hw; [done|].
  rewrite (multi_getScore_eq _ 0 row0) by (simpl; by rewrite Hw).
  change (MultiPerceptron.inputWeights_ (multi_buffered input p))
    with (MultiPerceptron.inputWeights_ p).
  rewrite Hw.
  replace (length (row0 :: rest) - 1) with (length rest) by (simpl; lia).
  change 1 with (length [row0]).
  rewrite (multi_scan_loop rest [row0]) by (simpl; by rewrite Hw).
  unfold scores, winner. simpl. rewrite Hw. simpl.
  by destruct (scan_from _ _ _ _).
Qed.

Lemma scan_from_winner_range rest m c i :
  (scan_from m c i rest).2 = c ∨ i ≤ (scan_from m c i rest).2 < i + length rest.
Proof.
  revert m c i. induction rest as [|s rest IH]; intros m c i; simpl; [by left|].
  destruct (s > m)%js.
  - destruct (IH s i (S i)) as [->|?]; right; lia.
  - destruct (IH m c (S i)) as [->|?]; [by left|right; lia].
Qed.

Lemma winner_lt ss : ss ≠ [] → winner ss < length ss.
Proof.
  destruct ss as [|s rest]; [done|]. intros _. unfold winner. simpl.
  destruct (scan_from_winner_range rest s 0 1) as [->|?]; lia.
Qed.

(** The scan keeps the first maximum, provided no score is [NaN]. *)
Lemma scan_from_first_max rest pre m c :
  Forall not_nan (pre ++ rest) →
  pre !! c = Some m →
  (∀ j s, pre !! j = Some s → (s <=? m)%float = true) →
  (∀ j s, j < c → pre !! j = Some s → (m > s)%js = true) →
  first_max (pre ++ rest) (scan_from m c (length pre) rest).2.
Proof.
  revert pre m c. induction rest as [|s rest IH]; intros pre m c Hnan Hc Hle Hlt.
  - rewrite app_nil_r. by exists m.
  - assert (not_nan s) as Hs.
    { rewrite Forall_forall in Hnan. apply Hnan, elem_of_app. right. apply list_elem_of_here. }
    assert (not_nan m) as Hm.
    { rewrite Forall_forall in Hnan. apply Hnan, elem_of_app. left.
      by eapply list_elem_of_lookup_2. }
    assert (c < length pre) as Hclt by (by eapply lookup_lt_Some).
    simpl. replace (pre ++ s :: rest) with ((pre ++ [s]) ++ rest) in *
      by (by rewrite <- app_assoc).
    replace (S (length pre)) with (length (pre ++ [s])) by (rewrite length_app; simpl; lia).
    destruct (s > m)%js eqn:Hgt.
    + apply IH; [done|by apply list_lookup_middle| |].
      * intros j x Hj. destruct (decide (j < length pre)) as [Hjl|Hjl].
        -- rewrite lookup_app_l in Hj by done. apply gt_leb. eapply leb_gt_trans; eauto.
        -- apply lookup_lt_Some in Hj as Hj'. rewrite length_app in Hj'. simpl in Hj'.
           assert (j = length pre) as -> by lia.
           rewrite list_lookup_middle in Hj by done. injection Hj as <-. by apply leb_refl.
      * intros j x Hjl Hj. rewrite lookup_app_l in Hj by done. eapply leb_gt_trans; eauto.
    + apply IH; [done|by rewrite lookup_app_l| |].
      * intros j x Hj. destruct (decide (j < length pre)) as [Hjl|Hjl].
        -- rewrite lookup_app_l in Hj by done. eauto.
        -- apply lookup_lt_Some in Hj as Hj'. rewrite length_app in Hj'. simpl in Hj'.
           assert (j = length pre) as -> by lia.
           rewrite list_lookup_middle in Hj by done. injection Hj as <-.
           by apply not_gt_leb.
      * intros j x Hjc Hj. rewrite lookup_app_l in Hj by lia. eauto.
Qed.

Lemma winner_first_max ss : ss ≠ [] → Forall not_nan ss → first_max ss (winner ss).
Proof.
  destruct ss as [|s rest]; [done|]. intros _ Hnan. unfold winner.
  apply (scan_from_first_max rest [s] s 0); [done|done| |].
  - intros [|j] x Hj; [|done]. injection Hj as <-. apply leb_refl.
    by apply Forall_cons in Hnan as [? _].
  - intros j x Hj. lia.
Qed.

(** Equal scores, [NaN] or not, never move the running maximum. *)
Lemma scan_from_ties m c i k : scan_from m c i (replicate k m) = (m, c).
Proof.
  revert i. induction k as [|k IH]; intros i; [done|]. simpl. by rewrite gt_irrefl.
Qed.

Lemma multi_foldl_set_inputWeights_
    (G : float → list float → nat → list (list float) → list (list float)) p (idx : list nat) :
  foldl (λ p i, MultiPerceptron.set_inputWeights_
                  (G (MultiPerceptron.learningRate_ p) (MultiPerceptron.inputs_ p) i) p) p idx
  = MultiPerceptron.set_inputWeights_
      (λ w, foldl (λ w i, G (MultiPerceptron.learningRate_ p) (MultiPerceptron.inputs_ p) i w)
                  w idx) p.
Proof.
  revert p. induction idx as [|i idx IH]; intros p; simpl.
  - by destruct p.
  - rewrite IH. by destruct p.
Qed.

Lemma foldl_alter (F : nat → list float → list float) c (rows : list (list float)) idx :
  foldl (λ rows i, alter (F i) c rows) rows idx
  = alter (λ r, foldl (λ r i, F i r) r idx) c rows.
Proof.
  revert rows. induction idx as [|i idx IH]; intros rows; simpl.
  - by rewrite list_alter_id.
  - by rewrite IH, list_alter_alter_eq.
Qed.

Lemma foldl_alter_js_set (g : nat → float → float) c (rows : list (list float)) row :
  rows !! c = Some row →
  foldl (λ rows i, alter (λ r, js_set r i (g i (js_get r i))) c rows) rows (seq 0 (length row))
  = alter (imap g) c rows.
Proof.
  intros Hrow. rewrite (foldl_alter (λ i r, js_set r i (g i (js_get r i)))).
  apply list_alter_ext; [|done]. intros r Hr. rewrite Hrow in Hr. injection Hr as <-.
  apply foldl_js_set_all.
Qed.

Lemma multi_encourage_eq q c row :
  MultiPerceptron.inputWeights_ q !! c = Some row →
  MultiPerceptron.encourageWeights_ (Z.of_nat c) q
  = Return tt (MultiPerceptron.set_inputWeights_
                 (alter (encouraged (MultiPerceptron.learningRate_ q)
                                    (MultiPerceptron.inputs_ q)) c) q).
Proof.
  intros Hrow. unfold MultiPerceptron.encourageWeights_. rewrite row_at_nat, Hrow, Nat2Z.id.
  f_equal.
  rewrite (multi_foldl_set_inputWeights_
             (λ lr inp i, alter (λ r, js_set r i (js_get r i + lr * js_get inp i)%js) c)).
  unfold MultiPerceptron.set_inputWeights_. f_equal.
  apply (foldl_alter_js_set
           (λ i w, (w + MultiPerceptron.learningRate_ q * js_get (MultiPerceptron.inputs_ q) i)%js)).
  done.
Qed.

Lemma multi_punish_eq q c row :
  MultiPerceptron.inputWeights_ q !! c = Some row →
  MultiPerceptron.punishWeights_ (Z.of_nat c) q
  = Return tt (MultiPerceptron.set_inputWeights_
                 (alter (punished (MultiPerceptron.learningRate_ q)
                                  (MultiPerceptron.inputs_ q)) c) q).
Proof.
  intros Hrow. unfold MultiPerceptron.punishWeights_. rewrite row_at_nat, Hrow, Nat2Z.id.
  f_equal.
  rewrite (multi_foldl_set_inputWeights_
             (λ lr inp i, alter (λ r, js_set r i (js_get r i - lr * js_get inp i)%js) c)).
  unfold MultiPerceptron.set_inputWeights_. f_equal.
  apply (foldl_alter_js_set
           (λ i w, (w - MultiPerceptron.learningRate_ q * js_get (MultiPerceptron.inputs_ q) i)%js)).
  done.
Qed.

Lemma multi_train_eq n p input expected :
  multi_wf n p → length input = n → MultiPerceptron.inputWeights_ p ≠ [] →
  MultiPerceptron.train input expected p
  = let q := multi_buffered input p in
    let predicted := winner (scores q) in
    if (expected =? Z.of_nat predicted)%Z then Return true q
    else (MultiPerceptron.encourageWeights_ expected;;
          MultiPerceptron.punishWeights_ (Z.of_nat predicted);;
          mret false) q.
Proof.
  intros Hwf Hlen Hrows. pose proof Hwf as (r & Hin & Hr).
  unfold MultiPerceptron.train at 1. unfold mbind at 1 2 3 4 5, js_bind, gets, modify, throw.
  replace (Z.of_nat (length input) =? Z.of_nat (length (MultiPerceptron.inputs_ p)) - 1)%Z
    with true by (symmetry; apply Z.eqb_eq; rewrite Hin; simpl; lia).
  change (negb true) with false. cbv beta iota.
  rewrite (multi_setInput_buffered n) by done.
  destruct (MultiPerceptron.inputWeights_ p) as [|row0 rest] eqn:Hw; [done|].
  rewrite (multi_getScore_eq _ 0 row0) by (simpl; by rewrite Hw).
  change (MultiPerceptron.inputWeights_ (multi_buffered input p))
    with (MultiPerceptron.inputWeights_ p).
  rewrite Hw.
  replace (length (row0 :: rest) - 1) with (length rest) by (simpl; lia).
  change 1 with (length [row0]).
  rewrite (multi_scan_loop rest [row0]) by (simpl; by rewrite Hw).
  unfold scores, winner. simpl. rewrite Hw. simpl.
  destruct (scan_from _ _ _ _) as [m c]. simpl. by destruct (_ =? _)%Z.
Qed.

(** ** [Perceptron] shares the single-example methods of [BinaryPerceptron] *)

Lemma Perceptron_new_eq : Perceptron.new = BinaryPerceptron.new.
Proof. reflexivity. Qed.

Lemma Perceptron_train_eq : Perceptron.train = BinaryPerceptron.train.
Proof. reflexivity. Qed.

Lemma Perceptron_classify_eq : Perceptron.classify = BinaryPerceptron.classify.
Proof. reflexivity. Qed.

(** ** The score as a dot product *)

Lemma foldl_seq_zip (ws xs pre_w pre_x : list float) (acc : float) :
  length pre_w = length pre_x → length ws ≤ length xs →
  foldl (λ score i, (score + js_get (pre_w ++ ws) i * js_get (pre_x ++ xs) i)%js)
        acc (seq (length pre_w) (length ws))
  = foldl (λ score wx, (score + wx.1 * wx.2)%js) acc (zip ws xs).
Proof.
  revert xs pre_w pre_x acc.
  induction ws as [|w ws IH]; intros xs pre_w pre_x acc Hpre Hlen; [done|].
  destruct xs as [|x xs]; simpl in Hlen; [lia|]. simpl.
  rewrite js_get_middle. rewrite Hpre at 1. rewrite js_get_middle.
  replace (pre_w ++ w :: ws) with ((pre_w ++ [w]) ++ ws) by (by rewrite <- app_assoc).
  replace (pre_x ++ x :: xs) with ((pre_x ++ [x]) ++ xs) by (by rewrite <- app_assoc).
  replace (S (length pre_w)) with (length (pre_w ++ [w])) by (rewrite length_app; simpl; lia).
  apply IH; [|lia]. rewrite !length_app. simpl. lia.
Qed.

Lemma row_score_dot (row buffer : list float) :
  length row ≤ length buffer → row_score row buffer = dot row buffer.
Proof. intros Hlen. exact (foldl_seq_zip row buffer [] [] 0%float eq_refl Hlen). Qed.

Lemma getScore_dot (p : neuron) :
  length (inputWeights_ p) ≤ length (inputs_ p) →
  BinaryPerceptron.getScore_ p = dot (inputWeights_ p) (inputs_ p).
Proof. apply row_score_dot. Qed.

(** ** Single examples: the binary learning rule (C5) *)

(** C5.  For every input of length inputDimension and every boolean
    expected, binary [train] scores the buffered input (1.0 in the bias
    slot, then the input), takes predicted = 1 when the score exceeds the
    threshold and 0 otherwise, expectedValue = 1 when expected and 0
    otherwise.  When the two are equal it returns true and the weights are
    those it started with; otherwise it returns false, the error
    expectedValue - predicted is 1 or -1, and every weight, the bias
    weight included, becomes weight + learningRate * error * buffered
    input. *)
Theorem binary_train_rule (n : nat) (p : neuron) (input : list float) (expected : bool) :
  neuron_wf n p → length input = n →
  let bufferedInput := 1%float :: input in
  let score := dot (inputWeights_ p) bufferedInput in
  let predicted := if (score > threshold_ p)%js then 1%float else 0%float in
  let expectedValue := if expected then 1%float else 0%float in
  let error := (expectedValue - predicted)%js in
  if (predicted == expectedValue)%js then
    BinaryPerceptron.train input expected p
    = Return true (Neuron bufferedInput (inputWeights_ p) (learningRate_ p) (threshold_ p))
  else
    (error = 1%float ∨ error = (-1)%float) ∧
    BinaryPerceptron.train input expected p
    = Return false
        (Neuron bufferedInput
           (zip_with (λ w x, (w + learningRate_ p * error * x)%js) (inputWeights_ p) bufferedInput)
           (learningRate_ p) (threshold_ p)).
Proof.
  intros Hwf Hlen. cbv zeta. rewrite (BinaryPerceptron_train_eq n) by done. cbv zeta.
  rewrite getScore_dot.
  2:{ pose proof (buffered_wf _ _ _ Hwf Hlen) as (r & Hin & Hr & Hw). rewrite Hw, Hin. simpl. lia. }
  change (inputWeights_ (buffered input p)) with (inputWeights_ p).
  change (inputs_ (buffered input p)) with (1%float :: input).
  destruct (_ > _)%js, expected; simpl; try done; split; auto.
Qed.

Lemma binary_train_rule_witness :
  ((1 - 0)%js = 1%float ∨ (1 - 0)%js = (-1)%float) ∧
  BinaryPerceptron.train [1%float] true (BinaryPerceptron.new 1 1 0)
  = Return false (Neuron [1; 1]%float [1; 1]%float 1 0).
Proof.
  assert (neuron_wf 1 (BinaryPerceptron.new 1 1 0)) as Hwf
    by (exists [0%float]; repeat split; reflexivity).
  exact (binary_train_rule 1 (BinaryPerceptron.new 1 1 0) [1%float] true Hwf eq_refl).
Defined.

(** ** Rejected calls leave the perceptron as it was (C6) *)

Lemma multi_wf_length n p : multi_wf n p → length (MultiPerceptron.inputs_ p) = S n.
Proof. intros (r & -> & <-). done. Qed.

Lemma multi_train_throws n p input expected :
  multi_wf n p → length input ≠ n →
  MultiPerceptron.train input expected p = Throw IllegalInputDimension p.
Proof.
  intros Hwf Hlen. unfold MultiPerceptron.train, mbind, js_bind, gets, throw.
  rewrite (multi_wf_length _ _ Hwf).
  replace (Z.of_nat (length input) =? Z.of_nat (S n) - 1)%Z with false; [done|].
  symmetry; apply Z.eqb_neq; lia.
Qed.

Lemma multi_classify_throws n p input :
  multi_wf n p → length input ≠ n →
  MultiPerceptron.classify input p = Throw IllegalInputDimension p.
Proof.
  intros Hwf Hlen. unfold MultiPerceptron.classify, mbind, js_bind, gets, throw.
  rewrite (multi_wf_length _ _ Hwf).
  replace (Z.of_nat (length input) =? Z.of_nat (S n) - 1)%Z with false; [done|].
  symmetry; apply Z.eqb_neq; lia.
Qed.

Lemma length_neq_eqb (a b : nat) : a ≠ b → negb (a =? b) = true.
Proof. intros H. apply negb_true_iff, Nat.eqb_neq, H. Qed.

(** C6.  In all three classes a [classify] or [train] call whose input
    has not the length inputDimension throws the DimensionMismatch error,
    and a [trainSet] call whose two sets differ in length throws the
    SetSizeMismatch error; the state the call leaves (weights, input
    buffer, and the caller's callback state) is the state it found. *)
Theorem rejected_calls_change_nothing {W} (w : W) (callback : callback_fn W)
    (n : nat) (p : neuron) (m : MultiPerceptron.t)
    (input : list float) (expected : bool) (expectedClass : Z)
    (inputSet : list (list float)) (expectedSet : list bool) (expectedClasses : list Z)
    (maxIterations : Z) :
  neuron_wf n p → multi_wf n m →
  error_kind IllegalInputDimension = Some DimensionMismatch ∧
  error_kind InputAndExpectationMismatch = Some SetSizeMismatch ∧
  (length input ≠ n →
     BinaryPerceptron.train input expected p = Throw IllegalInputDimension p ∧
     BinaryPerceptron.classify input p = Throw IllegalInputDimension p ∧
     Perceptron.train input expected p = Throw IllegalInputDimension p ∧
     Perceptron.classify input p = Throw IllegalInputDimension p ∧
     MultiPerceptron.train input expectedClass m = Throw IllegalInputDimension m ∧
     MultiPerceptron.classify input m = Throw IllegalInputDimension m) ∧
  (length inputSet ≠ length expectedSet →
     BinaryPerceptron.trainSet inputSet expectedSet maxIterations callback (p, w)
     = Throw InputAndExpectationMismatch (p, w) ∧
     Perceptron.trainSet inputSet expectedSet maxIterations p
     = Throw InputAndExpectationMismatch p) ∧
  (length inputSet ≠ length expectedClasses →
     MultiPerceptron.trainSet inputSet expectedClasses maxIterations callback (m, w)
     = Throw InputAndExpectationMismatch (m, w)).
Proof.
  intros Hp Hm. split; [done|]. split; [done|]. split; [|split].
  - intros Hlen. rewrite Perceptron_train_eq, Perceptron_classify_eq.
    rewrite (BinaryPerceptron_train_throws n), (BinaryPerceptron_classify_throws n) by done.
    rewrite (multi_train_throws n), (multi_classify_throws n); done.
  - intros Hlen.
    unfold BinaryPerceptron.trainSet, BinaryPerceptron.trainSet_fuel,
      Perceptron.trainSet, Perceptron.trainSet_fuel.
    by rewrite (length_neq_eqb _ _ Hlen).
  - intros Hlen.
    unfold MultiPerceptron.trainSet, MultiPerceptron.trainSet_fuel.
    by rewrite (length_neq_eqb _ _ Hlen).
Qed.

Lemma rejected_calls_change_nothing_witness :
  let p := BinaryPerceptron.new 2 1 0 in
  let m := MultiPerceptron.new 2 3 1 in
  (BinaryPerceptron.train [1%float] true p = Throw IllegalInputDimension p ∧
   BinaryPerceptron.classify [1%float] p = Throw IllegalInputDimension p ∧
   Perceptron.train [1%float] true p = Throw IllegalInputDimension p ∧
   Perceptron.classify [1%float] p = Throw IllegalInputDimension p ∧
   MultiPerceptron.train [1%float] 2 m = Throw IllegalInputDimension m ∧
   MultiPerceptron.classify [1%float] m = Throw IllegalInputDimension m) ∧
  (BinaryPerceptron.trainSet [[1; 1]%float] [] 5 None (p, tt)
   = Throw InputAndExpectationMismatch (p, tt) ∧
   Perceptron.trainSet [[1; 1]%float] [] 5 p = Throw InputAndExpectationMismatch p) ∧
  MultiPerceptron.trainSet [[1; 1]%float] [] 5 None (m, tt)
  = Throw InputAndExpectationMismatch (m, tt).
Proof.
  cbv zeta.
  pose proof (rejected_calls_change_nothing tt None 2
                (BinaryPerceptron.new 2 1 0) (MultiPerceptron.new 2 3 1)
                [1%float] true 2 [[1%float; 1%float]] [] [] 5
                (ex_intro _ [0; 0]%float (conj eq_refl (conj eq_refl eq_refl)))
                (ex_intro _ [0; 0]%float (conj eq_refl eq_refl))) as (_ & _ & H1 & H2 & H3).
  split; [|split].
  - apply H1. simpl. lia.
  - apply H2. simpl. lia.
  - apply H3. simpl. lia.
Defined.

(** ** A budget of zero or fewer passes (C9) *)

(** C9.  For each of the three classes and every pair of sets of equal
    length, [trainSet] with maxIterations <= 0 executes no pass: the
    perceptron, and the state of the callback, which is never called, are
    unchanged.  The value returned is false when maxIterations is 0 and
    true when it is negative. *)
Theorem trainSet_without_budget {W} (w : W) (callback : callback_fn W)
    (p : neuron) (m : MultiPerceptron.t)
    (inputSet : list (list float)) (expectedSet : list bool) (expectedClasses : list Z)
    (maxIterations : Z) :
  length inputSet = length expectedSet → length inputSet = length expectedClasses →
  (maxIterations ≤ 0)%Z →
  BinaryPerceptron.trainSet inputSet expectedSet maxIterations callback (p, w)
  = Return (maxIterations <? 0)%Z (p, w) ∧
  Perceptron.trainSet inputSet expectedSet maxIterations p
  = Return (maxIterations <? 0)%Z p ∧
  MultiPerceptron.trainSet inputSet expectedClasses maxIterations callback (m, w)
  = Return (maxIterations <? 0)%Z (m, w).
Proof.
  intros Hlen Hlen' Hmax.
  unfold BinaryPerceptron.trainSet, BinaryPerceptron.trainSet_fuel,
    Perceptron.trainSet, Perceptron.trainSet_fuel,
    MultiPerceptron.trainSet, MultiPerceptron.trainSet_fuel.
  rewrite <- Hlen', <- Hlen, Nat.eqb_refl.
  destruct maxIterations as [|q|q]; [done|lia|done].
Qed.

Lemma trainSet_without_budget_witness :
  BinaryPerceptron.trainSet [[1%float]] [true] (-3) (Some (λ a b c l, (a, b, c) :: l))
    (BinaryPerceptron.new 1 1 0, [])
  = Return true (BinaryPerceptron.new 1 1 0, []) ∧
  Perceptron.trainSet [[1%float]] [true] (-3) (Perceptron.new 1 1 0)
  = Return true (Perceptron.new 1 1 0) ∧
  MultiPerceptron.trainSet [[1%float]] [1%Z] (-3) (Some (λ a b c l, (a, b, c) :: l))
    (MultiPerceptron.new 1 2 1, [])
  = Return true (MultiPerceptron.new 1 2 1, []).
Proof.
  apply (trainSet_without_budget [] (Some (λ a b c l, (a, b, c) :: l))
           (BinaryPerceptron.new 1 1 0) (MultiPerceptron.new 1 2 1)
           [[1%float]] [true] [1%Z] (-3)); [reflexivity|reflexivity|lia].
Defined.

(** ** Fresh perceptrons (C10, C7) *)

Lemma dot_zero_weights (xs : list float) (k : nat) :
  Forall (λ x, is_finite x = true) xs → dot (replicate k 0%float) xs = 0%float.
Proof.
  unfold dot. intros Hfin. revert k. induction Hfin as [|x xs Hx _ IH]; intros [|k]; try done.
  simpl. rewrite (add_zero_mul_zero_finite x Hx). apply IH.
Qed.

Lemma fresh_score (d : Z) learningRate threshold (input : list float) :
  (0 ≤ d)%Z → length input = Z.to_nat d → Forall (λ x, is_finite x = true) input →
  BinaryPerceptron.getScore_ (buffered input (BinaryPerceptron.new d learningRate threshold))
  = 0%float.
Proof.
  intros Hd Hlen Hfin. rewrite getScore_dot.
  - simpl. apply dot_zero_weights. by constructor.
  - simpl. rewrite length_replicate. lia.
Qed.

(** C10, as amended.  A freshly constructed binary perceptron of either
    class whose threshold is strictly negative classifies as true every
    input of the right length whose components are all finite: the score
    is then 0 and 0 > threshold. *)
Theorem fresh_negative_threshold (d : Z) (learningRate threshold : float) (input : list float) :
  (0 ≤ d)%Z → (0 > threshold)%js = true →
  length input = Z.to_nat d → Forall (λ x, is_finite x = true) input →
  BinaryPerceptron.classify input (BinaryPerceptron.new d learningRate threshold)
  = Return true (buffered input (BinaryPerceptron.new d learningRate threshold)) ∧
  Perceptron.classify input (Perceptron.new d learningRate threshold)
  = Return true (buffered input (Perceptron.new d learningRate threshold)).
Proof.
  intros Hd Hth Hlen Hfin. rewrite Perceptron_classify_eq, Perceptron_new_eq.
  rewrite (BinaryPerceptron_classify_eq (Z.to_nat d))
    by (done || by apply BinaryPerceptron_new_wf).
  rewrite fresh_score by done.
  change (threshold_ (BinaryPerceptron.new d learningRate threshold)) with threshold.
  by rewrite Hth.
Qed.

Lemma fresh_negative_threshold_witness :
  BinaryPerceptron.classify [2%float; (-7)%float] (BinaryPerceptron.new 2 0.5 (-0.25))
  = Return true (buffered [2%float; (-7)%float] (BinaryPerceptron.new 2 0.5 (-0.25))) ∧
  Perceptron.classify [2%float; (-7)%float] (Perceptron.new 2 0.5 (-0.25))
  = Return true (buffered [2%float; (-7)%float] (Perceptron.new 2 0.5 (-0.25))).
Proof.
  apply (fresh_negative_threshold 2 0.5 (-0.25) [2%float; (-7)%float]);
    [lia|reflexivity|reflexivity|].
  repeat constructor.
Defined.

(** C10 does not hold of every input of the right length: on an input
    that is not finite, zero times infinity is [NaN], the score is [NaN],
    and [NaN > -1] is false. *)
Lemma fresh_negative_threshold_infinity :
  ¬ (∀ input, length input = 1 →
       ∃ p', BinaryPerceptron.classify input (BinaryPerceptron.new 1 1 (-1)) = Return true p').
Proof.
  intros H. destruct (H [infinity] eq_refl) as [p' Hp']. vm_compute in Hp'. discriminate.
Qed.

Lemma MultiPerceptron_new_wf (d c : Z) learningRate :
  (0 ≤ d)%Z → multi_wf (Z.to_nat d) (MultiPerceptron.new d c learningRate).
Proof.
  intros Hd. unfold MultiPerceptron.new.
  replace (Z.to_nat (d + 1)) with (S (Z.to_nat d)) by lia.
  exists (replicate (Z.to_nat d) 0%float). simpl. by rewrite length_replicate.
Qed.

Lemma fresh_scores (d c : Z) learningRate input :
  ∃ s, scores (multi_buffered input (MultiPerceptron.new d c learningRate))
       = replicate (Z.to_nat c) s.
Proof.
  eexists. unfold scores. simpl. induction (Z.to_nat c) as [|k IH]; [done|].
  simpl. by rewrite IH.
Qed.

(** C7, as amended.  For every input of length inputDimension for which
    no class score is [NaN], [classify] returns the smallest class index
    whose score is the maximum over the classes: no score exceeds it and
    every earlier score is strictly smaller.  A freshly constructed
    instance returns class 0 for every input of the right length, [NaN]
    scores included. *)
Theorem classify_first_max (n : nat) (p : MultiPerceptron.t) (input : list float)
    (d c : Z) (learningRate : float) (freshInput : list float) :
  multi_wf n p → length input = n → MultiPerceptron.inputWeights_ p ≠ [] →
  (Forall not_nan (scores (multi_buffered input p)) →
   ∃ r, MultiPerceptron.classify input p = Return r (multi_buffered input p) ∧
        first_max (scores (multi_buffered input p)) r) ∧
  ((0 ≤ d)%Z → (1 ≤ c)%Z → length freshInput = Z.to_nat d →
   MultiPerceptron.classify freshInput (MultiPerceptron.new d c learningRate)
   = Return 0 (multi_buffered freshInput (MultiPerceptron.new d c learningRate))).
Proof.
  intros Hwf Hlen Hrows. split.
  - intros Hnan. eexists. split; [by apply (multi_classify_eq n)|].
    apply winner_first_max; [|done].
    unfold scores. simpl. by destruct (MultiPerceptron.inputWeights_ p).
  - intros Hd Hc Hfresh. rewrite (multi_classify_eq (Z.to_nat d)).
    + f_equal. destruct (fresh_scores d c learningRate freshInput) as [s ->].
      destruct (Z.to_nat c) as [|k] eqn:Hk; [lia|]. unfold winner. simpl.
      by rewrite scan_from_ties.
    + by apply MultiPerceptron_new_wf.
    + done.
    + simpl. destruct (Z.to_nat c) eqn:Hk; [lia|done].
Qed.

Lemma classify_first_max_witness :
  (∃ r, MultiPerceptron.classify [2%float]
          (MultiPerceptron.Multi [1; 0]%float [[0; 1]; [1; 1]; [1; 1]]%float 1)
        = Return r (MultiPerceptron.Multi [1; 2]%float [[0; 1]; [1; 1]; [1; 1]]%float 1) ∧
        first_max [2; 3; 3]%float r) ∧
  MultiPerceptron.classify [infinity] (MultiPerceptron.new 1 3 1)
  = Return 0 (multi_buffered [infinity] (MultiPerceptron.new 1 3 1)).
Proof.
  pose proof (classify_first_max 1
                (MultiPerceptron.Multi [1; 0]%float [[0; 1]; [1; 1]; [1; 1]]%float 1)
                [2%float] 1 3 1 [infinity]
                (ex_intro _ [0%float] (conj eq_refl eq_refl)) eq_refl ltac:(done)) as [H1 H2].
  split.
  - apply H1. repeat constructor.
  - apply H2; [lia|lia|reflexivity].
Defined.

(** C7 does not hold when a score is [NaN]: with the weights
    [[0, 0], [0, 1]] and the input [Infinity] the scores are [NaN] and
    [Infinity]; [Infinity > NaN] is false, so class 0 is returned, whose
    score is not the maximum. *)
Lemma classify_nan_score :
  let p := MultiPerceptron.new 1 2 1 in
  let weights := [[0; 0]; [0; 1]]%float in
  ∃ p' q, MultiPerceptron.setWeights weights p = Return weights p' ∧
          MultiPerceptron.classify [infinity] p' = Return 0 q ∧
          scores q = [nan; infinity] ∧
          ¬ first_max (scores q) 0.
Proof.
  eexists _, _. split; [reflexivity|]. split; [reflexivity|]. split; [reflexivity|].
  intros (m & Hm & Hle & _). vm_compute in Hm. injection Hm as <-.
  specialize (Hle 1 infinity eq_refl). vm_compute in Hle. discriminate.
Qed.

(** ** [MultiPerceptron] with the rows by reference: the methods in closed form *)

Lemma ref_foldl_set_inputs_ (F : nat → list float → list float) (s : MultiPerceptronRef.state)
    (idx : list nat) :
  foldl (λ s i, MultiPerceptronRef.set_inputs_ (F i) s) s idx
  = MultiPerceptronRef.set_inputs_ (λ a, foldl (λ a i, F i a) a idx) s.
Proof.
  revert s. induction idx as [|i idx IH]; intros [h [a w lr]]; simpl; [done|].
  by rewrite IH.
Qed.

Lemma ref_setInput_buffered n input s :
  ref_wf n s → length input = n →
  MultiPerceptronRef.setInput_ input s = ref_buffered input s.
Proof.
  intros (r & Hin & Hr) Hlen. unfold MultiPerceptronRef.setInput_, ref_buffered.
  rewrite (ref_foldl_set_inputs_ (λ i a, js_set a i (js_get input (i - 1)))).
  unfold MultiPerceptronRef.set_inputs_. f_equal. f_equal. rewrite Hin. simpl.
  rewrite Nat.sub_0_r.
  etrans; [exact (foldl_js_set (λ i _, js_get input (i - 1)) [1%float] r)|].
  simpl. f_equal.
  etrans; [|apply (imap_js_get input r); congruence].
  apply imap_ext. intros i x _. simpl. f_equal. lia.
Qed.

Lemma row_ref_nat s (c : nat) :
  MultiPerceptronRef.row_ref s (Z.of_nat c) = MultiPerceptronRef.inputWeights_ s.2 !! c.
Proof.
  unfold MultiPerceptronRef.row_ref. destruct (Z.ltb_spec (Z.of_nat c) 0); [lia|].
  by rewrite Nat2Z.id.
Qed.

Lemma row_ref_Some s (i : Z) r :
  MultiPerceptronRef.row_ref s i = Some r →
  (0 ≤ i)%Z ∧ MultiPerceptronRef.inputWeights_ s.2 !! Z.to_nat i = Some r.
Proof. unfold MultiPerceptronRef.row_ref. destruct (Z.ltb_spec i 0); [done|]. auto. Qed.

(** A row read through its reference is the row of the matrix. *)
Lemma matrix_lookup s c :
  rows_allocated s → matrix s !! c = MultiPerceptronRef.row_at s (Z.of_nat c).
Proof.
  intros Hall. unfold matrix, MultiPerceptronRef.row_at. rewrite row_ref_nat, list_lookup_fmap.
  destruct (MultiPerceptronRef.inputWeights_ s.2 !! c) as [r|] eqn:Hr; [|done]. simpl.
  unfold rows_allocated in Hall. rewrite Forall_lookup in Hall.
  by destruct (Hall c r Hr) as [row ->].
Qed.

Lemma ref_getScore_eq s c row :
  MultiPerceptronRef.row_at s (Z.of_nat c) = Some row →
  MultiPerceptronRef.getScore_ (Z.of_nat c) s
  = Return (row_score row (MultiPerceptronRef.inputs_ s.2)) s.
Proof. intros Hrow. unfold MultiPerceptronRef.getScore_. by rewrite Hrow. Qed.

Lemma ref_scan_loop rest pre m c s :
  matrix s = pre ++ rest → rows_allocated s →
  for_loop (length rest) (length pre) MultiPerceptronRef.scan_example (m, c) s
  = Return (scan_from m c (length pre)
              (map (λ row, row_score row (MultiPerceptronRef.inputs_ s.2)) rest)) s.
Proof.
  revert pre m c. induction rest as [|row rest IH]; intros pre m c Hrows Hall; [done|].
  simpl. unfold mbind, js_bind. unfold MultiPerceptronRef.scan_example at 1.
  unfold mbind, js_bind.
  rewrite (ref_getScore_eq s (length pre) row)
    by (rewrite <- matrix_lookup by done; rewrite Hrows; by apply list_lookup_middle).
  unfold mret, js_ret.
  assert (matrix s = (pre ++ [row]) ++ rest) as Hrows' by (by rewrite <- app_assoc).
  assert (S (length pre) = length (pre ++ [row])) as ->
    by (rewrite length_app; simpl; lia).
  destruct (_ > _)%js; rewrite (IH _ _ _ Hrows') by done; by rewrite length_app, Nat.add_1_r.
Qed.

Lemma ref_scan_eq {A} n s input (k : float * nat → js MultiPerceptronRef.state A) :
  ref_wf n s → length input = n → rows_allocated s →
  MultiPerceptronRef.inputWeights_ s.2 ≠ [] →
  (maxScore ← MultiPerceptronRef.getScore_ 0;
   classes ← gets (λ s, length (MultiPerceptronRef.inputWeights_ s.2));
   best ← for_loop (classes - 1) 1 MultiPerceptronRef.scan_example (maxScore, 0);
   k best) (ref_buffered input s)
  = k (match scores (multi_buffered input (by_value s)) with
       | [] => (0%float, 0)
       | m :: rest => scan_from m 0 1 rest
       end) (ref_buffered input s).
Proof.
  intros Hwf Hlen Hall Hrows.
  set (q := ref_buffered input s).
  assert (rows_allocated q) as Hallq by done.
  destruct (matrix q) as [|row0 rest] eqn:Hm.
  { unfold matrix in Hm. by apply fmap_nil_inv in Hm. }
  assert (length (MultiPerceptronRef.inputWeights_ q.2) = S (length rest)) as Hlenw.
  { rewrite <- (length_map (λ r, default [] (MultiPerceptronRef.array_at q.1 r))).
    fold (matrix q). by rewrite Hm. }
  unfold mbind, js_bind, gets.
  rewrite (ref_getScore_eq _ 0 row0) by (rewrite <- (matrix_lookup q 0) by done; by rewrite Hm).
  rewrite Hlenw. replace (S (length rest) - 1) with (length rest) by lia.
  change 1 with (length [row0]).
  rewrite (ref_scan_loop rest [row0]) by done.
  change (multi_buffered input (by_value s)) with (by_value q).
  unfold scores. simpl. by rewrite Hm.
Qed.

Lemma ref_classify_eq n s input :
  ref_wf n s → length input = n → rows_allocated s →
  MultiPerceptronRef.inputWeights_ s.2 ≠ [] →
  MultiPerceptronRef.classify input s
  = Return (winner (scores (multi_buffered input (by_value s)))) (ref_buffered input s).
Proof.
  intros Hwf Hlen Hall Hrows. pose proof Hwf as (r & Hin & Hr).
  unfold MultiPerceptronRef.classify. unfold mbind at 1, js_bind, gets.
  replace (Z.of_nat (length input) =? Z.of_nat (length (MultiPerceptronRef.inputs_ s.2)) - 1)%Z
    with true by (symmetry; apply Z.eqb_eq; rewrite Hin; simpl; lia).
  change (negb true) with false. cbv beta iota.
  unfold mbind at 1, js_bind, modify.
  rewrite (ref_setInput_buffered n) by done.
  etrans; [by apply (ref_scan_eq n)|].
  unfold winner. assert (scores (multi_buffered input (by_value s)) ≠ []) as Hs.
  { unfold scores. simpl. unfold matrix. intros Hnil%fmap_nil_inv%fmap_nil_inv. done. }
  destruct (scores _) as [|m rest]; [done|]. by destruct (scan_from _ _ _ _).
Qed.

Lemma ref_foldl_set_array (G : float → list float → nat → list float → list float)
    (r : MultiPerceptronRef.ref) (s : MultiPerceptronRef.state) (idx : list nat) :
  foldl (λ s i, MultiPerceptronRef.set_array
                  (G (MultiPerceptronRef.learningRate_ s.2) (MultiPerceptronRef.inputs_ s.2) i)
                  r s) s idx
  = (foldl (λ h i, alter (G (MultiPerceptronRef.learningRate_ s.2)
                            (MultiPerceptronRef.inputs_ s.2) i) r h) s.1 idx, s.2).
Proof.
  revert s. induction idx as [|i idx IH]; intros [h p]; simpl; [done|].
  by rewrite IH.
Qed.

Lemma ref_encourage_eq s c r row :
  MultiPerceptronRef.inputWeights_ s.2 !! c = Some r →
  MultiPerceptronRef.array_at s.1 r = Some row →
  MultiPerceptronRef.encourageWeights_ (Z.of_nat c) s
  = Return tt (MultiPerceptronRef.set_array
                 (encouraged (MultiPerceptronRef.learningRate_ s.2)
                             (MultiPerceptronRef.inputs_ s.2)) r s).
Proof.
  intros Hr Hrow. unfold MultiPerceptronRef.encourageWeights_, MultiPerceptronRef.row_at.
  rewrite row_ref_nat, Hr. simpl. rewrite Hrow. f_equal.
  rewrite (ref_foldl_set_array (λ lr inp i a, js_set a i (js_get a i + lr * js_get inp i)%js)).
  unfold MultiPerceptronRef.set_array. f_equal.
  by apply (foldl_alter_js_set
           (λ i w, (w + MultiPerceptronRef.learningRate_ s.2
                        * js_get (MultiPerceptronRef.inputs_ s.2) i)%js)).
Qed.

Lemma ref_punish_eq s c r row :
  MultiPerceptronRef.inputWeights_ s.2 !! c = Some r →
  MultiPerceptronRef.array_at s.1 r = Some row →
  MultiPerceptronRef.punishWeights_ (Z.of_nat c) s
  = Return tt (MultiPerceptronRef.set_array
                 (punished (MultiPerceptronRef.learningRate_ s.2)
                           (MultiPerceptronRef.inputs_ s.2)) r s).
Proof.
  intros Hr Hrow. unfold MultiPerceptronRef.punishWeights_, MultiPerceptronRef.row_at.
  rewrite row_ref_nat, Hr. simpl. rewrite Hrow. f_equal.
  rewrite (ref_foldl_set_array (λ lr inp i a, js_set a i (js_get a i - lr * js_get inp i)%js)).
  unfold MultiPerceptronRef.set_array. f_equal.
  by apply (foldl_alter_js_set
           (λ i w, (w - MultiPerceptronRef.learningRate_ s.2
                        * js_get (MultiPerceptronRef.inputs_ s.2) i)%js)).
Qed.

Lemma ref_train_eq n s input expected :
  ref_wf n s → length input = n → rows_allocated s →
  MultiPerceptronRef.inputWeights_ s.2 ≠ [] →
  MultiPerceptronRef.train input expected s
  = let q := ref_buffered input s in
    let predicted := winner (scores (by_value q)) in
    if (expected =? Z.of_nat predicted)%Z then Return true q
    else (MultiPerceptronRef.encourageWeights_ expected;;
          MultiPerceptronRef.punishWeights_ (Z.of_nat predicted);;
          mret false) q.
Proof.
  intros Hwf Hlen Hall Hrows. pose proof Hwf as (r & Hin & Hr).
  unfold MultiPerceptronRef.train. unfold mbind at 1, js_bind, gets.
  replace (Z.of_nat (length input) =? Z.of_nat (length (MultiPerceptronRef.inputs_ s.2)) - 1)%Z
    with true by (symmetry; apply Z.eqb_eq; rewrite Hin; simpl; lia).
  change (negb true) with false. cbv beta iota.
  unfold mbind at 1, js_bind, modify.
  rewrite (ref_setInput_buffered n) by done.
  etrans; [by apply (ref_scan_eq n)|]. cbv zeta.
  change (by_value (ref_buffered input s)) with (multi_buffered input (by_value s)).
  unfold winner. assert (scores (multi_buffered input (by_value s)) ≠ []) as Hs.
  { unfold scores. simpl. unfold matrix. intros Hnil%fmap_nil_inv%fmap_nil_inv. done. }
  destruct (scores _) as [|m rest]; [done|].
  destruct (scan_from _ _ _ _) as [m' c]. simpl. by destruct (_ =? _)%Z.
Qed.

(** ** A failed multi-class step touches two rows (C8) *)

Lemma row_at_Some rows (i : Z) row :
  MultiPerceptron.row_at rows i = Some row → (0 ≤ i)%Z ∧ rows !! Z.to_nat i = Some row.
Proof. unfold MultiPerceptron.row_at. destruct (Z.ltb_spec i 0); [done|]. auto. Qed.

(** Among pairwise distinct rows every class has a row of its own. *)
Lemma rows_distinct_own_row s c :
  rows_distinct s → c < length (MultiPerceptronRef.inputWeights_ s.2) → own_row s c.
Proof.
  intros Hnd Hc c' Hne Heq. destruct (lookup_lt_is_Some_2 _ _ Hc) as [r Hr].
  rewrite Hr in Heq. by apply Hne, (NoDup_lookup _ c' c r Hnd).
Qed.

(** The constructor gives every class an array of its own. *)
Lemma new_rows_distinct inputDimension classCount learningRate h :
  rows_distinct (MultiPerceptronRef.new inputDimension classCount learningRate h).
Proof. apply NoDup_seq. Qed.

Lemma new_rows_allocated inputDimension classCount learningRate h :
  rows_allocated (MultiPerceptronRef.new inputDimension classCount learningRate h).
Proof.
  unfold rows_allocated, MultiPerceptronRef.array_at. simpl. apply Forall_forall.
  intros r [Hlo Hhi]%elem_of_seq. apply lookup_lt_is_Some.
  rewrite length_app, length_replicate. lia.
Qed.

Lemma new_by_value inputDimension classCount learningRate h :
  by_value (MultiPerceptronRef.new inputDimension classCount learningRate h)
  = MultiPerceptron.new inputDimension classCount learningRate.
Proof.
  unfold by_value, MultiPerceptron.new. simpl. f_equal.
  unfold matrix, MultiPerceptronRef.array_at. simpl. apply list_eq. intros i.
  rewrite list_lookup_fmap.
  destruct (decide (i < Z.to_nat classCount)) as [Hi|Hi].
  - rewrite lookup_seq_lt by done. simpl.
    rewrite lookup_app_r, lookup_replicate_2 by lia. simpl.
    by rewrite lookup_replicate_2.
  - rewrite lookup_seq_ge by lia. simpl. symmetry. apply lookup_replicate_None. lia.
Qed.

(** C8.  When [train] misclassifies, that is when the class [classify]
    would return differs from the expected class, itself the index of a
    row, and neither of the two classes shares its row array with another
    class, it returns false and the weight matrix differs from the old
    one in two rows only: every component i of the expected class's row
    has grown by learningRate * bufferedInput[i], every component i of
    the predicted class's row has shrunk by
    learningRate * bufferedInput[i] (the buffered input is 1.0 followed
    by the input), and every other row is the row it was. *)
Theorem train_update_locality (n : nat) (s : MultiPerceptronRef.state) (input : list float)
    (expected : Z) (expectedRow : list float) (predicted : nat) (q : MultiPerceptronRef.state) :
  ref_wf n s → rows_allocated s → length input = n →
  MultiPerceptronRef.row_at s expected = Some expectedRow →
  MultiPerceptronRef.classify input s = Return predicted q →
  expected ≠ Z.of_nat predicted →
  own_row s (Z.to_nat expected) → own_row s predicted →
  let bufferedInput := 1%float :: input in
  let learningRate := MultiPerceptronRef.learningRate_ s.2 in
  ∃ predictedRow s',
    MultiPerceptronRef.row_at s (Z.of_nat predicted) = Some predictedRow ∧
    MultiPerceptronRef.train input expected s = Return false s' ∧
    MultiPerceptronRef.inputs_ s'.2 = bufferedInput ∧
    MultiPerceptronRef.inputWeights_ s'.2 = MultiPerceptronRef.inputWeights_ s.2 ∧
    MultiPerceptronRef.row_at s' expected
    = Some (imap (λ i w, (w + learningRate * js_get bufferedInput i)%js) expectedRow) ∧
    MultiPerceptronRef.row_at s' (Z.of_nat predicted)
    = Some (imap (λ i w, (w - learningRate * js_get bufferedInput i)%js) predictedRow) ∧
    (∀ c, c ≠ Z.to_nat expected → c ≠ predicted →
          MultiPerceptronRef.row_at s' (Z.of_nat c) = MultiPerceptronRef.row_at s (Z.of_nat c)).
Proof.
  intros Hwf Hall Hlen Hexp Hcl Hne Hown_e Hown_p. cbv zeta.
  pose proof Hexp as Hexp'. unfold MultiPerceptronRef.row_at in Hexp'.
  apply bind_Some in Hexp' as (re & Hre & Hrow_e). apply row_ref_Some in Hre as [Hpos Hre].
  assert (MultiPerceptronRef.inputWeights_ s.2 ≠ []) as Hrows
    by (by intros Hnil; rewrite Hnil in Hre).
  rewrite (ref_classify_eq n) in Hcl by done. injection Hcl as <- <-.
  set (q := ref_buffered input s) in *.
  set (predicted := winner (scores (multi_buffered input (by_value s)))) in *.
  assert (predicted < length (MultiPerceptronRef.inputWeights_ s.2)) as Hlt.
  { rewrite <- (length_map (λ r, default [] (MultiPerceptronRef.array_at s.1 r))).
    rewrite <- (length_map (λ row, row_score row (1%float :: input))).
    apply winner_lt. unfold scores. simpl. unfold matrix.
    by intros Hnil%fmap_nil_inv%fmap_nil_inv. }
  destruct (lookup_lt_is_Some_2 _ _ Hlt) as [rp Hrp].
  destruct (proj1 (Forall_lookup _ _) Hall _ _ Hrp) as [predictedRow Hrow_p].
  assert (Z.to_nat expected ≠ predicted) as Hne' by lia.
  assert (re ≠ rp) as Hrefs.
  { intros ->. apply (Hown_p (Z.to_nat expected) Hne'). by rewrite Hre, Hrp. }
  rewrite (ref_train_eq n) by done. cbv zeta.
  change (by_value (ref_buffered input s)) with (multi_buffered input (by_value s)).
  fold q. fold predicted.
  destruct (Z.eqb_spec expected (Z.of_nat predicted)) as [|_]; [done|].
  unfold mbind at 1, js_bind.
  rewrite <- (Z2Nat.id expected) by done.
  rewrite (ref_encourage_eq q (Z.to_nat expected) re expectedRow) by done.
  unfold mbind at 1, js_bind.
  rewrite (ref_punish_eq _ predicted rp predictedRow)
    by (done || (unfold MultiPerceptronRef.array_at; simpl; by rewrite list_lookup_alter_ne)).
  exists predictedRow. eexists. split.
  { unfold MultiPerceptronRef.row_at. rewrite row_ref_nat, Hrp. done. }
  split; [reflexivity|]. split; [done|]. split; [done|].
  unfold MultiPerceptronRef.row_at, MultiPerceptronRef.array_at. rewrite !row_ref_nat. simpl.
  rewrite Nat2Z.id, Hre, Hrp. simpl. split; [|split].
  - rewrite list_lookup_alter_ne, list_lookup_alter_eq by done.
    unfold MultiPerceptronRef.array_at in Hrow_e. by rewrite Hrow_e.
  - rewrite list_lookup_alter_eq, list_lookup_alter_ne by done.
    unfold MultiPerceptronRef.array_at in Hrow_p. by rewrite Hrow_p.
  - intros c Hc1 Hc2. rewrite !row_ref_nat. simpl.
    destruct (MultiPerceptronRef.inputWeights_ s.2 !! c) as [r|] eqn:Hr; [|done]. simpl.
    rewrite !list_lookup_alter_ne; [done| |].
    + intros <-. apply (Hown_e c Hc1). by rewrite Hre, Hr.
    + intros <-. apply (Hown_p c Hc2). by rewrite Hrp, Hr.
Qed.

Lemma train_update_locality_witness :
  let s := MultiPerceptronRef.new 1 3 1 [] in
  ∃ predictedRow s',
    MultiPerceptronRef.row_at s (Z.of_nat 0) = Some predictedRow ∧
    MultiPerceptronRef.train [5%float] 1 s = Return false s' ∧
    MultiPerceptronRef.inputs_ s'.2 = [1; 5]%float ∧
    MultiPerceptronRef.inputWeights_ s'.2 = MultiPerceptronRef.inputWeights_ s.2 ∧
    MultiPerceptronRef.row_at s' 1
    = Some (imap (λ i w, (w + 1 * js_get [1; 5]%float i)%js) [0; 0]%float) ∧
    MultiPerceptronRef.row_at s' (Z.of_nat 0)
    = Some (imap (λ i w, (w - 1 * js_get [1; 5]%float i)%js) predictedRow) ∧
    (∀ c, c ≠ Z.to_nat 1 → c ≠ 0 →
          MultiPerceptronRef.row_at s' (Z.of_nat c) = MultiPerceptronRef.row_at s (Z.of_nat c)).
Proof.
  exact (train_update_locality 1 (MultiPerceptronRef.new 1 3 1 []) [5%float] 1 [0; 0]%float 0
           (ref_buffered [5%float] (MultiPerceptronRef.new 1 3 1 []))
           (ex_intro _ [0%float] (conj eq_refl eq_refl))
           (new_rows_allocated 1 3 1 []) eq_refl eq_refl eq_refl ltac:(lia)
           (rows_distinct_own_row _ 1 (new_rows_distinct 1 3 1 []) ltac:(simpl; lia))
           (rows_distinct_own_row _ 0 (new_rows_distinct 1 3 1 []) ltac:(simpl; lia))).
Defined.

(** [setWeights] stores the rows it is given, the same array twice if the
    caller passes it twice. *)
Lemma setWeights_stores_rows weights s result s' :
  MultiPerceptronRef.setWeights weights s = Return result s' →
  result = weights ∧ MultiPerceptronRef.inputWeights_ s'.2 = weights ∧ s'.1 = s.1.
Proof.
  unfold MultiPerceptronRef.setWeights. destruct (negb _); [done|].
  destruct (_ ≫= _) as [row|]; [|done]. destruct (_ ≫= _) as [row0|]; [|done].
  destruct (negb _); [done|]. by intros [= <- <-].
Qed.

(** With [row = [0, 0]], [p = new MultiPerceptron(1, 2, 1)] and
    [p.setWeights([row, row])], the two classes share one array.
    [p.train([5], 1)] misclassifies, class 0 being predicted; encouraging
    class 1 makes the array [[1, 5]] and punishing class 0 makes it
    [[0, 0]] again: the row of the expected class has not grown. *)
Lemma train_shared_row :
  let row := 0 in
  let s := MultiPerceptronRef.new 1 2 1 [[0; 0]%float] in
  ∃ s1 q s2,
    MultiPerceptronRef.setWeights [row; row] s = Return [row; row] s1 ∧
    ref_wf 1 s1 ∧ rows_allocated s1 ∧
    MultiPerceptronRef.row_at s1 1 = Some [0; 0]%float ∧
    MultiPerceptronRef.classify [5%float] s1 = Return 0 q ∧
    MultiPerceptronRef.train [5%float] 1 s1 = Return false s2 ∧
    MultiPerceptronRef.row_at s2 1 = Some [0; 0]%float ∧
    MultiPerceptronRef.row_at s2 0 = Some [0; 0]%float ∧
    MultiPerceptronRef.row_at s2 1
    ≠ Some (imap (λ i w, (w + 1 * js_get [1; 5]%float i)%js) [0; 0]%float).
Proof.
  cbv zeta. eexists _, _, _.
  split; [reflexivity|]. split; [by exists [0%float]|].
  split; [by repeat constructor|].
  split; [reflexivity|]. split; [reflexivity|]. split; [reflexivity|].
  split; [reflexivity|]. split; [reflexivity|]. vm_compute. discriminate.
Qed.

(** ** [trainSet]: passes, stopping and the value returned (C4) *)

Lemma BinaryPerceptron_train_no_fuel input expected p :
  BinaryPerceptron.train input expected p ≠ OutOfFuel.
Proof.
  unfold BinaryPerceptron.train, mbind, js_bind, gets, modify, throw, mret, js_ret.
  destruct (negb _); [done|]. by destruct (_ == _)%js.
Qed.

Lemma MultiPerceptron_train_no_fuel input expected p :
  MultiPerceptron.train input expected p ≠ OutOfFuel.
Proof.
  unfold MultiPerceptron.train, mbind, js_bind, gets, modify, throw, mret, js_ret.
  destruct (negb _); [done|].
  destruct (MultiPerceptron.getScore_ 0 _) as [s q| |] eqn:Hs; [|done|].
  - pose proof (for_loop_no_fuel MultiPerceptron.scan_example
                  (length (MultiPerceptron.inputWeights_ q) - 1) 1 (s, 0) q) as Hloop.
    destruct (for_loop _ _ _ _ _) as [[m c] q'| |]; [|done|].
    + destruct (_ =? _)%Z; [done|].
      unfold MultiPerceptron.encourageWeights_, MultiPerceptron.punishWeights_.
      destruct (MultiPerceptron.row_at _ expected); [|done].
      by destruct (MultiPerceptron.row_at _ _).
    + exfalso. apply Hloop; [|done]. intros i [m c] q'.
      unfold MultiPerceptron.scan_example, mbind, js_bind, MultiPerceptron.getScore_.
      by destruct (MultiPerceptron.row_at _ _).
  - unfold MultiPerceptron.getScore_ in Hs. by destruct (MultiPerceptron.row_at _ _).
Qed.

Lemma for_loop_returns {St A} (I : St → Prop) (body : nat → A → js St A) count lo acc s :
  (∀ i a s, lo ≤ i < lo + count → I s → ∃ a' s', body i a s = Return a' s' ∧ I s') →
  I s → ∃ a' s', for_loop count lo body acc s = Return a' s' ∧ I s'.
Proof.
  revert lo acc s. induction count as [|count IH]; intros lo acc s Hbody HI; [by eauto|].
  simpl. unfold mbind, js_bind.
  destruct (Hbody lo acc s) as (a' & s' & -> & HI'); [lia|done|].
  apply IH; [|done]. intros i a s0 Hi. apply Hbody. lia.
Qed.

Lemma BinaryPerceptron_train_returns n p input expected :
  neuron_wf n p → length input = n →
  ∃ b p', BinaryPerceptron.train input expected p = Return b p' ∧ neuron_wf n p'.
Proof.
  intros Hwf Hlen. rewrite (BinaryPerceptron_train_eq n) by done. cbv zeta.
  destruct (_ == _)%js; eexists _, _; (split; [done|]).
  - by apply buffered_wf.
  - by apply updated_wf, buffered_wf.
Qed.

Lemma BinaryPerceptron_pass_returns n inputSet expectedSet p :
  Forall (λ input, length input = n) inputSet → neuron_wf n p →
  ∃ nf p', Passes.pass BinaryPerceptron.train false inputSet expectedSet p = Return nf p'
           ∧ neuron_wf n p'.
Proof.
  intros Hin Hwf. apply (for_loop_returns (neuron_wf n)); [|done].
  intros i a s [_ Hi] Hs. unfold Passes.pass_example.
  destruct (lookup_lt_is_Some_2 inputSet i Hi) as [input Hinput]. rewrite Hinput.
  rewrite Forall_lookup in Hin. specialize (Hin _ _ Hinput).
  destruct (BinaryPerceptron_train_returns n s input (default false (expectedSet !! i)))
    as (b & s' & Ht & Hs'); [done..|].
  unfold mbind, js_bind. rewrite Ht. by eexists _, _.
Qed.

Lemma MultiPerceptron_train_returns n c p input (expected : Z) :
  multi_shape n c p → length input = n → (0 ≤ expected < Z.of_nat c)%Z →
  ∃ b p', MultiPerceptron.train input expected p = Return b p' ∧ multi_shape n c p'.
Proof.
  intros [Hwf Hc] Hlen Hexp.
  assert (MultiPerceptron.inputWeights_ p ≠ []) as Hrows.
  { intros Hnil. rewrite Hnil in Hc. simpl in Hc. lia. }
  rewrite (multi_train_eq n) by done. cbv zeta.
  set (q := multi_buffered input p). set (predicted := winner (scores q)).
  assert (multi_wf n q) as Hq by (by exists input).
  destruct (Z.eqb_spec expected (Z.of_nat predicted)) as [|Hne]; [by eexists _, _|].
  assert (predicted < length (MultiPerceptron.inputWeights_ p)) as Hlt.
  { unfold predicted, scores.
    rewrite <- (length_map (λ row, row_score row (MultiPerceptron.inputs_ q))).
    apply winner_lt. simpl. by destruct (MultiPerceptron.inputWeights_ p). }
  destruct (lookup_lt_is_Some_2 (MultiPerceptron.inputWeights_ p) (Z.to_nat expected))
    as [expectedRow He]; [lia|].
  destruct (lookup_lt_is_Some_2 _ _ Hlt) as [predictedRow Hp].
  unfold mbind at 1, js_bind. rewrite <- (Z2Nat.id expected) by lia.
  rewrite (multi_encourage_eq q (Z.to_nat expected) expectedRow) by done.
  unfold mbind at 1, js_bind.
  rewrite (multi_punish_eq _ predicted predictedRow)
    by (simpl; rewrite list_lookup_alter_ne; [done|lia]).
  eexists _, _. split; [done|]. split; [by exists input|].
  simpl. by rewrite !length_alter.
Qed.

Lemma MultiPerceptron_pass_returns n c inputSet expectedSet p :
  length inputSet = length expectedSet →
  Forall (λ input, length input = n) inputSet →
  Forall (λ e, 0 ≤ e < Z.of_nat c)%Z expectedSet →
  multi_shape n c p →
  ∃ nf p', Passes.pass MultiPerceptron.train (-1)%Z inputSet expectedSet p = Return nf p'
           ∧ multi_shape n c p'.
Proof.
  intros Hlen Hin Hex Hwf. apply (for_loop_returns (multi_shape n c)); [|done].
  intros i a s [_ Hi] Hs. unfold Passes.pass_example.
  destruct (lookup_lt_is_Some_2 inputSet i Hi) as [input Hinput]. rewrite Hinput.
  destruct (lookup_lt_is_Some_2 expectedSet i) as [e He]; [lia|]. rewrite He. simpl.
  rewrite Forall_lookup in Hin. specialize (Hin _ _ Hinput).
  rewrite Forall_lookup in Hex. specialize (Hex _ _ He).
  destruct (MultiPerceptron_train_returns n c s input e) as (b & s' & Ht & Hs'); [done..|].
  unfold mbind, js_bind. rewrite Ht. by eexists _, _.
Qed.

Lemma pass_trainSet_returns {St E W} (train : list float → E → js St bool) (no_expected : E)
    inputSet expectedSet maxIterations (f : Z → Z → Z → W → W) (I : St → Prop) p (w : W) :
  length inputSet = length expectedSet →
  (∀ p, I p →
        ∃ nf p', Passes.pass train no_expected inputSet expectedSet p = Return nf p' ∧ I p') →
  I p →
  ∃ b p' w', Passes.pass_trainSet train no_expected inputSet expectedSet maxIterations (Some f)
               (Z.to_nat maxIterations) (p, w) = Return b (p', w') ∧ I p'.
Proof.
  intros Hlen Hpass HI. unfold Passes.pass_trainSet, mbind, js_bind. rewrite Hlen, Nat.eqb_refl.
  change (negb true) with false. cbv beta iota.
  destruct (pass_while_returns train no_expected inputSet expectedSet maxIterations (Some f)
              I f (Z.to_nat maxIterations) (-1)%Z 0%Z p w Hpass eq_refl HI)
    as (it & p' & w' & Hw & HI'); [lia|].
  rewrite Hw. by eexists _, _, _.
Qed.

Lemma pass_trainSet_no_fuel {St E W} (train : list float → E → js St bool) (no_expected : E)
    inputSet expectedSet maxIterations (callback : callback_fn W) s :
  (∀ input expected s, train input expected s ≠ OutOfFuel) →
  Passes.pass_trainSet train no_expected inputSet expectedSet maxIterations callback
    (Z.to_nat maxIterations) s ≠ OutOfFuel.
Proof.
  intros Htrain. unfold Passes.pass_trainSet. destruct (negb _); [done|].
  unfold mbind, js_bind.
  pose proof (pass_while_no_fuel train no_expected inputSet expectedSet maxIterations callback
                Htrain (Z.to_nat maxIterations) (-1)%Z 0%Z s) as Hw.
  destruct (Passes.pass_while _ _ _ _ _ _ _ _ _ _); [done|done|].
  exfalso. apply Hw; [lia|done].
Qed.

(** C4, as amended.  For every pair of sets of equal length and every
    maxIterations >= 0, a [trainSet] call of [BinaryPerceptron] or
    [MultiPerceptron] never runs short of fuel, and whenever it returns it
    has executed full passes, stopped at the first pass without failure
    or after maxIterations passes, and returns true exactly when a pass
    without failure was reached strictly before the budget was used up.
    It does return when a callback is passed, every input has the length
    inputDimension and, for the multi-class perceptron, every expected
    class is the index of a class. *)
Theorem trainSet_stops_as_specified {W} (w : W) (callback : callback_fn W)
    (f : Z → Z → Z → W → W) (n c : nat) (p : neuron) (m : MultiPerceptron.t)
    (inputSet : list (list float)) (expectedSet : list bool) (expectedClasses : list Z)
    (maxIterations : Z) :
  (0 ≤ maxIterations)%Z →
  length inputSet = length expectedSet → length inputSet = length expectedClasses →
  (BinaryPerceptron.trainSet inputSet expectedSet maxIterations callback (p, w) ≠ OutOfFuel ∧
   ∀ b p' w',
     BinaryPerceptron.trainSet inputSet expectedSet maxIterations callback (p, w)
     = Return b (p', w') →
     Passes.stops_as_specified BinaryPerceptron.train false inputSet expectedSet maxIterations
       p b p') ∧
  (MultiPerceptron.trainSet inputSet expectedClasses maxIterations callback (m, w) ≠ OutOfFuel ∧
   ∀ b m' w',
     MultiPerceptron.trainSet inputSet expectedClasses maxIterations callback (m, w)
     = Return b (m', w') →
     Passes.stops_as_specified MultiPerceptron.train (-1)%Z inputSet expectedClasses maxIterations
       m b m') ∧
  (neuron_wf n p → Forall (λ input, length input = n) inputSet →
   ∃ b p' w', BinaryPerceptron.trainSet inputSet expectedSet maxIterations (Some f) (p, w)
              = Return b (p', w')) ∧
  (multi_shape n c m → Forall (λ input, length input = n) inputSet →
   Forall (λ e, 0 ≤ e < Z.of_nat c)%Z expectedClasses →
   ∃ b m' w', MultiPerceptron.trainSet inputSet expectedClasses maxIterations (Some f) (m, w)
              = Return b (m', w')).
Proof.
  intros Hmax Hlen Hlen'. unfold BinaryPerceptron.trainSet, MultiPerceptron.trainSet.
  split; [|split; [|split]].
  - rewrite BinaryPerceptron_trainSet_fuel_eq. split.
    + apply pass_trainSet_no_fuel, BinaryPerceptron_train_no_fuel.
    + intros b p' w'. by apply pass_trainSet_stops.
  - rewrite MultiPerceptron_trainSet_fuel_eq. split.
    + apply pass_trainSet_no_fuel, MultiPerceptron_train_no_fuel.
    + intros b m' w'. by apply pass_trainSet_stops.
  - intros Hwf Hin. rewrite BinaryPerceptron_trainSet_fuel_eq.
    destruct (pass_trainSet_returns BinaryPerceptron.train false inputSet expectedSet
                maxIterations f (neuron_wf n) p w Hlen) as (b & p' & w' & Hr & _);
      [|done|eauto].
    intros p0 Hp0. by apply BinaryPerceptron_pass_returns.
  - intros Hwf Hin Hex. rewrite MultiPerceptron_trainSet_fuel_eq.
    destruct (pass_trainSet_returns MultiPerceptron.train (-1)%Z inputSet expectedClasses
                maxIterations f (multi_shape n c) m w Hlen') as (b & p' & w' & Hr & _);
      [|done|eauto].
    intros p0 Hp0. by apply MultiPerceptron_pass_returns.
Qed.

(** C4 does not hold for a negative budget: the call returns true
    although no pass was executed at all, so that no pass without failure
    was reached. *)
Lemma trainSet_negative_budget :
  let p := BinaryPerceptron.new 1 1 0 in
  let log : callback_fn (list (Z * Z * Z)) := Some (λ a b c l, l ++ [(a, b, c)]) in
  BinaryPerceptron.trainSet [[1%float]] [true] (-1) log (p, []) = Return true (p, []) ∧
  ¬ Passes.converged_within BinaryPerceptron.train false [[1%float]] [true] (-1) p.
Proof.
  split; [reflexivity|]. intros (nfs & p' & k & _ & _ & Hk). lia.
Qed.

Lemma trainSet_stops_as_specified_witness :
  let log : callback_fn (list (Z * Z * Z)) := Some (λ a b c l, l ++ [(a, b, c)]) in
  let p := BinaryPerceptron.new 1 1 0 in
  let m := MultiPerceptron.new 1 2 1 in
  let inputSet := [[1%float]; [(-3)%float]] in
  (BinaryPerceptron.trainSet inputSet [true; true] 4 log (p, []) ≠ OutOfFuel ∧
   ∀ b p' w',
     BinaryPerceptron.trainSet inputSet [true; true] 4 log (p, []) = Return b (p', w') →
     Passes.stops_as_specified BinaryPerceptron.train false inputSet [true; true] 4 p b p') ∧
  (MultiPerceptron.trainSet inputSet [1%Z; 0%Z] 4 log (m, []) ≠ OutOfFuel ∧
   ∀ b m' w',
     MultiPerceptron.trainSet inputSet [1%Z; 0%Z] 4 log (m, []) = Return b (m', w') →
     Passes.stops_as_specified MultiPerceptron.train (-1)%Z inputSet [1%Z; 0%Z] 4 m b m') ∧
  (∃ b p' w', BinaryPerceptron.trainSet inputSet [true; true] 4 log (p, [])
              = Return b (p', w')) ∧
  (∃ b m' w', MultiPerceptron.trainSet inputSet [1%Z; 0%Z] 4 log (m, [])
              = Return b (m', w')).
Proof.
  cbv zeta.
  pose proof (trainSet_stops_as_specified []
                (Some (λ a b c l, l ++ [(a, b, c)])) (λ a b c l, l ++ [(a, b, c)]) 1 2
                (BinaryPerceptron.new 1 1 0) (MultiPerceptron.new 1 2 1)
                [[1%float]; [(-3)%float]] [true; true] [1%Z; 0%Z] 4
                ltac:(lia) eq_refl eq_refl) as (HB & HM & HBr & HMr).
  split; [exact HB|]. split; [exact HM|]. split.
  - apply HBr; [exists [0%float]; repeat split; reflexivity|]. repeat constructor.
  - apply HMr.
    + split; [exists [0%float]; split; reflexivity|reflexivity].
    + repeat constructor.
    + repeat constructor; lia.
Defined.

(** ** The callback of [trainSet] (C3) *)

Lemma reported_log (inputSet : list (list float)) (iteration : Z) (nfs : list Z)
    (l : list (Z * Z * Z)) :
  Passes.reported inputSet (λ a b c l, l ++ [(a, b, c)]) iteration nfs l
  = l ++ imap (λ k nf, (nf, Z.of_nat (length inputSet), iteration + Z.of_nat k)%Z) nfs.
Proof.
  revert iteration l. induction nfs as [|nf nfs IH]; intros it l; simpl.
  - by rewrite app_nil_r.
  - rewrite IH, <- app_assoc. simpl. rewrite Z.add_0_r. do 2 f_equal.
    apply imap_ext. intros k x _. simpl. f_equal. lia.
Qed.

(** With a callback, a call that returns has called it once after each
    executed pass, with that pass's failure count, the size of the set,
    and the index of the pass counted from zero. *)
Lemma trainSet_callback_log inputSet expectedSet expectedClasses maxIterations
    (p p' : neuron) (m m' : MultiPerceptron.t) (l : list (Z * Z * Z)) (b : bool) :
  let log : callback_fn (list (Z * Z * Z)) := Some (λ a b c l, l ++ [(a, b, c)]) in
  (BinaryPerceptron.trainSet inputSet expectedSet maxIterations log (p, []) = Return b (p', l) →
   ∃ nfs, Passes.passes BinaryPerceptron.train false inputSet expectedSet p nfs p' ∧
          l = imap (λ k nf, (nf, Z.of_nat (length inputSet), Z.of_nat k)) nfs) ∧
  (MultiPerceptron.trainSet inputSet expectedClasses maxIterations log (m, []) = Return b (m', l) →
   ∃ nfs, Passes.passes MultiPerceptron.train (-1)%Z inputSet expectedClasses m nfs m' ∧
          l = imap (λ k nf, (nf, Z.of_nat (length inputSet), Z.of_nat k)) nfs).
Proof.
  cbv zeta. unfold BinaryPerceptron.trainSet, MultiPerceptron.trainSet. split.
  - rewrite BinaryPerceptron_trainSet_fuel_eq.
    intros (nfs & Hps & _ & _ & ->)%pass_trainSet_Return. exists nfs. split; [done|].
    by rewrite reported_log.
  - rewrite MultiPerceptron_trainSet_fuel_eq.
    intros (nfs & Hps & _ & _ & ->)%pass_trainSet_Return. exists nfs. split; [done|].
    by rewrite reported_log.
Qed.

(** Without a callback the first executed pass ends in a [TypeError]:
    [callback(...)] calls [undefined].  The weights keep what the pass
    did to them. *)
Lemma pass_trainSet_without_callback {St E W} (train : list float → E → js St bool)
    (no_expected : E) inputSet expectedSet maxIterations p nf p1 (w : W) :
  length inputSet = length expectedSet → (1 ≤ maxIterations)%Z →
  Passes.pass train no_expected inputSet expectedSet p = Return nf p1 →
  Passes.pass_trainSet train no_expected inputSet expectedSet maxIterations None
    (Z.to_nat maxIterations) (p, w) = Throw TypeError (p1, w).
Proof.
  intros Hlen Hmax Hpass. unfold Passes.pass_trainSet, mbind, js_bind. rewrite Hlen, Nat.eqb_refl.
  change (negb true) with false. cbv beta iota.
  destruct (Z.to_nat maxIterations) as [|fuel] eqn:Hfuel; [lia|]. simpl.
  destruct (Z.ltb_spec 0 maxIterations); [|lia]. simpl.
  unfold mbind, js_bind, this. by rewrite Hpass.
Qed.

(** C3.  [trainSet] called as its documentation describes it, with three
    arguments and no callback, does not complete: after the first pass it
    throws a [TypeError], in both classes, and the weights have already
    been changed by that pass. *)
Theorem trainSet_without_callback_throws :
  BinaryPerceptron.trainSet [[1%float]] [true] 1 None (BinaryPerceptron.new 1 1 0, tt)
  = Throw TypeError (Neuron [1; 1]%float [1; 1]%float 1 0, tt) ∧
  MultiPerceptron.trainSet [[5%float]] [1%Z] 1 None (MultiPerceptron.new 1 2 1, tt)
  = Throw TypeError
      (MultiPerceptron.Multi [1; 5]%float [[-1; -5]; [1; 5]]%float 1, tt).
Proof. split; reflexivity. Qed.

(** ** [Perceptron.trainSet] against [BinaryPerceptron.trainSet] (C1) *)

Lemma Perceptron_trainSet_while_no_fuel inputSet expectedSet maxIterations fuel
    allPassed iteration p :
  Z.to_nat (maxIterations - iteration) ≤ fuel →
  Perceptron.trainSet_while inputSet expectedSet maxIterations fuel allPassed iteration p
  ≠ OutOfFuel.
Proof.
  revert allPassed iteration p.
  induction fuel as [|fuel IH]; intros allPassed it p Hfuel; simpl.
  - destruct (Z.ltb_spec it maxIterations); [lia|]. by rewrite andb_false_r.
  - destruct (negb allPassed && (it <? maxIterations)%Z) eqn:Hc; [|done].
    apply andb_true_iff in Hc as [_ Hlt%Z.ltb_lt]. unfold mbind, js_bind.
    pose proof (for_loop_no_fuel (Perceptron.trainSet_example inputSet expectedSet)
                  (length inputSet) 0 true p) as Hloop.
    destruct (for_loop _ _ _ _ _) as [a p'| |]; [apply IH; lia|done|].
    exfalso. apply Hloop; [|done]. intros i a s. unfold Perceptron.trainSet_example.
    destruct a; [|done]. destruct (inputSet !! i); [|done].
    apply BinaryPerceptron_train_no_fuel.
Qed.

Lemma Perceptron_trainSet_no_fuel inputSet expectedSet maxIterations p :
  Perceptron.trainSet inputSet expectedSet maxIterations p ≠ OutOfFuel.
Proof.
  unfold Perceptron.trainSet, Perceptron.trainSet_fuel. destruct (negb _); [done|].
  unfold mbind, js_bind.
  pose proof (Perceptron_trainSet_while_no_fuel inputSet expectedSet maxIterations
                (Z.to_nat maxIterations) false 0%Z p) as Hw.
  destruct (Perceptron.trainSet_while _ _ _ _ _ _ _); [done|done|].
  exfalso. apply Hw; [lia|done].
Qed.

(** C1.  On the two examples ([1], true) and ([-3], true), from fresh
    perceptrons with learning rate 1 and threshold 0, the two classes
    part ways.  In the first pass the first example fails;
    [allPassed && this.train(...)] then no longer calls [train], so
    [Perceptron] skips the second example, which [BinaryPerceptron]
    trains on.  With a budget of one pass the final weights differ; with
    a budget of four passes [BinaryPerceptron] reports convergence and
    [Perceptron] does not. *)
Theorem canonical_trainSet_skips_examples :
  let inputSet := [[1%float]; [(-3)%float]] in
  let expectedSet := [true; true] in
  let log : callback_fn (list (Z * Z * Z)) := Some (λ a b c l, l ++ [(a, b, c)]) in
  BinaryPerceptron.trainSet inputSet expectedSet 1 log (BinaryPerceptron.new 1 1 0, [])
  = Return false (Neuron [1; -3]%float [2; -2]%float 1 0, [(2, 2, 0)%Z]) ∧
  Perceptron.trainSet inputSet expectedSet 1 (Perceptron.new 1 1 0)
  = Return false (Neuron [1; 1]%float [1; 1]%float 1 0) ∧
  BinaryPerceptron.trainSet inputSet expectedSet 4 log (BinaryPerceptron.new 1 1 0, [])
  = Return true (Neuron [1; -3]%float [3; -1]%float 1 0,
                 [(2, 2, 0); (1, 2, 1); (0, 2, 2)]%Z) ∧
  Perceptron.trainSet inputSet expectedSet 4 (Perceptron.new 1 1 0)
  = Return false (Neuron [1; -3]%float [3; -1]%float 1 0).
Proof. repeat split; reflexivity. Qed.

(** ** [MultiPerceptron.setWeights] (C2) *)

(** A matrix with another number of rows is refused. *)
Lemma setWeights_row_count weights p :
  length weights ≠ length (MultiPerceptron.inputWeights_ p) →
  MultiPerceptron.setWeights weights p = Throw CannotChangeWeightDimension p.
Proof. intros Hlen. unfold MultiPerceptron.setWeights. by rewrite (length_neq_eqb _ _ Hlen). Qed.

(** So is one whose row 0 has another length than the stored row 0. *)
Lemma setWeights_first_row row weights row0 rows learningRate buffer :
  length weights = length rows → length row ≠ length row0 →
  MultiPerceptron.setWeights (row :: weights) (MultiPerceptron.Multi buffer (row0 :: rows) learningRate)
  = Throw CannotChangeWeightDimension (MultiPerceptron.Multi buffer (row0 :: rows) learningRate).
Proof.
  intros Hlen Hrow. unfold MultiPerceptron.setWeights. simpl.
  by rewrite Hlen, Nat.eqb_refl, (length_neq_eqb _ _ Hrow).
Qed.

(** A matrix of the stored shape replaces the stored one, and
    [getWeights] then returns it. *)
Lemma setWeights_replaces n c weights p :
  multi_shape n c p → Forall (λ row, length row = S n) (MultiPerceptron.inputWeights_ p) →
  (1 ≤ c) → length weights = c → Forall (λ row, length row = S n) weights →
  ∃ p', MultiPerceptron.setWeights weights p = Return weights p' ∧
        MultiPerceptron.getWeights p' = Return weights p' ∧
        multi_shape n c p'.
Proof.
  intros [Hwf Hc] Hrows Hpos Hlen Hweights. unfold MultiPerceptron.setWeights.
  rewrite Hlen, Hc, Nat.eqb_refl. simpl.
  destruct weights as [|row weights]; [simpl in Hlen; lia|].
  destruct (MultiPerceptron.inputWeights_ p) as [|row0 rows] eqn:Hw; [simpl in Hc; lia|].
  simpl. apply Forall_cons in Hrows as [-> _]. apply Forall_cons in Hweights as [-> _].
  rewrite Nat.eqb_refl. simpl. eexists. split; [done|]. split; [done|].
  split; [|done]. destruct Hwf as (r & Hin & Hr). by exists r.
Qed.

(** C2.  The shape check measures row 0 only.  For inputDimension 1 and
    classCount 2 the matrix [[0, 0], [0]], whose second row has length 1
    and not 2, is accepted and stored, where the specification demands
    a DimensionMismatch error and unchanged weights. *)
Theorem setWeights_accepts_ragged_matrix :
  let p := MultiPerceptron.new 1 2 1 in
  let weights := [[0; 0]; [0]]%float in
  MultiPerceptron.inputWeights_ p = [[0; 0]; [0; 0]]%float ∧
  MultiPerceptron.setWeights weights p
  = Return weights (MultiPerceptron.Multi [1; 0]%float weights 1).
Proof. split; reflexivity. Qed.

(** ** A pass trains on every example, in order *)

Lemma for_loop_train_each {St E} (train : list float → E → js St bool) (no_expected : E)
    (inputs pre_i : list (list float)) (expecteds pre_e : list E) (numberFailed : Z) (s : St) :
  length pre_i = length pre_e → length inputs = length expecteds →
  for_loop (length inputs) (length pre_i)
    (Passes.pass_example train no_expected (pre_i ++ inputs) (pre_e ++ expecteds)) numberFailed s
  = train_each train (zip inputs expecteds) numberFailed s.
Proof.
  revert expecteds pre_i pre_e numberFailed s.
  induction inputs as [|input inputs IH]; intros expecteds pre_i pre_e nf s Hpre Hlen.
  - by destruct expecteds.
  - destruct expecteds as [|expected expecteds]; [done|]. simpl in Hlen.
    cbn [length for_loop zip zip_with train_each]. unfold mbind, js_bind.
    unfold Passes.pass_example at 1. rewrite list_lookup_middle by done.
    rewrite Hpre, list_lookup_middle by done. simpl. unfold mbind, js_bind.
    destruct (train input expected s) as [passed s'| |]; [|done|done].
    unfold mret, js_ret.
    replace (pre_i ++ input :: inputs) with ((pre_i ++ [input]) ++ inputs)
      by (by rewrite <- app_assoc).
    replace (pre_e ++ expected :: expecteds) with ((pre_e ++ [expected]) ++ expecteds)
      by (by rewrite <- app_assoc).
    replace (S (length pre_e)) with (length (pre_i ++ [input]))
      by (rewrite length_app; simpl; lia).
    apply IH; [|lia]. rewrite !length_app. simpl. lia.
Qed.

Lemma pass_train_each {St E} (train : list float → E → js St bool) (no_expected : E)
    inputSet expectedSet (s : St) :
  length inputSet = length expectedSet →
  Passes.pass train no_expected inputSet expectedSet s
  = train_each train (zip inputSet expectedSet) 0%Z s.
Proof. intros Hlen. exact (for_loop_train_each train no_expected inputSet [] expectedSet [] 0%Z s eq_refl Hlen). Qed.

(** ** Fuel beyond the budget changes nothing *)

Lemma BinaryPerceptron_trainSet_fuel_enough {W} inputSet expectedSet maxIterations
    (callback : callback_fn W) fuel s :
  Z.to_nat maxIterations ≤ fuel →
  BinaryPerceptron.trainSet_fuel inputSet expectedSet maxIterations callback fuel s
  = BinaryPerceptron.trainSet inputSet expectedSet maxIterations callback s.
Proof.
  intros Hfuel. unfold BinaryPerceptron.trainSet.
  rewrite !BinaryPerceptron_trainSet_fuel_eq. unfold Passes.pass_trainSet.
  destruct (negb _); [done|]. unfold mbind, js_bind.
  by rewrite (pass_while_fuel_irrelevant BinaryPerceptron.train false inputSet expectedSet
                maxIterations callback fuel (Z.to_nat maxIterations)) by lia.
Qed.

Lemma MultiPerceptron_trainSet_fuel_enough {W} inputSet expectedSet maxIterations
    (callback : callback_fn W) fuel s :
  Z.to_nat maxIterations ≤ fuel →
  MultiPerceptron.trainSet_fuel inputSet expectedSet maxIterations callback fuel s
  = MultiPerceptron.trainSet inputSet expectedSet maxIterations callback s.
Proof.
  intros Hfuel. unfold MultiPerceptron.trainSet.
  rewrite !MultiPerceptron_trainSet_fuel_eq. unfold Passes.pass_trainSet.
  destruct (negb _); [done|]. unfold mbind, js_bind.
  by rewrite (pass_while_fuel_irrelevant MultiPerceptron.train (-1)%Z inputSet expectedSet
                maxIterations callback fuel (Z.to_nat maxIterations)) by lia.
Qed.

Lemma Perceptron_trainSet_while_fuel_irrelevant inputSet expectedSet maxIterations
    fuel fuel' allPassed iteration p :
  Z.to_nat (maxIterations - iteration) ≤ fuel →
  Z.to_nat (maxIterations - iteration) ≤ fuel' →
  Perceptron.trainSet_while inputSet expectedSet maxIterations fuel allPassed iteration p
  = Perceptron.trainSet_while inputSet expectedSet maxIterations fuel' allPassed iteration p.
Proof.
  revert fuel' allPassed iteration p.
  induction fuel as [|fuel IH]; intros fuel' allPassed it p Hfuel Hfuel'.
  - assert (maxIterations ≤ it)%Z as Hge by lia.
    destruct fuel'; simpl; destruct (Z.ltb_spec it maxIterations); try lia;
      by rewrite andb_false_r.
  - destruct fuel' as [|fuel'].
    + assert (maxIterations ≤ it)%Z as Hge by lia.
      simpl; destruct (Z.ltb_spec it maxIterations); try lia; by rewrite andb_false_r.
    + simpl. destruct (negb allPassed && (it <? maxIterations)%Z) eqn:Hc; [|done].
      apply andb_true_iff in Hc as [_ Hlt%Z.ltb_lt].
      unfold mbind, js_bind. destruct (for_loop _ _ _ _ _) as [a p'| |]; [|done|done].
      apply IH; lia.
Qed.

Lemma Perceptron_trainSet_fuel_enough inputSet expectedSet maxIterations fuel p :
  Z.to_nat maxIterations ≤ fuel →
  Perceptron.trainSet_fuel inputSet expectedSet maxIterations fuel p
  = Perceptron.trainSet inputSet expectedSet maxIterations p.
Proof.
  intros Hfuel. unfold Perceptron.trainSet, Perceptron.trainSet_fuel.
  destruct (negb _); [done|]. unfold mbind, js_bind.
  by rewrite (Perceptron_trainSet_while_fuel_irrelevant inputSet expectedSet maxIterations
                fuel (Z.to_nat maxIterations)) by lia.
Qed.

(** ** The shape of a perceptron is kept by its methods *)

Lemma BinaryPerceptron_train_wf n p input expected b p' :
  neuron_wf n p → BinaryPerceptron.train input expected p = Return b p' → neuron_wf n p'.
Proof.
  intros Hwf. destruct (decide (length input = n)) as [Hlen|Hlen].
  - destruct (BinaryPerceptron_train_returns n p input expected Hwf Hlen) as (b0 & p0 & -> & Hp0).
    by intros [= _ <-].
  - by rewrite (BinaryPerceptron_train_throws n).
Qed.

Lemma BinaryPerceptron_classify_wf n p input b p' :
  neuron_wf n p → BinaryPerceptron.classify input p = Return b p' → neuron_wf n p'.
Proof.
  intros Hwf. destruct (decide (length input = n)) as [Hlen|Hlen].
  - rewrite (BinaryPerceptron_classify_eq n) by done. intros [= _ <-]. by apply buffered_wf.
  - by rewrite (BinaryPerceptron_classify_throws n).
Qed.

Lemma BinaryPerceptron_setWeights_wf n p weights ws p' :
  neuron_wf n p → BinaryPerceptron.setWeights weights p = Return ws p' → neuron_wf n p'.
Proof.
  intros (r & Hin & Hr & Hw). unfold BinaryPerceptron.setWeights, mbind, js_bind, gets.
  destruct (Nat.eqb_spec (length weights) (length (inputWeights_ p))) as [Heq|]; [|done].
  simpl. intros [= _ <-]. exists r. simpl. split; [done|]. split; [done|]. congruence.
Qed.

Lemma MultiPerceptron_new_shape (d c : Z) learningRate :
  (0 ≤ d)%Z →
  multi_shape (Z.to_nat d) (Z.to_nat c) (MultiPerceptron.new d c learningRate) ∧
  Forall (λ row, length row = S (Z.to_nat d))
         (MultiPerceptron.inputWeights_ (MultiPerceptron.new d c learningRate)).
Proof.
  intros Hd. split; [split|].
  - by apply MultiPerceptron_new_wf.
  - simpl. by rewrite length_replicate.
  - simpl. apply Forall_replicate. rewrite length_replicate. lia.
Qed.

(** * Further properties of the code

    What the three classes do beyond the statements of the
    specification: how [train], [classify] and the weight accessors
    compose, what a result of [trainSet] says of the perceptron it
    leaves, how the calls end on the inputs at the edge, and what no
    call changes. *)

(** ** More on numbers: zero weights *)

Lemma mul_zero_any x : (0 * x = 0 ∨ 0 * x = -0 ∨ 0 * x = nan)%float.
Proof.
  pose proof (mul_spec 0 x) as Hmul.
  rewrite <- (SF2Prim_Prim2SF (0 * x)), Hmul.
  destruct (Prim2SF x) as [s|s| |s m e].
  - destruct s; [right; left|left]; reflexivity.
  - right; right; reflexivity.
  - right; right; reflexivity.
  - destruct s; [right; left|left]; reflexivity.
Qed.

Lemma nan_add y : (nan + y)%float = nan.
Proof.
  pose proof (add_spec nan y) as Hadd.
  rewrite <- (SF2Prim_Prim2SF (nan + y)), Hadd.
  change (Prim2SF nan) with S754_nan. reflexivity.
Qed.

Lemma gt_nan x : (nan > x)%js = false.
Proof. rewrite ltb_spec. change (Prim2SF nan) with S754_nan. by destruct (Prim2SF x). Qed.

Lemma zero_score_step acc x :
  acc = 0%float ∨ acc = nan → (acc + 0 * x)%js = 0%float ∨ (acc + 0 * x)%js = nan.
Proof.
  intros [->| ->]; [|right; apply nan_add].
  destruct (mul_zero_any x) as [->|[->| ->]]; [left|left|right]; reflexivity.
Qed.

Lemma foldl_zero_weights (xs : list float) (k : nat) (acc : float) :
  acc = 0%float ∨ acc = nan →
  let score := foldl (λ score wx, (score + wx.1 * wx.2)%js) acc (zip (replicate k 0%float) xs) in
  score = 0%float ∨ score = nan.
Proof.
  revert k acc. induction xs as [|x xs IH]; intros [|k] acc Hacc; simpl; try done.
  apply IH. by apply zero_score_step.
Qed.

Lemma dot_zero_weights_any (xs : list float) (k : nat) :
  dot (replicate k 0%float) xs = 0%float ∨ dot (replicate k 0%float) xs = nan.
Proof. apply foldl_zero_weights. by left. Qed.

(** ** Binary perceptrons: what [classify] reads and what it leaves *)

Lemma buffered_score n p input :
  neuron_wf n p → length input = n →
  BinaryPerceptron.getScore_ (buffered input p) = dot (inputWeights_ p) (1%float :: input).
Proof.
  intros Hwf Hlen. rewrite getScore_dot; [done|].
  pose proof (buffered_wf _ _ _ Hwf Hlen) as (r & Hin & Hr & Hw). rewrite Hw, Hin. simpl. lia.
Qed.

(** X1.  For a binary perceptron of input dimension n and every input of
    length n, [classify] returns whether the dot product of the weights
    with the buffered input (1.0, then the input) exceeds the threshold.
    It overwrites the input buffer and nothing else: the weights, the
    learning rate and the threshold are those it found, so that
    classifying the same input again gives the same answer and leaves the
    same state.  [Perceptron.classify] is the same function. *)
Theorem classify_reads_weights_only (n : nat) (p : neuron) (input : list float) :
  neuron_wf n p → length input = n →
  ∃ q, BinaryPerceptron.classify input p
       = Return (dot (inputWeights_ p) (1%float :: input) > threshold_ p)%js q ∧
       Perceptron.classify input p = BinaryPerceptron.classify input p ∧
       inputs_ q = 1%float :: input ∧
       inputWeights_ q = inputWeights_ p ∧
       learningRate_ q = learningRate_ p ∧
       threshold_ q = threshold_ p ∧
       BinaryPerceptron.classify input q = BinaryPerceptron.classify input p.
Proof.
  intros Hwf Hlen. exists (buffered input p). rewrite Perceptron_classify_eq.
  rewrite (BinaryPerceptron_classify_eq n p) by done.
  rewrite (BinaryPerceptron_classify_eq n (buffered input p)) by (done || by apply buffered_wf).
  change (buffered input (buffered input p)) with (buffered input p).
  rewrite (buffered_score n p input) by done. done.
Qed.

Lemma classify_reads_weights_only_witness :
  ∃ q, BinaryPerceptron.classify [2; 3]%float (Neuron [1; 7; 7]%float [-4; 1; 1]%float 1 0.5)
       = Return (dot [-4; 1; 1]%float [1; 2; 3]%float > 0.5)%js q ∧
       Perceptron.classify [2; 3]%float (Neuron [1; 7; 7]%float [-4; 1; 1]%float 1 0.5)
       = BinaryPerceptron.classify [2; 3]%float (Neuron [1; 7; 7]%float [-4; 1; 1]%float 1 0.5) ∧
       inputs_ q = [1; 2; 3]%float ∧
       inputWeights_ q = [-4; 1; 1]%float ∧
       learningRate_ q = 1%float ∧
       threshold_ q = 0.5%float ∧
       BinaryPerceptron.classify [2; 3]%float q
       = BinaryPerceptron.classify [2; 3]%float (Neuron [1; 7; 7]%float [-4; 1; 1]%float 1 0.5).
Proof.
  exact (classify_reads_weights_only 2 (Neuron [1; 7; 7]%float [-4; 1; 1]%float 1 0.5) [2; 3]%float
           (ex_intro _ [7; 7]%float (conj eq_refl (conj eq_refl eq_refl))) eq_refl).
Defined.

(** ** [train] against [classify] *)

Lemma expected_eq_result (expected c : bool) :
  ((if expected then 1%float else 0%float) == (if c then 1%float else 0%float))%js
  = Bool.eqb c expected.
Proof. by destruct expected, c. Qed.

(** X2.  On an input of length n, binary [train] returns true exactly
    when [classify], on the same state, returns the expected class; it
    then leaves the state [classify] leaves, from which [classify]
    returns the expected class again.  [Perceptron.train] does the
    same. *)
Theorem train_agrees_with_classify (n : nat) (p : neuron) (input : list float) (expected : bool) :
  neuron_wf n p → length input = n →
  ∃ c q p',
    BinaryPerceptron.classify input p = Return c q ∧
    BinaryPerceptron.train input expected p = Return (Bool.eqb c expected) p' ∧
    Perceptron.train input expected p = Return (Bool.eqb c expected) p' ∧
    (c = expected → p' = q ∧ BinaryPerceptron.classify input p' = Return expected p').
Proof.
  intros Hwf Hlen. rewrite Perceptron_train_eq.
  rewrite (BinaryPerceptron_classify_eq n), (BinaryPerceptron_train_eq n) by done. cbv zeta.
  rewrite expected_eq_result.
  set (c := (BinaryPerceptron.getScore_ (buffered input p) > threshold_ p)%js).
  exists c, (buffered input p).
  destruct (Bool.eqb c expected) eqn:Heq.
  - exists (buffered input p). split; [done|]. split; [done|]. split; [done|].
    intros <-. split; [done|].
    by rewrite (BinaryPerceptron_classify_eq n) by (done || by apply buffered_wf).
  - eexists. split; [done|]. split; [done|]. split; [done|].
    intros ->. by rewrite Bool.eqb_reflx in Heq.
Qed.

Lemma train_agrees_with_classify_witness :
  ∃ c q p',
    BinaryPerceptron.classify [2%float] (Neuron [1; 0]%float [-1; 1]%float 1 0) = Return c q ∧
    BinaryPerceptron.train [2%float] true (Neuron [1; 0]%float [-1; 1]%float 1 0)
    = Return (Bool.eqb c true) p' ∧
    Perceptron.train [2%float] true (Neuron [1; 0]%float [-1; 1]%float 1 0)
    = Return (Bool.eqb c true) p' ∧
    (c = true → p' = q ∧ BinaryPerceptron.classify [2%float] p' = Return true p').
Proof.
  exact (train_agrees_with_classify 1 (Neuron [1; 0]%float [-1; 1]%float 1 0) [2%float] true
           (ex_intro _ [0%float] (conj eq_refl (conj eq_refl eq_refl))) eq_refl).
Defined.

(** ** Fresh binary perceptrons whose threshold is not negative *)

(** X3.  A freshly constructed binary perceptron of either class whose
    threshold is not below zero ([0 > threshold] is false, which a [NaN]
    threshold makes it too) classifies every input of the right length as
    false, inputs with infinite or [NaN] components included: with all
    weights zero the score is 0 or [NaN], and neither exceeds the
    threshold. *)
Theorem fresh_threshold_not_negative (d : Z) (learningRate threshold : float)
    (input : list float) :
  (0 ≤ d)%Z → (0 > threshold)%js = false → length input = Z.to_nat d →
  BinaryPerceptron.classify input (BinaryPerceptron.new d learningRate threshold)
  = Return false (buffered input (BinaryPerceptron.new d learningRate threshold)) ∧
  Perceptron.classify input (Perceptron.new d learningRate threshold)
  = Return false (buffered input (Perceptron.new d learningRate threshold)).
Proof.
  intros Hd Hth Hlen. rewrite Perceptron_classify_eq, Perceptron_new_eq.
  rewrite (BinaryPerceptron_classify_eq (Z.to_nat d))
    by (done || by apply BinaryPerceptron_new_wf).
  rewrite (buffered_score (Z.to_nat d)) by (done || by apply BinaryPerceptron_new_wf).
  change (threshold_ (BinaryPerceptron.new d learningRate threshold)) with threshold.
  change (inputWeights_ (BinaryPerceptron.new d learningRate threshold))
    with (replicate (Z.to_nat (d + 1)) 0%float).
  destruct (dot_zero_weights_any (1%float :: input) (Z.to_nat (d + 1))) as [-> | ->].
  - by rewrite Hth.
  - by rewrite gt_nan.
Qed.

Lemma fresh_threshold_not_negative_witness :
  BinaryPerceptron.classify [infinity; (-3)%float] (BinaryPerceptron.new 2 1 0)
  = Return false (buffered [infinity; (-3)%float] (BinaryPerceptron.new 2 1 0)) ∧
  Perceptron.classify [infinity; (-3)%float] (Perceptron.new 2 1 0)
  = Return false (buffered [infinity; (-3)%float] (Perceptron.new 2 1 0)).
Proof.
  apply (fresh_threshold_not_negative 2 1 0 [infinity; (-3)%float]); [lia|reflexivity|reflexivity].
Defined.

(** ** [setWeights] and [getWeights] of [BinaryPerceptron] *)

(** X4.  [BinaryPerceptron.setWeights] with a vector of n + 1 weights
    returns it and stores it, leaving the buffer, the learning rate and
    the threshold alone; [getWeights] then returns that vector, and
    [classify] answers by its dot product with the buffered input.  With
    a vector of any other length [setWeights] throws
    'Cannot change weight dimension', a DimensionMismatch, and the
    perceptron is as it was. *)
Theorem binary_setWeights_getWeights (n : nat) (p : neuron) (weights input : list float) :
  neuron_wf n p →
  (length weights = S n →
   ∃ p', BinaryPerceptron.setWeights weights p = Return weights p' ∧
         BinaryPerceptron.getWeights p' = Return weights p' ∧
         inputs_ p' = inputs_ p ∧ learningRate_ p' = learningRate_ p ∧
         threshold_ p' = threshold_ p ∧
         (length input = n →
          BinaryPerceptron.classify input p'
          = Return (dot weights (1%float :: input) > threshold_ p)%js (buffered input p'))) ∧
  (length weights ≠ S n →
   BinaryPerceptron.setWeights weights p = Throw CannotChangeWeightDimension p ∧
   error_kind CannotChangeWeightDimension = Some DimensionMismatch).
Proof.
  intros Hwf. pose proof Hwf as (r & Hin & Hr & Hw).
  unfold BinaryPerceptron.setWeights, BinaryPerceptron.getWeights, mbind, js_bind, gets, modify,
    throw, mret, js_ret.
  rewrite Hw. split.
  - intros Hlen. rewrite Hlen, Nat.eqb_refl. simpl. eexists. split; [done|].
    split; [done|]. split; [done|]. split; [done|]. split; [done|].
    intros Hinput.
    assert (neuron_wf n (set_inputWeights_ (λ _, weights) p)) as Hwf' by (by exists r).
    rewrite (BinaryPerceptron_classify_eq n) by done.
    by rewrite (buffered_score n) by done.
  - intros Hlen. by rewrite (length_neq_eqb _ _ Hlen).
Qed.

Lemma binary_setWeights_getWeights_witness :
  let p := BinaryPerceptron.new 2 1 0.5 in
  (∃ p', BinaryPerceptron.setWeights [-4; 1; 1]%float p = Return [-4; 1; 1]%float p' ∧
         BinaryPerceptron.getWeights p' = Return [-4; 1; 1]%float p' ∧
         inputs_ p' = inputs_ p ∧ learningRate_ p' = learningRate_ p ∧
         threshold_ p' = threshold_ p ∧
         BinaryPerceptron.classify [2; 3]%float p'
         = Return (dot [-4; 1; 1]%float [1; 2; 3]%float > threshold_ p)%js
             (buffered [2; 3]%float p')) ∧
  BinaryPerceptron.setWeights [1; 1]%float p = Throw CannotChangeWeightDimension p.
Proof.
  cbv zeta.
  pose proof (binary_setWeights_getWeights 2 (BinaryPerceptron.new 2 1 0.5)
                [-4; 1; 1]%float [2; 3]%float
                (ex_intro _ [0; 0]%float (conj eq_refl (conj eq_refl eq_refl)))) as [H1 _].
  pose proof (binary_setWeights_getWeights 2 (BinaryPerceptron.new 2 1 0.5)
                [1; 1]%float [2; 3]%float
                (ex_intro _ [0; 0]%float (conj eq_refl (conj eq_refl eq_refl)))) as [_ H2].
  split.
  - destruct (H1 eq_refl) as (p' & Hs & Hg & Hi & Hl & Ht & Hc).
    exists p'. repeat (split; [assumption|]). apply Hc. reflexivity.
  - apply H2. simpl. lia.
Defined.

(** ** Passes over the examples themselves *)

Lemma for_loop_keeps {St A} (I : St → Prop) (body : nat → A → js St A) count lo acc s a' s' :
  (∀ i a s a' s', I s → body i a s = Return a' s' → I s') →
  I s → for_loop count lo body acc s = Return a' s' → I s'.
Proof.
  intros Hbody. revert lo acc s. induction count as [|count IH]; intros lo acc s HI; simpl.
  - by intros [= _ <-].
  - unfold mbind, js_bind. destruct (body lo acc s) as [a1 s1| |] eqn:Hb; [|done|done].
    apply IH. by eapply Hbody.
Qed.

Section TrainEach.
Context {St E : Type}.
Variable train : list float → E → js St bool.

Lemma train_each_app (ex1 ex2 : list (list float * E)) numberFailed s :
  train_each train (ex1 ++ ex2) numberFailed s
  = (nf ← train_each train ex1 numberFailed; train_each train ex2 nf) s.
Proof.
  revert numberFailed s. induction ex1 as [|[x e] ex1 IH]; intros nf s; [done|].
  simpl. unfold mbind, js_bind. destruct (train x e s) as [passed s1| |]; [|done|done].
  apply IH.
Qed.

(** The count only grows, by at most one for each example. *)
Lemma train_each_count (examples : list (list float * E)) numberFailed s nf' s' :
  train_each train examples numberFailed s = Return nf' s' →
  (numberFailed ≤ nf' ≤ numberFailed + Z.of_nat (length examples))%Z.
Proof.
  revert numberFailed s. induction examples as [|[x e] rest IH]; intros nf s; simpl.
  - intros [= <- _]. lia.
  - unfold mbind, js_bind. destruct (train x e s) as [passed s1| |]; [|done|done].
    intros H%IH. destruct passed; simpl in H; lia.
Qed.

Variable I : St → Prop.
Hypothesis train_keeps : ∀ x e s b s', I s → train x e s = Return b s' → I s'.

Lemma train_each_keeps (examples : list (list float * E)) numberFailed s nf' s' :
  I s → train_each train examples numberFailed s = Return nf' s' → I s'.
Proof.
  revert numberFailed s. induction examples as [|[x e] rest IH]; intros nf s HI; simpl.
  - by intros [= _ <-].
  - unfold mbind, js_bind. destruct (train x e s) as [passed s1| |] eqn:Ht; [|done|done].
    apply IH. by eapply train_keeps.
Qed.

Variable Q : list float → E → St → Prop.
Hypothesis train_true : ∀ x e s s', I s → train x e s = Return true s' → Q x e s'.
Hypothesis train_stable :
  ∀ x e y e' s s', I s → Q x e s → train y e' s = Return true s' → Q x e s'.

(** In a pass without failure every call of [train] has returned true. *)
Lemma train_each_head (x : list float) (e : E) rest numberFailed s s' :
  train_each train ((x, e) :: rest) numberFailed s = Return numberFailed s' →
  ∃ s1, train x e s = Return true s1 ∧
        train_each train rest numberFailed s1 = Return numberFailed s'.
Proof.
  simpl. unfold mbind, js_bind. destruct (train x e s) as [passed s1| |]; [|done|done].
  destruct passed; [by exists s1|]. intros H%train_each_count. simpl in H. lia.
Qed.

Lemma train_each_stable x e (examples : list (list float * E)) numberFailed s s' :
  I s → Q x e s →
  train_each train examples numberFailed s = Return numberFailed s' → Q x e s'.
Proof.
  revert s. induction examples as [|[y e'] rest IH]; intros s HI HQ.
  - simpl. by intros [= <-].
  - intros (s1 & Ht & Hrest)%train_each_head.
    apply (IH s1); [by apply (train_keeps y e' s true s1)| |done].
    by apply (train_stable x e y e' s s1).
Qed.

Lemma train_each_clean (examples : list (list float * E)) numberFailed s s' :
  I s → train_each train examples numberFailed s = Return numberFailed s' →
  Forall (λ xe, Q xe.1 xe.2 s') examples.
Proof.
  revert s. induction examples as [|[x e] rest IH]; intros s HI; [by constructor|].
  intros (s1 & Ht & Hrest)%train_each_head.
  assert (I s1) as HI1 by (by apply (train_keeps x e s true s1)).
  constructor; [|by apply (IH s1)]. simpl.
  apply (train_each_stable x e rest numberFailed s1); [done| |done].
  by apply (train_true x e s s1).
Qed.

Variable no_expected : E.
Variables (inputSet : list (list float)) (expectedSet : list E).
Variables (maxIterations : Z).

Lemma passes_keeps p nfs p' :
  length inputSet = length expectedSet →
  Passes.passes train no_expected inputSet expectedSet p nfs p' → I p → I p'.
Proof.
  intros Hlen. induction 1 as [|p nf p1 nfs p' Hp _ IH]; [done|]. intros HI. apply IH.
  rewrite pass_train_each in Hp by done. by eapply train_each_keeps.
Qed.

Lemma passes_snoc_inv p nfs nf p' :
  Passes.passes train no_expected inputSet expectedSet p (nfs ++ [nf]) p' →
  ∃ p0, Passes.passes train no_expected inputSet expectedSet p nfs p0 ∧
        Passes.pass train no_expected inputSet expectedSet p0 = Return nf p'.
Proof.
  revert p. induction nfs as [|nf0 nfs IH]; intros p Hps; simpl in Hps.
  - inversion Hps as [|? ? p1 ? ? Hp Hrest]; subst. inversion Hrest; subst.
    exists p. split; [constructor|done].
  - inversion Hps as [|? ? p1 ? ? Hp Hrest]; subst.
    destruct (IH _ Hrest) as (p0 & Hps0 & Hp0). exists p0. split; [|done]. by econstructor.
Qed.

(** A call that returns true has ended on a pass without failure. *)
Lemma pass_trainSet_true {W} (callback : callback_fn W) fuel p w p' w' :
  (0 ≤ maxIterations)%Z →
  Passes.pass_trainSet train no_expected inputSet expectedSet maxIterations callback fuel (p, w)
  = Return true (p', w') →
  length inputSet = length expectedSet ∧
  ∃ nfs p0, Passes.passes train no_expected inputSet expectedSet p nfs p0 ∧
            Passes.pass train no_expected inputSet expectedSet p0 = Return 0%Z p'.
Proof.
  intros Hmax Hrun.
  assert (length inputSet = length expectedSet) as Hlen.
  { unfold Passes.pass_trainSet in Hrun.
    destruct (Nat.eqb_spec (length inputSet) (length expectedSet)); [done|]. by simpl in Hrun. }
  split; [done|].
  apply pass_trainSet_Return in Hrun as (nfs & Hps & Hb & Hd & _).
  symmetry in Hb. apply negb_true_iff, Z.eqb_neq in Hb.
  pose proof (loop_discipline_length _ _ _ _ Hd) as Hle.
  pose proof (loop_discipline_early _ _ _ _ Hd) as Hlast.
  destruct nfs as [|nf nfs _] using rev_ind.
  - simpl in Hlast. assert (Some (-1)%Z = Some 0%Z) as [=] by (apply Hlast; simpl in *; lia).
  - rewrite app_comm_cons, last_snoc in Hlast.
    assert (nf = 0%Z) as ->.
    { assert (Some nf = Some 0%Z) as [=] by (apply Hlast; lia). done. }
    apply passes_snoc_inv in Hps as (p0 & Hps & Hp). by exists nfs, p0.
Qed.

Lemma pass_trainSet_true_clean {W} (callback : callback_fn W) fuel p w p' w' :
  (0 ≤ maxIterations)%Z → I p →
  Passes.pass_trainSet train no_expected inputSet expectedSet maxIterations callback fuel (p, w)
  = Return true (p', w') →
  ∀ i x e, inputSet !! i = Some x → expectedSet !! i = Some e → Q x e p'.
Proof.
  intros Hmax HI (Hlen & nfs & p0 & Hps & Hp)%pass_trainSet_true; [|done].
  intros i x e Hx He. rewrite pass_train_each in Hp by done.
  apply train_each_clean in Hp; [|by eapply passes_keeps].
  rewrite Forall_lookup in Hp. apply (Hp i (x, e)).
  apply lookup_zip_with_Some. by exists x, e.
Qed.

End TrainEach.

(** ** Examples a binary perceptron passes *)

(** [p] classifies [input] as [expected]. *)
Lemma binary_classify_Return n p input c q :
  neuron_wf n p → BinaryPerceptron.classify input p = Return c q →
  length input = n ∧ q = buffered input p ∧
  c = (BinaryPerceptron.getScore_ (buffered input p) > threshold_ p)%js.
Proof.
  intros Hwf. destruct (decide (length input = n)) as [Hlen|Hlen].
  - rewrite (BinaryPerceptron_classify_eq n) by done. by intros [= <- <-].
  - by rewrite (BinaryPerceptron_classify_throws n).
Qed.

Lemma binary_train_true n p input expected p' :
  neuron_wf n p → BinaryPerceptron.train input expected p = Return true p' →
  length input = n ∧ p' = buffered input p ∧
  expected = (BinaryPerceptron.getScore_ (buffered input p) > threshold_ p)%js.
Proof.
  intros Hwf. destruct (decide (length input = n)) as [Hlen|Hlen].
  - rewrite (BinaryPerceptron_train_eq n) by done. cbv zeta. rewrite expected_eq_result.
    destruct (Bool.eqb _ expected) eqn:Heq; [|done]. intros [= <-].
    apply Bool.eqb_prop in Heq. done.
  - by rewrite (BinaryPerceptron_train_throws n).
Qed.

Lemma binary_train_true_classifies n p input expected p' :
  neuron_wf n p → BinaryPerceptron.train input expected p = Return true p' →
  ∃ q, BinaryPerceptron.classify input p' = Return expected q.
Proof.
  intros Hwf (Hlen & -> & Hexp)%(binary_train_true n); [|done].
  rewrite (BinaryPerceptron_classify_eq n) by (done || by apply buffered_wf).
  eexists. by rewrite Hexp.
Qed.

Lemma binary_train_true_stable n p x (e : bool) y e' p' :
  neuron_wf n p → (∃ q, BinaryPerceptron.classify x p = Return e q) →
  BinaryPerceptron.train y e' p = Return true p' →
  ∃ q, BinaryPerceptron.classify x p' = Return e q.
Proof.
  intros Hwf [q (Hx & _ & He)%(binary_classify_Return n)] (Hy & -> & _)%(binary_train_true n);
    [|done..].
  rewrite (BinaryPerceptron_classify_eq n) by (done || by apply buffered_wf).
  eexists. by rewrite He.
Qed.

(** ** The loops of [Perceptron.trainSet] *)

(** Once an example of the pass has failed, the rest of the pass does
    nothing. *)
Lemma Perceptron_for_loop_false inputSet expectedSet count lo p :
  for_loop count lo (Perceptron.trainSet_example inputSet expectedSet) false p = Return false p.
Proof. revert lo. induction count as [|count IH]; intros lo; [done|]. simpl. apply IH. Qed.

(** A pass ends with [allPassed] true exactly when [train] was called on
    every example and returned true every time. *)
Lemma Perceptron_for_loop_true (inputs pre_i : list (list float)) (expecteds pre_e : list bool)
    (numberFailed : Z) p p' :
  length pre_i = length pre_e → length inputs = length expecteds →
  for_loop (length inputs) (length pre_i)
    (Perceptron.trainSet_example (pre_i ++ inputs) (pre_e ++ expecteds)) true p = Return true p'
  ↔ train_each BinaryPerceptron.train (zip inputs expecteds) numberFailed p
    = Return numberFailed p'.
Proof.
  revert expecteds pre_i pre_e p.
  induction inputs as [|input inputs IH]; intros expecteds pre_i pre_e p Hpre Hlen.
  - destruct expecteds; [|done]. simpl. split; by intros [= <-].
  - destruct expecteds as [|expected expecteds]; [done|]. simpl in Hlen.
    cbn [length for_loop zip zip_with train_each]. unfold mbind, js_bind.
    unfold Perceptron.trainSet_example at 1. rewrite list_lookup_middle by done.
    rewrite Hpre, list_lookup_middle by done. simpl.
    change Perceptron.train with BinaryPerceptron.train.
    destruct (BinaryPerceptron.train input expected p) as [passed p1| |] eqn:Ht; [|done|done].
    replace (pre_i ++ input :: inputs) with ((pre_i ++ [input]) ++ inputs)
      by (by rewrite <- app_assoc).
    replace (pre_e ++ expected :: expecteds) with ((pre_e ++ [expected]) ++ expecteds)
      by (by rewrite <- app_assoc).
    destruct passed; simpl.
    + replace (S (length pre_e)) with (length (pre_i ++ [input]))
        by (rewrite length_app; simpl; lia).
      apply IH; [|lia]. rewrite !length_app. simpl. lia.
    + rewrite Perceptron_for_loop_false. split; [done|].
      intros H%train_each_count. lia.
Qed.

Lemma Perceptron_pass_true inputSet expectedSet p p' :
  length inputSet = length expectedSet →
  for_loop (length inputSet) 0 (Perceptron.trainSet_example inputSet expectedSet) true p
  = Return true p'
  ↔ train_each BinaryPerceptron.train (zip inputSet expectedSet) 0 p = Return 0%Z p'.
Proof.
  intros Hlen.
  exact (Perceptron_for_loop_true inputSet [] expectedSet [] 0%Z p p' eq_refl Hlen).
Qed.

Lemma Perceptron_trainSet_example_keeps n inputSet expectedSet i a p a' p' :
  neuron_wf n p → Perceptron.trainSet_example inputSet expectedSet i a p = Return a' p' →
  neuron_wf n p'.
Proof.
  intros Hwf. unfold Perceptron.trainSet_example. destruct a; [|by intros [= _ <-]].
  destruct (inputSet !! i); [|done]. by apply BinaryPerceptron_train_wf.
Qed.

(** A run of the loop that stops with budget left has ended on a pass in
    which every example passed. *)
Lemma Perceptron_trainSet_while_Return n inputSet expectedSet maxIterations fuel
    allPassed iteration p iteration' p' :
  neuron_wf n p →
  Perceptron.trainSet_while inputSet expectedSet maxIterations fuel allPassed iteration p
  = Return iteration' p' →
  ((iteration ≤ maxIterations)%Z → (iteration' ≤ maxIterations)%Z) ∧
  neuron_wf n p' ∧
  ((iteration' < maxIterations)%Z →
   (allPassed = true ∧ p' = p) ∨
   ∃ p0, neuron_wf n p0 ∧
         for_loop (length inputSet) 0 (Perceptron.trainSet_example inputSet expectedSet) true p0
         = Return true p').
Proof.
  revert allPassed iteration p.
  induction fuel as [|fuel IH]; intros allPassed it p Hwf; simpl.
  - destruct (negb allPassed && (it <? maxIterations)%Z) eqn:Hc; [done|].
    intros [= <- <-]. split; [done|]. split; [done|]. intros Hlt. left. split; [|done].
    apply andb_false_iff in Hc as [Hc|Hc]; [by apply negb_false_iff in Hc|].
    apply Z.ltb_ge in Hc. lia.
  - destruct (negb allPassed && (it <? maxIterations)%Z) eqn:Hc.
    + apply andb_true_iff in Hc as [_ Hlt%Z.ltb_lt]. unfold mbind, js_bind.
      destruct (for_loop _ _ _ _ _) as [ap p1| |] eqn:Hloop; [|done|done].
      assert (neuron_wf n p1) as Hwf1.
      { eapply (for_loop_keeps (neuron_wf n)); [|exact Hwf|exact Hloop].
        intros i a s a' s' Hs. by apply Perceptron_trainSet_example_keeps. }
      intros (Hle & Hwf' & Hend)%IH; [|done]. split; [intros _; apply Hle; lia|].
      split; [done|]. intros Hlt'. right.
      destruct (Hend Hlt') as [[-> ->]|?]; [|done]. by exists p.
    + intros [= <- <-]. split; [done|]. split; [done|]. intros Hlt. left. split; [|done].
      apply andb_false_iff in Hc as [Hc|Hc]; [by apply negb_false_iff in Hc|].
      apply Z.ltb_ge in Hc. lia.
Qed.

Lemma Perceptron_trainSet_true n inputSet expectedSet maxIterations p p' :
  neuron_wf n p → (0 ≤ maxIterations)%Z →
  Perceptron.trainSet inputSet expectedSet maxIterations p = Return true p' →
  length inputSet = length expectedSet ∧
  ∃ p0, neuron_wf n p0 ∧
        train_each BinaryPerceptron.train (zip inputSet expectedSet) 0 p0 = Return 0%Z p'.
Proof.
  intros Hwf Hmax. unfold Perceptron.trainSet, Perceptron.trainSet_fuel.
  destruct (Nat.eqb_spec (length inputSet) (length expectedSet)) as [Hlen|]; [|done]. simpl.
  unfold mbind, js_bind.
  destruct (Perceptron.trainSet_while _ _ _ _ _ _ _) as [it q| |] eqn:Hw; [|done|done].
  intros [= Hb <-]. apply negb_true_iff, Z.eqb_neq in Hb.
  apply (Perceptron_trainSet_while_Return n) in Hw as (Hle & _ & Hend); [|done].
  split; [done|]. destruct Hend as [[[=] _]|(p0 & Hwf0 & Hloop)]; [lia|].
  exists p0. split; [done|]. by apply Perceptron_pass_true.
Qed.

(** ** A result of true *)

(** X5.  When [BinaryPerceptron.trainSet], called with a budget
    maxIterations >= 0, returns true, the perceptron it leaves classifies
    every example of the set as expected. *)
Theorem binary_trainSet_true_sound {W} (w w' : W) (callback : callback_fn W) (n : nat)
    (p p' : neuron) (inputSet : list (list float)) (expectedSet : list bool)
    (maxIterations : Z) :
  neuron_wf n p → (0 ≤ maxIterations)%Z →
  BinaryPerceptron.trainSet inputSet expectedSet maxIterations callback (p, w)
  = Return true (p', w') →
  ∀ i input expected, inputSet !! i = Some input → expectedSet !! i = Some expected →
    ∃ q, BinaryPerceptron.classify input p' = Return expected q.
Proof.
  intros Hwf Hmax. unfold BinaryPerceptron.trainSet. rewrite BinaryPerceptron_trainSet_fuel_eq.
  apply (pass_trainSet_true_clean BinaryPerceptron.train (neuron_wf n)
           (λ x e s b s' Hs, BinaryPerceptron_train_wf n s x e b s' Hs)
           (λ x e s, ∃ q, BinaryPerceptron.classify x s = Return e q)
           (λ x e s s' Hs, binary_train_true_classifies n s x e s' Hs)
           (λ x e y e' s s' Hs, binary_train_true_stable n s x e y e' s' Hs)); done.
Qed.

Lemma binary_trainSet_true_sound_witness :
  let p' := Neuron [1; -3]%float [3; -1]%float 1 0 in
  (∃ q, BinaryPerceptron.classify [1%float] p' = Return true q) ∧
  (∃ q, BinaryPerceptron.classify [(-3)%float] p' = Return true q).
Proof.
  pose proof (binary_trainSet_true_sound [] [(2, 2, 0); (1, 2, 1); (0, 2, 2)]%Z
                (Some (λ a b c l, l ++ [(a, b, c)])) 1
                (BinaryPerceptron.new 1 1 0) (Neuron [1; -3]%float [3; -1]%float 1 0)
                [[1%float]; [(-3)%float]] [true; true] 4
                (ex_intro _ [0%float] (conj eq_refl (conj eq_refl eq_refl)))
                ltac:(lia) eq_refl) as H.
  split; [exact (H 0 _ _ eq_refl eq_refl)|exact (H 1 _ _ eq_refl eq_refl)].
Defined.

(** X6.  The same holds of [Perceptron.trainSet], although a pass of it
    stops training once an example has failed: a call with a budget
    maxIterations >= 0 that returns true leaves a perceptron that
    classifies every example of the set as expected. *)
Theorem canonical_trainSet_true_sound (n : nat) (p p' : neuron)
    (inputSet : list (list float)) (expectedSet : list bool) (maxIterations : Z) :
  neuron_wf n p → (0 ≤ maxIterations)%Z →
  Perceptron.trainSet inputSet expectedSet maxIterations p = Return true p' →
  ∀ i input expected, inputSet !! i = Some input → expectedSet !! i = Some expected →
    ∃ q, Perceptron.classify input p' = Return expected q.
Proof.
  intros Hwf Hmax (Hlen & p0 & Hwf0 & Hp)%(Perceptron_trainSet_true n); [|done..].
  intros i x e Hx He.
  apply (train_each_clean BinaryPerceptron.train (neuron_wf n)
           (λ x e s b s' Hs, BinaryPerceptron_train_wf n s x e b s' Hs)
           (λ x e s, ∃ q, BinaryPerceptron.classify x s = Return e q)
           (λ x e s s' Hs, binary_train_true_classifies n s x e s' Hs)
           (λ x e y e' s s' Hs, binary_train_true_stable n s x e y e' s' Hs)) in Hp; [|done].
  rewrite Forall_lookup in Hp. apply (Hp i (x, e)).
  apply lookup_zip_with_Some. by exists x, e.
Qed.

Lemma canonical_trainSet_true_sound_witness :
  let p' := Neuron [1; 3]%float [1; 1]%float 1 0 in
  (∃ q, Perceptron.classify [1%float] p' = Return true q) ∧
  (∃ q, Perceptron.classify [3%float] p' = Return true q).
Proof.
  pose proof (canonical_trainSet_true_sound 1
                (Perceptron.new 1 1 0) (Neuron [1; 3]%float [1; 1]%float 1 0)
                [[1%float]; [3%float]] [true; true] 4
                (ex_intro _ [0%float] (conj eq_refl (conj eq_refl eq_refl)))
                ltac:(lia) eq_refl) as H.
  split; [exact (H 0 _ _ eq_refl eq_refl)|exact (H 1 _ _ eq_refl eq_refl)].
Defined.

(** ** Data the perceptron has already learned *)

Section AllPass.
Context {St E : Type}.
Variable train : list float → E → js St bool.
Variable C : St → Prop.

Lemma train_each_all_pass (examples : list (list float * E)) numberFailed s :
  (∀ x e s, (x, e) ∈ examples → C s → ∃ s', train x e s = Return true s' ∧ C s') →
  C s → ∃ s', train_each train examples numberFailed s = Return numberFailed s' ∧ C s'.
Proof.
  revert s. induction examples as [|[x e] rest IH]; intros s Hall Hs; [by exists s|].
  destruct (Hall x e s) as (s1 & Ht & Hs1); [apply list_elem_of_here|done|].
  simpl. unfold mbind, js_bind. rewrite Ht. simpl. apply IH; [|done].
  intros y e' s0 Hin. apply Hall. by apply list_elem_of_further.
Qed.

Lemma pass_while_done {W} (no_expected : E) inputSet expectedSet maxIterations
    (callback : callback_fn W) fuel iteration s :
  Passes.pass_while train no_expected inputSet expectedSet maxIterations callback
    fuel 0 iteration s = Return iteration s.
Proof. by destruct fuel. Qed.

(** One pass without failure is the whole call. *)
Lemma pass_trainSet_one_pass {W} (no_expected : E) inputSet expectedSet maxIterations
    (f : Z → Z → Z → W → W) p p' (w : W) :
  length inputSet = length expectedSet → (1 ≤ maxIterations)%Z →
  Passes.pass train no_expected inputSet expectedSet p = Return 0%Z p' →
  Passes.pass_trainSet train no_expected inputSet expectedSet maxIterations (Some f)
    (Z.to_nat maxIterations) (p, w)
  = Return (negb (1 =? maxIterations)%Z) (p', f 0%Z (Z.of_nat (length inputSet)) 0%Z w).
Proof.
  intros Hlen%Nat.eqb_eq Hmax Hpass. unfold Passes.pass_trainSet, mbind, js_bind.
  rewrite Hlen. change (negb true) with false. cbv beta iota.
  destruct (Z.to_nat maxIterations) as [|fuel] eqn:Hfuel; [lia|].
  cbn [Passes.pass_while].
  replace (0 <? maxIterations)%Z with true by (symmetry; apply Z.ltb_lt; lia).
  change (negb (-1 =? 0)%Z && true) with true. cbv beta iota.
  unfold mbind, js_bind, this. rewrite Hpass. cbn [call modify].
  by rewrite pass_while_done.
Qed.

End AllPass.

(** The states that differ from [p] in the input buffer at most. *)
Lemma buffered_same n p s input :
  neuron_wf n s → inputWeights_ s = inputWeights_ p → learningRate_ s = learningRate_ p →
  threshold_ s = threshold_ p → buffered input s = buffered input p.
Proof. intros _ Hw Hl Ht. unfold buffered. by rewrite Hw, Hl, Ht. Qed.

Lemma zip_elem_lookup {A B} (l : list A) (k : list B) x y :
  (x, y) ∈ zip l k → ∃ i, l !! i = Some x ∧ k !! i = Some y.
Proof.
  intros [i Hi]%list_elem_of_lookup_1. exists i.
  apply lookup_zip_with_Some in Hi as (x' & y' & [= -> ->] & Hx & Hy). done.
Qed.

(** X7.  On a set every example of which the perceptron already
    classifies as expected (the empty set is one), [trainSet] with a
    budget of at least one pass makes one pass and no more: the callback
    is called once, with (0, size of the set, 0), the weights are those
    it started with, and the value returned is [1 != maxIterations], so
    false when the budget is one pass.  [Perceptron.trainSet] returns the
    same value and leaves the same perceptron. *)
Theorem trainSet_on_learned_data {W} (w : W) (f : Z → Z → Z → W → W) (n : nat) (p : neuron)
    (inputSet : list (list float)) (expectedSet : list bool) (maxIterations : Z) :
  neuron_wf n p → length inputSet = length expectedSet → (1 ≤ maxIterations)%Z →
  (∀ i input expected, inputSet !! i = Some input → expectedSet !! i = Some expected →
     ∃ q, BinaryPerceptron.classify input p = Return expected q) →
  ∃ p',
    BinaryPerceptron.trainSet inputSet expectedSet maxIterations (Some f) (p, w)
    = Return (negb (1 =? maxIterations)%Z) (p', f 0%Z (Z.of_nat (length inputSet)) 0%Z w) ∧
    Perceptron.trainSet inputSet expectedSet maxIterations p
    = Return (negb (1 =? maxIterations)%Z) p' ∧
    inputWeights_ p' = inputWeights_ p.
Proof.
  intros Hwf Hlen Hmax Hlearned.
  destruct (train_each_all_pass BinaryPerceptron.train
              (λ s, neuron_wf n s ∧ inputWeights_ s = inputWeights_ p ∧
                    learningRate_ s = learningRate_ p ∧ threshold_ s = threshold_ p)
              (zip inputSet expectedSet) 0%Z p) as (p' & Hpass & _ & Hw & _); [|done|].
  { intros x e s (i & Hx & He)%zip_elem_lookup (Hs & Hsw & Hsl & Hst).
    destruct (Hlearned i x e Hx He) as [q (Hxl & _ & Hc)%(binary_classify_Return n)]; [|done].
    rewrite (BinaryPerceptron_train_eq n) by done. cbv zeta.
    rewrite (buffered_same n p s) by done. rewrite Hst, expected_eq_result, <- Hc.
    rewrite Bool.eqb_reflx. eexists. split; [done|].
    split; [by apply buffered_wf|done]. }
  exists p'. split; [|split; [|done]].
  - unfold BinaryPerceptron.trainSet. rewrite BinaryPerceptron_trainSet_fuel_eq.
    apply pass_trainSet_one_pass; [done..|]. by rewrite pass_train_each.
  - apply Perceptron_pass_true in Hpass; [|done].
    unfold Perceptron.trainSet, Perceptron.trainSet_fuel.
    apply Nat.eqb_eq in Hlen. rewrite Hlen.
    change (negb true) with false. cbv beta iota. unfold mbind, js_bind.
    destruct (Z.to_nat maxIterations) as [|fuel] eqn:Hfuel; [lia|].
    cbn [Perceptron.trainSet_while].
    replace (0 <? maxIterations)%Z with true by (symmetry; apply Z.ltb_lt; lia).
    change (negb false && true) with true. cbv beta iota.
    unfold mbind, js_bind. rewrite Hpass. by destruct fuel.
Qed.

Lemma trainSet_on_learned_data_witness :
  let p := Neuron [1; 0]%float [3; -1]%float 1 0 in
  ∃ p',
    BinaryPerceptron.trainSet [[1%float]; [(-3)%float]] [true; true] 5
      (Some (λ a b c l, l ++ [(a, b, c)])) (p, [])
    = Return true (p', [(0, 2, 0)%Z]) ∧
    Perceptron.trainSet [[1%float]; [(-3)%float]] [true; true] 5 p
    = Return true p' ∧
    inputWeights_ p' = inputWeights_ p.
Proof.
  apply (trainSet_on_learned_data [] (λ a b c l, l ++ [(a, b, c)]) 1
           (Neuron [1; 0]%float [3; -1]%float 1 0) [[1%float]; [(-3)%float]] [true; true] 5
           (ex_intro _ [0%float] (conj eq_refl (conj eq_refl eq_refl))) eq_refl ltac:(lia)).
  intros [|[|i]] input expected [= <-] [= <-]; eexists; reflexivity.
Defined.

(** ** An example of the wrong size inside the set *)

Lemma binary_train_each_returns n (examples : list (list float * bool)) numberFailed p :
  Forall (λ xe, length xe.1 = n) examples → neuron_wf n p →
  ∃ nf p', train_each BinaryPerceptron.train examples numberFailed p = Return nf p' ∧
           neuron_wf n p'.
Proof.
  intros Hex. revert numberFailed p.
  induction Hex as [|[x e] rest Hx _ IH]; intros nf p Hwf; [by exists nf, p|].
  destruct (BinaryPerceptron_train_returns n p x e Hwf Hx) as (b & p1 & Ht & Hwf1).
  simpl. unfold mbind, js_bind. rewrite Ht. by apply IH.
Qed.

Lemma zip_split_at {A B} (l : list A) (k : list B) i x y :
  l !! i = Some x → k !! i = Some y →
  zip l k = zip (take i l) (take i k) ++ (x, y) :: zip (drop (S i) l) (drop (S i) k).
Proof.
  intros Hx Hy. rewrite <- (take_drop_middle l i x Hx) at 1.
  rewrite <- (take_drop_middle k i y Hy) at 1.
  rewrite zip_with_app; [done|].
  rewrite !length_take. apply lookup_lt_Some in Hx, Hy. lia.
Qed.

(** X8.  When example number i is the first of the input set whose
    length is not n, [BinaryPerceptron.trainSet] with a budget of at
    least one pass throws 'Illegal input dimension' in its first pass.
    The perceptron is left as training on the i examples before it has
    made it, their weight updates are not undone, and the callback has
    not been called. *)
Theorem trainSet_stops_at_bad_example {W} (w : W) (callback : callback_fn W) (n : nat)
    (p : neuron) (inputSet : list (list float)) (expectedSet : list bool)
    (maxIterations : Z) (i : nat) (bad : list float) :
  neuron_wf n p → length inputSet = length expectedSet → (1 ≤ maxIterations)%Z →
  inputSet !! i = Some bad → length bad ≠ n →
  (∀ j input, j < i → inputSet !! j = Some input → length input = n) →
  ∃ nf p1,
    train_each BinaryPerceptron.train (zip (take i inputSet) (take i expectedSet)) 0 p
    = Return nf p1 ∧
    BinaryPerceptron.trainSet inputSet expectedSet maxIterations callback (p, w)
    = Throw IllegalInputDimension (p1, w).
Proof.
  intros Hwf Hlen Hmax Hbad Hsize Hbefore.
  destruct (lookup_lt_is_Some_2 expectedSet i) as [e He].
  { rewrite <- Hlen. by eapply lookup_lt_Some. }
  destruct (binary_train_each_returns n (zip (take i inputSet) (take i expectedSet)) 0 p)
    as (nf & p1 & Hpre & Hwf1); [|done|].
  { apply Forall_lookup. intros j [x e'] (x' & y' & [= <- <-] & Hx & _)%lookup_zip_with_Some.
    apply lookup_take_Some in Hx as [Hx Hj]. simpl. by eapply Hbefore. }
  exists nf, p1. split; [done|].
  assert (Passes.pass BinaryPerceptron.train false inputSet expectedSet p
          = Throw IllegalInputDimension p1) as Hpass.
  { rewrite pass_train_each by done. rewrite (zip_split_at _ _ i bad e) by done.
    rewrite train_each_app. unfold mbind at 1, js_bind. rewrite Hpre. simpl.
    unfold mbind, js_bind. by rewrite (BinaryPerceptron_train_throws n). }
  unfold BinaryPerceptron.trainSet. rewrite BinaryPerceptron_trainSet_fuel_eq.
  unfold Passes.pass_trainSet, mbind, js_bind. rewrite Hlen, Nat.eqb_refl.
  change (negb true) with false. cbv beta iota.
  destruct (Z.to_nat maxIterations) as [|fuel] eqn:Hfuel; [lia|]. simpl.
  destruct (Z.ltb_spec 0 maxIterations); [|lia]. simpl.
  unfold mbind, js_bind, this. by rewrite Hpass.
Qed.

Lemma trainSet_stops_at_bad_example_witness :
  ∃ nf p1,
    train_each BinaryPerceptron.train
      (zip (take 1 [[1%float]; [1; 2]%float; [2%float]]) (take 1 [true; true; false])) 0
      (BinaryPerceptron.new 1 1 0)
    = Return nf p1 ∧
    BinaryPerceptron.trainSet [[1%float]; [1; 2]%float; [2%float]] [true; true; false] 3
      (Some (λ a b c l, l ++ [(a, b, c)])) (BinaryPerceptron.new 1 1 0, [])
    = Throw IllegalInputDimension (p1, []).
Proof.
  apply (trainSet_stops_at_bad_example [] (Some (λ a b c l, l ++ [(a, b, c)])) 1
           (BinaryPerceptron.new 1 1 0) [[1%float]; [1; 2]%float; [2%float]]
           [true; true; false] 3 1 [1; 2]%float
           (ex_intro _ [0%float] (conj eq_refl (conj eq_refl eq_refl))) eq_refl ltac:(lia)
           eq_refl ltac:(simpl; lia)).
  intros [|j] input Hj Hinput; [|lia]. simpl in Hinput. by injection Hinput as <-.
Defined.

(** ** [Perceptron.trainSet] needs no callback *)

Lemma Perceptron_pass_returns n inputSet expectedSet allPassed p :
  Forall (λ input, length input = n) inputSet → neuron_wf n p →
  ∃ a p', for_loop (length inputSet) 0 (Perceptron.trainSet_example inputSet expectedSet)
            allPassed p = Return a p' ∧ neuron_wf n p'.
Proof.
  intros Hin Hwf. apply (for_loop_returns (neuron_wf n)); [|done].
  intros i a s [_ Hi] Hs. unfold Perceptron.trainSet_example.
  destruct a; [|by exists false, s].
  destruct (lookup_lt_is_Some_2 inputSet i Hi) as [input Hinput]. rewrite Hinput.
  rewrite Forall_lookup in Hin. specialize (Hin _ _ Hinput).
  by apply BinaryPerceptron_train_returns.
Qed.

Lemma Perceptron_trainSet_while_returns n inputSet expectedSet maxIterations fuel
    allPassed iteration p :
  Forall (λ input, length input = n) inputSet → neuron_wf n p →
  Z.to_nat (maxIterations - iteration) ≤ fuel →
  ∃ iteration' p',
    Perceptron.trainSet_while inputSet expectedSet maxIterations fuel allPassed iteration p
    = Return iteration' p' ∧ neuron_wf n p'.
Proof.
  intros Hin. revert allPassed iteration p.
  induction fuel as [|fuel IH]; intros allPassed it p Hwf Hfuel; simpl.
  - destruct (Z.ltb_spec it maxIterations); [lia|]. rewrite andb_false_r. by exists it, p.
  - destruct (negb allPassed && (it <? maxIterations)%Z) eqn:Hc; [|by exists it, p].
    apply andb_true_iff in Hc as [_ Hlt%Z.ltb_lt].
    destruct (Perceptron_pass_returns n inputSet expectedSet true p Hin Hwf)
      as (a & p1 & Hloop & Hwf1).
    unfold mbind, js_bind. rewrite Hloop. apply IH; [done|lia].
Qed.

(** X9.  [Perceptron.trainSet] takes no callback: on two sets of equal
    length whose inputs all have length n it returns, for every
    maxIterations, and leaves a perceptron of the same shape. *)
Theorem canonical_trainSet_returns (n : nat) (p : neuron)
    (inputSet : list (list float)) (expectedSet : list bool) (maxIterations : Z) :
  neuron_wf n p → length inputSet = length expectedSet →
  Forall (λ input, length input = n) inputSet →
  ∃ b p', Perceptron.trainSet inputSet expectedSet maxIterations p = Return b p' ∧
          neuron_wf n p'.
Proof.
  intros Hwf Hlen%Nat.eqb_eq Hin. unfold Perceptron.trainSet, Perceptron.trainSet_fuel.
  rewrite Hlen. change (negb true) with false. cbv beta iota. unfold mbind, js_bind.
  destruct (Perceptron_trainSet_while_returns n inputSet expectedSet maxIterations
              (Z.to_nat maxIterations) false 0%Z p Hin Hwf) as (it & p' & -> & Hwf'); [lia|].
  by eexists _, _.
Qed.

Lemma canonical_trainSet_returns_witness :
  ∃ b p', Perceptron.trainSet [[1%float]; [(-3)%float]] [true; true] 4 (Perceptron.new 1 1 0)
          = Return b p' ∧ neuron_wf 1 p'.
Proof.
  apply (canonical_trainSet_returns 1 (Perceptron.new 1 1 0)
           [[1%float]; [(-3)%float]] [true; true] 4
           (ex_intro _ [0%float] (conj eq_refl (conj eq_refl eq_refl))) eq_refl).
  repeat constructor.
Defined.

(** ** Sets of one example at most: the two [trainSet] methods agree *)

Lemma short_pass_agrees {W} (inputSet : list (list float)) (expectedSet : list bool) p (w : W) :
  length inputSet ≤ 1 →
  match for_loop (length inputSet) 0
          (BinaryPerceptron.trainSet_example (W:=W) inputSet expectedSet) 0%Z (p, w) with
  | Return numberFailed (p1, w1) =>
      w1 = w ∧
      for_loop (length inputSet) 0 (Perceptron.trainSet_example inputSet expectedSet) true p
      = Return (numberFailed =? 0)%Z p1
  | Throw e (p1, w1) =>
      w1 = w ∧
      for_loop (length inputSet) 0 (Perceptron.trainSet_example inputSet expectedSet) true p
      = Throw e p1
  | OutOfFuel => False
  end.
Proof.
  destruct inputSet as [|input [|? ?]]; simpl; [by intros _| |lia]. intros _.
  unfold BinaryPerceptron.trainSet_example, Perceptron.trainSet_example. simpl.
  unfold mbind, js_bind, this. change Perceptron.train with BinaryPerceptron.train.
  pose proof (BinaryPerceptron_train_no_fuel input (default false (expectedSet !! 0)) p) as Hnf.
  destruct (BinaryPerceptron.train _ _ p) as [passed p1| |]; [|done|done].
  simpl. by destruct passed.
Qed.

Lemma short_while_agrees {W} (inputSet : list (list float)) (expectedSet : list bool)
    maxIterations (f : Z → Z → Z → W → W) fuel numberFailed iteration p (w : W) :
  length inputSet ≤ 1 →
  Perceptron.trainSet_while inputSet expectedSet maxIterations fuel
    (numberFailed =? 0)%Z iteration p
  = perceptron_outcome
      (BinaryPerceptron.trainSet_while inputSet expectedSet maxIterations (Some f)
         fuel numberFailed iteration (p, w)).
Proof.
  intros Hshort. revert numberFailed iteration p w.
  induction fuel as [|fuel IH]; intros nf it p w; simpl.
  - by destruct (negb (nf =? 0)%Z && (it <? maxIterations)%Z).
  - destruct (negb (nf =? 0)%Z && (it <? maxIterations)%Z); [|done].
    unfold mbind, js_bind. pose proof (short_pass_agrees inputSet expectedSet p w Hshort) as Hp.
    destruct (for_loop _ _ (BinaryPerceptron.trainSet_example _ _) _ _) as [nf1 [p1 w1]|e [p1 w1]|];
      [| |done].
    + destruct Hp as [-> ->]. simpl. apply IH.
    + by destruct Hp as [-> ->].
Qed.

(** X10.  On an input set of at most one example
    [Perceptron.trainSet] ends as [BinaryPerceptron.trainSet], called
    with a callback, does: the same value returned or the same exception
    thrown, and the same perceptron left. *)
Theorem short_sets_agree {W} (w : W) (f : Z → Z → Z → W → W) (p : neuron)
    (inputSet : list (list float)) (expectedSet : list bool) (maxIterations : Z) :
  length inputSet ≤ 1 →
  Perceptron.trainSet inputSet expectedSet maxIterations p
  = perceptron_outcome
      (BinaryPerceptron.trainSet inputSet expectedSet maxIterations (Some f) (p, w)).
Proof.
  intros Hshort.
  unfold Perceptron.trainSet, Perceptron.trainSet_fuel,
    BinaryPerceptron.trainSet, BinaryPerceptron.trainSet_fuel.
  destruct (negb (length inputSet =? length expectedSet)); [done|].
  unfold mbind, js_bind.
  rewrite (short_while_agrees inputSet expectedSet maxIterations f _ (-1) 0 p w Hshort).
  by destruct (BinaryPerceptron.trainSet_while _ _ _ _ _ _ _ _) as [it [p1 w1]|e [p1 w1]|].
Qed.

Lemma short_sets_agree_witness :
  Perceptron.trainSet [[(-3)%float]] [true] 4 (Perceptron.new 1 1 0)
  = perceptron_outcome
      (BinaryPerceptron.trainSet [[(-3)%float]] [true] 4 (Some (λ a b c l, l ++ [(a, b, c)]))
         (BinaryPerceptron.new 1 1 0, [])).
Proof.
  apply (short_sets_agree [] (λ a b c l, l ++ [(a, b, c)]) (BinaryPerceptron.new 1 1 0)
           [[(-3)%float]] [true] 4).
  simpl. lia.
Defined.

(** ** [MultiPerceptron]: every way a single example can end *)

Lemma row_at_None rows (i : Z) :
  MultiPerceptron.row_at rows i = None ↔ ¬ (0 ≤ i < Z.of_nat (length rows))%Z.
Proof.
  unfold MultiPerceptron.row_at. destruct (Z.ltb_spec i 0); [split; [lia|done]|].
  rewrite lookup_ge_None. lia.
Qed.

Lemma winner_scores_lt p :
  MultiPerceptron.inputWeights_ p ≠ [] →
  winner (scores p) < length (MultiPerceptron.inputWeights_ p).
Proof.
  intros Hrows. unfold scores.
  rewrite <- (length_map (λ row, row_score row (MultiPerceptron.inputs_ p))).
  apply winner_lt. by destruct (MultiPerceptron.inputWeights_ p).
Qed.

Lemma multi_no_rows_score n p input expected :
  multi_wf n p → length input = n → MultiPerceptron.inputWeights_ p = [] →
  MultiPerceptron.train input expected p = Throw TypeError (multi_buffered input p) ∧
  MultiPerceptron.classify input p = Throw TypeError (multi_buffered input p).
Proof.
  intros Hwf Hlen Hrows. pose proof Hwf as (r & Hin & Hr).
  unfold MultiPerceptron.train, MultiPerceptron.classify, mbind, js_bind, gets, modify, throw.
  replace (Z.of_nat (length input) =? Z.of_nat (length (MultiPerceptron.inputs_ p)) - 1)%Z
    with true by (symmetry; apply Z.eqb_eq; rewrite Hin; simpl; lia).
  change (negb true) with false. cbv beta iota.
  rewrite (multi_setInput_buffered n) by done.
  unfold MultiPerceptron.getScore_. simpl. by rewrite Hrows.
Qed.

Lemma multi_train_false_eq n p input expected expectedRow :
  multi_wf n p → length input = n →
  MultiPerceptron.row_at (MultiPerceptron.inputWeights_ p) expected = Some expectedRow →
  expected ≠ Z.of_nat (winner (scores (multi_buffered input p))) →
  MultiPerceptron.train input expected p
  = Return false
      (MultiPerceptron.Multi (1%float :: input)
         (alter (punished (MultiPerceptron.learningRate_ p) (1%float :: input))
                (winner (scores (multi_buffered input p)))
            (alter (encouraged (MultiPerceptron.learningRate_ p) (1%float :: input))
                   (Z.to_nat expected) (MultiPerceptron.inputWeights_ p)))
         (MultiPerceptron.learningRate_ p)).
Proof.
  intros Hwf Hlen Hexp Hne. apply row_at_Some in Hexp as [Hpos Hexp].
  assert (MultiPerceptron.inputWeights_ p ≠ []) as Hrows
    by (by intros Hnil; rewrite Hnil in Hexp).
  set (q := multi_buffered input p) in *. set (predicted := winner (scores q)) in *.
  pose proof (winner_scores_lt q Hrows) as Hlt. fold predicted in Hlt.
  destruct (lookup_lt_is_Some_2 _ _ Hlt) as [predictedRow Hpred].
  assert (Z.to_nat expected ≠ predicted) as Hne' by lia.
  rewrite (multi_train_eq n) by done. cbv zeta. fold q. fold predicted.
  destruct (Z.eqb_spec expected (Z.of_nat predicted)) as [|_]; [done|].
  unfold mbind at 1, js_bind.
  rewrite <- (Z2Nat.id expected) at 1 by done.
  rewrite (multi_encourage_eq q (Z.to_nat expected) expectedRow) by done.
  unfold mbind at 1, js_bind.
  rewrite (multi_punish_eq _ predicted predictedRow)
    by (simpl; by rewrite list_lookup_alter_ne).
  done.
Qed.

Lemma multi_train_out_of_range n p input expected :
  multi_wf n p → length input = n → MultiPerceptron.inputWeights_ p ≠ [] →
  MultiPerceptron.row_at (MultiPerceptron.inputWeights_ p) expected = None →
  MultiPerceptron.train input expected p = Throw TypeError (multi_buffered input p).
Proof.
  intros Hwf Hlen Hrows Hexp. rewrite (multi_train_eq n) by done. cbv zeta.
  pose proof (winner_scores_lt (multi_buffered input p) Hrows) as Hlt.
  destruct (Z.eqb_spec expected (Z.of_nat (winner (scores (multi_buffered input p)))))
    as [->|_].
  - rewrite row_at_nat in Hexp. apply lookup_ge_None in Hexp. simpl in Hlt. lia.
  - unfold mbind, js_bind, MultiPerceptron.encourageWeights_. simpl. by rewrite Hexp.
Qed.

(** The rows keep their lengths under both updates. *)
Lemma Forall_alter_length {A} (f : list A → list A) (rows : list (list A)) i k :
  (∀ row, length (f row) = length row) →
  Forall (λ row, length row = k) rows → Forall (λ row, length row = k) (alter f i rows).
Proof.
  intros Hf Hrows. rewrite Forall_lookup in Hrows. apply Forall_lookup. intros j row Hj.
  destruct (decide (i = j)) as [->|Hne].
  - rewrite list_lookup_alter_eq in Hj. destruct (rows !! j) as [row0|] eqn:Hrow; [|done].
    simpl in Hj. injection Hj as <-. rewrite Hf. by apply (Hrows j).
  - rewrite list_lookup_alter_ne in Hj by done. by apply (Hrows j).
Qed.

Lemma multi_train_Return n p input expected b p' :
  multi_wf n p → MultiPerceptron.train input expected p = Return b p' →
  length input = n ∧ MultiPerceptron.inputWeights_ p ≠ [] ∧ multi_wf n p' ∧
  length (MultiPerceptron.inputWeights_ p') = length (MultiPerceptron.inputWeights_ p) ∧
  (b = true ↔ expected = Z.of_nat (winner (scores (multi_buffered input p)))) ∧
  (b = true → p' = multi_buffered input p).
Proof.
  intros Hwf. destruct (decide (length input = n)) as [Hlen|Hlen];
    [|by rewrite (multi_train_throws n)].
  destruct (decide (MultiPerceptron.inputWeights_ p = [])) as [Hnil|Hrows].
  { by destruct (multi_no_rows_score n p input expected Hwf Hlen Hnil) as [-> _]. }
  destruct (decide (expected = Z.of_nat (winner (scores (multi_buffered input p)))))
    as [Heq|Hne].
  - rewrite (multi_train_eq n) by done. cbv zeta. rewrite <- Heq, Z.eqb_refl.
    intros [= <- <-]. repeat split; try done. by exists input.
  - destruct (MultiPerceptron.row_at (MultiPerceptron.inputWeights_ p) expected)
      as [expectedRow|] eqn:Hexp.
    + rewrite (multi_train_false_eq n p input expected expectedRow) by done.
      intros [= <- <-]. repeat split; try done.
      * by exists input.
      * simpl. by rewrite !length_alter.
    + by rewrite (multi_train_out_of_range n).
Qed.

Lemma multi_train_wf n p input expected b p' :
  multi_wf n p → MultiPerceptron.train input expected p = Return b p' → multi_wf n p'.
Proof. intros Hwf (_ & _ & Hwf' & _)%(multi_train_Return n); done. Qed.

Lemma multi_classify_Return n p input r q :
  multi_wf n p → MultiPerceptron.classify input p = Return r q →
  length input = n ∧ MultiPerceptron.inputWeights_ p ≠ [] ∧
  q = multi_buffered input p ∧ r = winner (scores (multi_buffered input p)).
Proof.
  intros Hwf. destruct (decide (length input = n)) as [Hlen|Hlen];
    [|by rewrite (multi_classify_throws n)].
  destruct (decide (MultiPerceptron.inputWeights_ p = [])) as [Hnil|Hrows].
  { by destruct (multi_no_rows_score n p input 0%Z Hwf Hlen Hnil) as [_ ->]. }
  rewrite (multi_classify_eq n) by done. by intros [= <- <-].
Qed.

Lemma multi_train_true_classifies n p input expected p' :
  multi_wf n p → MultiPerceptron.train input expected p = Return true p' →
  ∃ r q, MultiPerceptron.classify input p' = Return r q ∧ expected = Z.of_nat r.
Proof.
  intros Hwf (Hlen & Hrows & Hwf' & _ & Hb & Hp')%(multi_train_Return n); [|done].
  rewrite (Hp' eq_refl). rewrite (multi_classify_eq n) by (done || by exists input).
  eexists _, _. split; [done|]. by apply Hb.
Qed.

Lemma multi_train_true_stable n p x (e : Z) y e' p' :
  multi_wf n p →
  (∃ r q, MultiPerceptron.classify x p = Return r q ∧ e = Z.of_nat r) →
  MultiPerceptron.train y e' p = Return true p' →
  ∃ r q, MultiPerceptron.classify x p' = Return r q ∧ e = Z.of_nat r.
Proof.
  intros Hwf (r & q & (Hx & Hrows & _ & ->)%(multi_classify_Return n) & ->); [|done].
  intros (Hy & _ & _ & _ & _ & Hp')%(multi_train_Return n); [|done].
  rewrite (Hp' eq_refl). rewrite (multi_classify_eq n) by (done || by exists y).
  by eexists _, _.
Qed.

(** ** A multi-class perceptron that [trainSet] reports as trained *)

(** X11.  When [MultiPerceptron.trainSet], called with a budget
    maxIterations >= 0, returns true, the perceptron it leaves classifies
    every example of the set as its expected class. *)
Theorem multi_trainSet_true_sound {W} (w w' : W) (callback : callback_fn W) (n : nat)
    (p p' : MultiPerceptron.t) (inputSet : list (list float)) (expectedSet : list Z)
    (maxIterations : Z) :
  multi_wf n p → (0 ≤ maxIterations)%Z →
  MultiPerceptron.trainSet inputSet expectedSet maxIterations callback (p, w)
  = Return true (p', w') →
  ∀ i input expected, inputSet !! i = Some input → expectedSet !! i = Some expected →
    ∃ r q, MultiPerceptron.classify input p' = Return r q ∧ expected = Z.of_nat r.
Proof.
  intros Hwf Hmax. unfold MultiPerceptron.trainSet. rewrite MultiPerceptron_trainSet_fuel_eq.
  apply (pass_trainSet_true_clean MultiPerceptron.train (multi_wf n)
           (λ x e s b s' Hs, multi_train_wf n s x e b s' Hs)
           (λ x e s, ∃ r q, MultiPerceptron.classify x s = Return r q ∧ e = Z.of_nat r)
           (λ x e s s' Hs, multi_train_true_classifies n s x e s' Hs)
           (λ x e y e' s s' Hs, multi_train_true_stable n s x e y e' s' Hs)); done.
Qed.

Lemma multi_trainSet_true_sound_witness :
  let p' := MultiPerceptron.Multi [1; -5]%float [[-1; -5]; [1; 5]]%float 1 in
  (∃ r q, MultiPerceptron.classify [5%float] p' = Return r q ∧ 1%Z = Z.of_nat r) ∧
  (∃ r q, MultiPerceptron.classify [(-5)%float] p' = Return r q ∧ 0%Z = Z.of_nat r).
Proof.
  pose proof (multi_trainSet_true_sound [] [(1, 2, 0); (0, 2, 1)]%Z
                (Some (λ a b c l, l ++ [(a, b, c)])) 1
                (MultiPerceptron.new 1 2 1)
                (MultiPerceptron.Multi [1; -5]%float [[-1; -5]; [1; 5]]%float 1)
                [[5%float]; [(-5)%float]] [1%Z; 0%Z] 4
                (ex_intro _ [0%float] (conj eq_refl eq_refl))
                ltac:(lia) eq_refl) as H.
  split; [exact (H 0 _ _ eq_refl eq_refl)|exact (H 1 _ _ eq_refl eq_refl)].
Defined.

(** ** Data a multi-class perceptron has already learned *)

(** X12.  On a set every example of which the multi-class perceptron
    already classifies as expected, [trainSet] with a budget of at least
    one pass makes one pass and no more: the callback is called once,
    with (0, size of the set, 0), the weights are those it started with,
    and the value returned is [1 != maxIterations]. *)
Theorem multi_trainSet_on_learned_data {W} (w : W) (f : Z → Z → Z → W → W) (n : nat)
    (p : MultiPerceptron.t) (inputSet : list (list float)) (expectedSet : list Z)
    (maxIterations : Z) :
  multi_wf n p → length inputSet = length expectedSet → (1 ≤ maxIterations)%Z →
  (∀ i input expected, inputSet !! i = Some input → expectedSet !! i = Some expected →
     ∃ r q, MultiPerceptron.classify input p = Return r q ∧ expected = Z.of_nat r) →
  ∃ p',
    MultiPerceptron.trainSet inputSet expectedSet maxIterations (Some f) (p, w)
    = Return (negb (1 =? maxIterations)%Z) (p', f 0%Z (Z.of_nat (length inputSet)) 0%Z w) ∧
    MultiPerceptron.inputWeights_ p' = MultiPerceptron.inputWeights_ p.
Proof.
  intros Hwf Hlen Hmax Hlearned.
  destruct (train_each_all_pass MultiPerceptron.train
              (λ s, multi_wf n s ∧
                    MultiPerceptron.inputWeights_ s = MultiPerceptron.inputWeights_ p ∧
                    MultiPerceptron.learningRate_ s = MultiPerceptron.learningRate_ p)
              (zip inputSet expectedSet) 0%Z p) as (p' & Hpass & _ & Hw & _); [|done|].
  { intros x e s (i & Hx & He)%zip_elem_lookup (Hs & Hsw & Hsl).
    destruct (Hlearned i x e Hx He)
      as (r & q & (Hxl & Hrows & _ & ->)%(multi_classify_Return n) & ->); [|done].
    assert (multi_buffered x s = multi_buffered x p) as Hbuf
      by (unfold multi_buffered; by rewrite Hsw, Hsl).
    rewrite (multi_train_eq n) by (done || by rewrite Hsw). cbv zeta.
    rewrite Hbuf, Z.eqb_refl. eexists. split; [done|]. split; [by exists x|done]. }
  exists p'. split; [|done].
  unfold MultiPerceptron.trainSet. rewrite MultiPerceptron_trainSet_fuel_eq.
  apply pass_trainSet_one_pass; [done..|]. by rewrite pass_train_each.
Qed.

Lemma multi_trainSet_on_learned_data_witness :
  let p := MultiPerceptron.Multi [1; 0]%float [[-1; -5]; [1; 5]]%float 1 in
  ∃ p',
    MultiPerceptron.trainSet [[5%float]; [(-5)%float]] [1%Z; 0%Z] 1
      (Some (λ a b c l, l ++ [(a, b, c)])) (p, [])
    = Return false (p', [(0, 2, 0)%Z]) ∧
    MultiPerceptron.inputWeights_ p' = MultiPerceptron.inputWeights_ p.
Proof.
  apply (multi_trainSet_on_learned_data [] (λ a b c l, l ++ [(a, b, c)]) 1
           (MultiPerceptron.Multi [1; 0]%float [[-1; -5]; [1; 5]]%float 1)
           [[5%float]; [(-5)%float]] [1%Z; 0%Z] 1
           (ex_intro _ [0%float] (conj eq_refl eq_refl)) eq_refl ltac:(lia)).
  intros [|[|i]] input expected [= <-] [= <-].
  - exists 1. eexists. split; reflexivity.
  - exists 0. eexists. split; reflexivity.
Defined.

(** ** [MultiPerceptron.classify]: an index of a class, and no weight touched *)

(** X13.  For a multi-class perceptron with at least one class and every
    input of length n, whatever its components ([NaN] included),
    [classify] returns the index of a class, below the number of
    classes.  It overwrites the input buffer and leaves the weights and
    the learning rate alone; classifying the same input again gives the
    same class and the same state. *)
Theorem multi_classify_in_range (n : nat) (p : MultiPerceptron.t) (input : list float) :
  multi_wf n p → length input = n → MultiPerceptron.inputWeights_ p ≠ [] →
  ∃ r q, MultiPerceptron.classify input p = Return r q ∧
         r < length (MultiPerceptron.inputWeights_ p) ∧
         MultiPerceptron.inputs_ q = 1%float :: input ∧
         MultiPerceptron.inputWeights_ q = MultiPerceptron.inputWeights_ p ∧
         MultiPerceptron.learningRate_ q = MultiPerceptron.learningRate_ p ∧
         MultiPerceptron.classify input q = Return r q.
Proof.
  intros Hwf Hlen Hrows. rewrite (multi_classify_eq n) by done.
  eexists _, _. split; [done|]. split; [by apply (winner_scores_lt (multi_buffered input p))|].
  split; [done|]. split; [done|]. split; [done|].
  by rewrite (multi_classify_eq n) by (done || by exists input).
Qed.

Lemma multi_classify_in_range_witness :
  ∃ r q, MultiPerceptron.classify [nan]
           (MultiPerceptron.Multi [1; 0]%float [[0; 1]; [1; 1]; [1; 1]]%float 1)
         = Return r q ∧
         r < length [[0; 1]; [1; 1]; [1; 1]]%float ∧
         MultiPerceptron.inputs_ q = [1; nan]%float ∧
         MultiPerceptron.inputWeights_ q = [[0; 1]; [1; 1]; [1; 1]]%float ∧
         MultiPerceptron.learningRate_ q = 1%float ∧
         MultiPerceptron.classify [nan] q = Return r q.
Proof.
  exact (multi_classify_in_range 1
           (MultiPerceptron.Multi [1; 0]%float [[0; 1]; [1; 1]; [1; 1]]%float 1) [nan]
           (ex_intro _ [0%float] (conj eq_refl eq_refl)) eq_refl ltac:(done)).
Defined.

(** ** [MultiPerceptron.train] against [classify] *)

(** X14.  On an input of length n, [MultiPerceptron.train] returns true
    exactly when the expected class is the class [classify] returns on
    the same state; it then leaves the state [classify] leaves, weights
    untouched, from which [classify] returns that class again. *)
Theorem multi_train_agrees_with_classify (n : nat) (p : MultiPerceptron.t)
    (input : list float) (expected : Z) :
  multi_wf n p → length input = n → MultiPerceptron.inputWeights_ p ≠ [] →
  ∃ r q, MultiPerceptron.classify input p = Return r q ∧
         (∀ p', MultiPerceptron.train input expected p = Return true p'
                ↔ expected = Z.of_nat r ∧ p' = q) ∧
         (expected = Z.of_nat r → MultiPerceptron.classify input q = Return r q).
Proof.
  intros Hwf Hlen Hrows. rewrite (multi_classify_eq n) by done. eexists _, _.
  split; [done|]. split.
  - intros p'. split.
    + intros (_ & _ & _ & _ & Hb & Hp')%(multi_train_Return n); [|done].
      split; [by apply Hb|by apply Hp'].
    + intros [Heq ->]. rewrite (multi_train_eq n) by done. cbv zeta.
      by rewrite <- Heq, Z.eqb_refl.
  - intros _. by rewrite (multi_classify_eq n) by (done || by exists input).
Qed.

Lemma multi_train_agrees_with_classify_witness :
  ∃ r q, MultiPerceptron.classify [2%float]
           (MultiPerceptron.Multi [1; 0]%float [[0; 1]; [1; 1]]%float 1) = Return r q ∧
         (∀ p', MultiPerceptron.train [2%float] 1
                  (MultiPerceptron.Multi [1; 0]%float [[0; 1]; [1; 1]]%float 1) = Return true p'
                ↔ 1%Z = Z.of_nat r ∧ p' = q) ∧
         (1%Z = Z.of_nat r → MultiPerceptron.classify [2%float] q = Return r q).
Proof.
  exact (multi_train_agrees_with_classify 1
           (MultiPerceptron.Multi [1; 0]%float [[0; 1]; [1; 1]]%float 1) [2%float] 1
           (ex_intro _ [0%float] (conj eq_refl eq_refl)) eq_refl ltac:(done)).
Defined.

(** ** An expected class that is no class *)

(** X15.  [MultiPerceptron.train] with an expected class that is no
    index of a class (negative, or the number of classes or more) throws
    a [TypeError], which is none of the library's own errors; the call
    has overwritten the input buffer and changed no weight. *)
Theorem train_expected_out_of_range (n : nat) (p : MultiPerceptron.t) (input : list float)
    (expected : Z) :
  multi_wf n p → length input = n → MultiPerceptron.inputWeights_ p ≠ [] →
  ¬ (0 ≤ expected < Z.of_nat (length (MultiPerceptron.inputWeights_ p)))%Z →
  MultiPerceptron.train input expected p = Throw TypeError (multi_buffered input p) ∧
  error_kind TypeError = None.
Proof.
  intros Hwf Hlen Hrows Hexp. split; [|done].
  apply (multi_train_out_of_range n); [done..|]. by apply row_at_None.
Qed.

Lemma train_expected_out_of_range_witness :
  MultiPerceptron.train [5%float] 2 (MultiPerceptron.new 1 2 1)
  = Throw TypeError (multi_buffered [5%float] (MultiPerceptron.new 1 2 1)) ∧
  error_kind TypeError = None.
Proof.
  apply (train_expected_out_of_range 1 (MultiPerceptron.new 1 2 1) [5%float] 2
           (ex_intro _ [0%float] (conj eq_refl eq_refl)) eq_refl ltac:(done)).
  simpl. lia.
Defined.

(** ** A perceptron without classes *)

(** X16.  A multi-class perceptron constructed with classCount <= 0 has
    no weight row: [getWeights] returns the empty matrix, [classify] and
    [train] on an input of the right length throw a [TypeError] once the
    buffer is overwritten, [setWeights] of the empty matrix throws a
    [TypeError] too, and [setWeights] of any other matrix throws
    'Cannot change weight dimension'. *)
Theorem perceptron_without_classes (d classCount : Z) (learningRate : float)
    (input : list float) (expected : Z) (weights : list (list float)) :
  (0 ≤ d)%Z → (classCount ≤ 0)%Z → length input = Z.to_nat d →
  let p := MultiPerceptron.new d classCount learningRate in
  MultiPerceptron.getWeights p = Return [] p ∧
  MultiPerceptron.classify input p = Throw TypeError (multi_buffered input p) ∧
  MultiPerceptron.train input expected p = Throw TypeError (multi_buffered input p) ∧
  MultiPerceptron.setWeights [] p = Throw TypeError p ∧
  (weights ≠ [] → MultiPerceptron.setWeights weights p = Throw CannotChangeWeightDimension p).
Proof.
  intros Hd Hc Hlen p.
  assert (MultiPerceptron.inputWeights_ p = []) as Hrows.
  { simpl. by replace (Z.to_nat classCount) with 0 by lia. }
  pose proof (MultiPerceptron_new_wf d classCount learningRate Hd) as Hwf. fold p in Hwf.
  destruct (multi_no_rows_score _ p input expected Hwf Hlen Hrows) as [Ht Hcl].
  split; [unfold MultiPerceptron.getWeights, gets; by rewrite Hrows|].
  split; [done|]. split; [done|].
  unfold MultiPerceptron.setWeights. rewrite Hrows. split; [done|].
  intros Hw. by destruct weights.
Qed.

Lemma perceptron_without_classes_witness :
  let p := MultiPerceptron.new 1 0 1 in
  MultiPerceptron.getWeights p = Return [] p ∧
  MultiPerceptron.classify [5%float] p = Throw TypeError (multi_buffered [5%float] p) ∧
  MultiPerceptron.train [5%float] 0 p = Throw TypeError (multi_buffered [5%float] p) ∧
  MultiPerceptron.setWeights [] p = Throw TypeError p ∧
  ([[0; 0]%float] ≠ [] →
   MultiPerceptron.setWeights [[0; 0]%float] p = Throw CannotChangeWeightDimension p).
Proof.
  apply (perceptron_without_classes 1 0 1 [5%float] 0 [[0; 0]%float]); [lia|lia|reflexivity].
Defined.

(** ** What every call leaves behind *)

Lemma bind_leaves {St A B} (I : St → Prop) (m : js St A) (k : A → js St B) s :
  leaves I (m s) → (∀ a s', I s' → leaves I (k a s')) → leaves I ((m ≫= k) s).
Proof. unfold mbind, js_bind. destruct (m s); simpl; auto. Qed.

Lemma for_loop_leaves {St A} (I : St → Prop) (body : nat → A → js St A) count lo acc s :
  (∀ i a s, I s → leaves I (body i a s)) → I s → leaves I (for_loop count lo body acc s).
Proof.
  intros Hbody. revert lo acc s. induction count as [|count IH]; intros lo acc s HI; [done|].
  simpl. apply bind_leaves; [by apply Hbody|]. intros a s'. apply IH.
Qed.

Lemma this_leaves {St W A} (I : St → Prop) (m : js St A) s (w : W) :
  leaves I (m s) → leaves (λ sw, I sw.1) (this m (s, w)).
Proof. unfold this. by destruct (m s). Qed.

Section Leaves.
Context {St E W : Type}.
Variable train : list float → E → js St bool.
Variable no_expected : E.
Variables (inputSet : list (list float)) (expectedSet : list E).
Variables (maxIterations : Z) (callback : callback_fn W).
Variable I : St → Prop.
Hypothesis train_leaves : ∀ x e s, I s → leaves I (train x e s).

Lemma pass_leaves s :
  I s → leaves I (Passes.pass train no_expected inputSet expectedSet s).
Proof.
  apply for_loop_leaves. intros i a s' Hs'. unfold Passes.pass_example.
  destruct (inputSet !! i) as [x|]; [|done].
  apply bind_leaves; [by apply train_leaves|done].
Qed.

Lemma pass_while_leaves fuel numberFailed iteration s w :
  I s → Z.to_nat (maxIterations - iteration) ≤ fuel →
  leaves (λ sw, I sw.1)
    (Passes.pass_while train no_expected inputSet expectedSet maxIterations callback
       fuel numberFailed iteration (s, w)).
Proof.
  revert numberFailed iteration s w.
  induction fuel as [|fuel IH]; intros nf it s w Hs Hfuel; simpl.
  - destruct (Z.ltb_spec it maxIterations); [lia|]. by rewrite andb_false_r.
  - destruct (negb (nf =? 0)%Z && (it <? maxIterations)%Z) eqn:Hc; [|done].
    apply andb_true_iff in Hc as [_ Hlt%Z.ltb_lt].
    apply bind_leaves; [by apply this_leaves, pass_leaves|].
    intros nf' [s' w'] Hs'. apply bind_leaves; [by destruct callback|].
    intros [] [s'' w''] Hs''. apply IH; [done|lia].
Qed.

Lemma pass_trainSet_leaves s w :
  I s →
  leaves (λ sw, I sw.1)
    (Passes.pass_trainSet train no_expected inputSet expectedSet maxIterations callback
       (Z.to_nat maxIterations) (s, w)).
Proof.
  intros Hs. unfold Passes.pass_trainSet. destruct (negb _); [done|].
  apply bind_leaves; [apply pass_while_leaves; [done|lia]|done].
Qed.

End Leaves.

(** ** The configuration of a binary perceptron *)

Lemma binary_train_leaves n learningRate threshold input expected p :
  configured n learningRate threshold p →
  leaves (configured n learningRate threshold) (BinaryPerceptron.train input expected p).
Proof.
  intros (Hwf & Hl & Ht). destruct (decide (length input = n)) as [Hlen|Hlen].
  - rewrite (BinaryPerceptron_train_eq n) by done. cbv zeta.
    destruct (_ == _)%js; simpl.
    + split; [by apply buffered_wf|done].
    + split; [by apply updated_wf, buffered_wf|done].
  - by rewrite (BinaryPerceptron_train_throws n).
Qed.

Lemma binary_classify_leaves n learningRate threshold input p :
  configured n learningRate threshold p →
  leaves (configured n learningRate threshold) (BinaryPerceptron.classify input p).
Proof.
  intros (Hwf & Hl & Ht). destruct (decide (length input = n)) as [Hlen|Hlen].
  - rewrite (BinaryPerceptron_classify_eq n) by done. split; [by apply buffered_wf|done].
  - by rewrite (BinaryPerceptron_classify_throws n).
Qed.

Lemma Perceptron_trainSet_while_leaves n learningRate threshold inputSet expectedSet
    maxIterations fuel allPassed iteration p :
  configured n learningRate threshold p → Z.to_nat (maxIterations - iteration) ≤ fuel →
  leaves (configured n learningRate threshold)
    (Perceptron.trainSet_while inputSet expectedSet maxIterations fuel allPassed iteration p).
Proof.
  revert allPassed iteration p.
  induction fuel as [|fuel IH]; intros allPassed it p Hp Hfuel; simpl.
  - destruct (Z.ltb_spec it maxIterations); [lia|]. by rewrite andb_false_r.
  - destruct (negb allPassed && (it <? maxIterations)%Z) eqn:Hc; [|done].
    apply andb_true_iff in Hc as [_ Hlt%Z.ltb_lt].
    apply bind_leaves; [|intros a p' Hp'; apply IH; [done|lia]].
    apply for_loop_leaves; [|done]. intros i a s Hs. unfold Perceptron.trainSet_example.
    destruct a; [|done]. destruct (inputSet !! i); [|done]. by apply binary_train_leaves.
Qed.

(** X17.  Every method of [BinaryPerceptron], and [Perceptron.trainSet],
    whether it returns or throws, leaves the perceptron configured as it
    was: a buffer of n + 1 slots with the bias input 1.0 in slot 0,
    n + 1 weights, and the learning rate and threshold given to the
    constructor, which establishes this for inputDimension >= 0.  No
    call stops for lack of fuel. *)
Theorem binary_configuration_kept {W} (w : W) (callback : callback_fn W) (n : nat)
    (learningRate threshold : float) (p : neuron)
    (input weights : list float) (expected : bool)
    (inputSet : list (list float)) (expectedSet : list bool) (maxIterations d : Z) :
  configured n learningRate threshold p →
  ((0 ≤ d)%Z → configured (Z.to_nat d) learningRate threshold
                 (BinaryPerceptron.new d learningRate threshold)) ∧
  leaves (configured n learningRate threshold) (BinaryPerceptron.train input expected p) ∧
  leaves (configured n learningRate threshold) (BinaryPerceptron.classify input p) ∧
  leaves (configured n learningRate threshold) (BinaryPerceptron.getWeights p) ∧
  leaves (configured n learningRate threshold) (BinaryPerceptron.setWeights weights p) ∧
  leaves (λ pw, configured n learningRate threshold pw.1)
    (BinaryPerceptron.trainSet inputSet expectedSet maxIterations callback (p, w)) ∧
  leaves (configured n learningRate threshold)
    (Perceptron.trainSet inputSet expectedSet maxIterations p).
Proof.
  intros Hp. split; [|split; [|split; [|split; [|split; [|split]]]]].
  - intros Hd. split; [by apply BinaryPerceptron_new_wf|done].
  - by apply binary_train_leaves.
  - by apply binary_classify_leaves.
  - done.
  - destruct Hp as ((r & Hin & Hr & Hw) & Hl & Ht).
    unfold BinaryPerceptron.setWeights, mbind, js_bind, gets, modify, throw.
    destruct (Nat.eqb_spec (length weights) (length (inputWeights_ p))) as [Heq|]; simpl.
    + split; [|done]. exists r. simpl. split; [done|]. split; [done|]. congruence.
    + split; [by exists r|done].
  - unfold BinaryPerceptron.trainSet. rewrite BinaryPerceptron_trainSet_fuel_eq.
    apply pass_trainSet_leaves; [|done]. intros x e s. apply binary_train_leaves.
  - unfold Perceptron.trainSet, Perceptron.trainSet_fuel. destruct (negb _); [done|].
    apply bind_leaves; [|done]. apply Perceptron_trainSet_while_leaves; [done|lia].
Qed.

Lemma binary_configuration_kept_witness :
  let p := BinaryPerceptron.new 1 1 0 in
  ((0 ≤ 1)%Z → configured (Z.to_nat 1) 1 0 (BinaryPerceptron.new 1 1 0)) ∧
  leaves (configured 1 1 0) (BinaryPerceptron.train [1%float] true p) ∧
  leaves (configured 1 1 0) (BinaryPerceptron.classify [1%float] p) ∧
  leaves (configured 1 1 0) (BinaryPerceptron.getWeights p) ∧
  leaves (configured 1 1 0) (BinaryPerceptron.setWeights [2; 3; 4]%float p) ∧
  leaves (λ pw : neuron * unit, configured 1 1 0 pw.1)
    (BinaryPerceptron.trainSet [[1%float]; [1; 2]%float] [true; false] 3 None (p, tt)) ∧
  leaves (configured 1 1 0)
    (Perceptron.trainSet [[1%float]; [1; 2]%float] [true; false] 3 p).
Proof.
  exact (binary_configuration_kept tt None 1 1 0 (BinaryPerceptron.new 1 1 0)
           [1%float] [2; 3; 4]%float true [[1%float]; [1; 2]%float] [true; false] 3 1
           (conj (ex_intro _ [0%float] (conj eq_refl (conj eq_refl eq_refl)))
                 (conj eq_refl eq_refl))).
Defined.

(** ** The configuration of a multi-class perceptron *)

Lemma encouraged_length learningRate buffer row :
  length (encouraged learningRate buffer row) = length row.
Proof. apply length_imap. Qed.

Lemma punished_length learningRate buffer row :
  length (punished learningRate buffer row) = length row.
Proof. apply length_imap. Qed.

Lemma multi_buffered_configured n c learningRate input p :
  multi_configured n c learningRate p → length input = n →
  multi_configured n c learningRate (multi_buffered input p).
Proof. intros ((Hwf & Hc) & Hrows & Hl) Hlen. split; [split; [by exists input|done]|done]. Qed.

Lemma multi_train_leaves n c learningRate input expected p :
  multi_configured n c learningRate p →
  leaves (multi_configured n c learningRate) (MultiPerceptron.train input expected p).
Proof.
  intros Hp. pose proof Hp as ((Hwf & Hc) & Hrows & Hl).
  destruct (decide (length input = n)) as [Hlen|Hlen];
    [|by rewrite (multi_train_throws n)].
  pose proof (multi_buffered_configured n c learningRate input p Hp Hlen) as Hq.
  destruct (decide (MultiPerceptron.inputWeights_ p = [])) as [Hnil|Hne].
  { by destruct (multi_no_rows_score n p input expected Hwf Hlen Hnil) as [-> _]. }
  destruct (decide (expected = Z.of_nat (winner (scores (multi_buffered input p)))))
    as [Heq|Hneq].
  - rewrite (multi_train_eq n) by done. cbv zeta. by rewrite <- Heq, Z.eqb_refl.
  - destruct (MultiPerceptron.row_at (MultiPerceptron.inputWeights_ p) expected)
      as [expectedRow|] eqn:Hexp.
    + rewrite (multi_train_false_eq n p input expected expectedRow) by done. simpl.
      split; [split; [by exists input|]|split; [|done]].
      * simpl. by rewrite !length_alter.
      * simpl. apply Forall_alter_length; [apply punished_length|].
        apply Forall_alter_length; [apply encouraged_length|done].
    + by rewrite (multi_train_out_of_range n).
Qed.

Lemma multi_classify_leaves n c learningRate input p :
  multi_configured n c learningRate p →
  leaves (multi_configured n c learningRate) (MultiPerceptron.classify input p).
Proof.
  intros Hp. pose proof Hp as ((Hwf & Hc) & Hrows & Hl).
  destruct (decide (length input = n)) as [Hlen|Hlen];
    [|by rewrite (multi_classify_throws n)].
  pose proof (multi_buffered_configured n c learningRate input p Hp Hlen) as Hq.
  destruct (decide (MultiPerceptron.inputWeights_ p = [])) as [Hnil|Hne].
  { by destruct (multi_no_rows_score n p input 0%Z Hwf Hlen Hnil) as [_ ->]. }
  by rewrite (multi_classify_eq n).
Qed.

(** X18.  [train], [classify], [getWeights] and [trainSet] of
    [MultiPerceptron], whether they return or throw, leave the perceptron
    configured as it was: a buffer of n + 1 slots with 1.0 in slot 0, the
    same number of weight rows, every row of length n + 1, and the
    learning rate given to the constructor, which establishes this for
    inputDimension >= 0. *)
Theorem multi_configuration_kept {W} (w : W) (callback : callback_fn W) (n c : nat)
    (learningRate : float) (p : MultiPerceptron.t) (input : list float) (expected : Z)
    (inputSet : list (list float)) (expectedSet : list Z) (maxIterations d classCount : Z) :
  multi_configured n c learningRate p →
  ((0 ≤ d)%Z → multi_configured (Z.to_nat d) (Z.to_nat classCount) learningRate
                 (MultiPerceptron.new d classCount learningRate)) ∧
  leaves (multi_configured n c learningRate) (MultiPerceptron.train input expected p) ∧
  leaves (multi_configured n c learningRate) (MultiPerceptron.classify input p) ∧
  leaves (multi_configured n c learningRate) (MultiPerceptron.getWeights p) ∧
  leaves (λ pw, multi_configured n c learningRate pw.1)
    (MultiPerceptron.trainSet inputSet expectedSet maxIterations callback (p, w)).
Proof.
  intros Hp. split; [|split; [|split; [|split]]].
  - intros Hd. destruct (MultiPerceptron_new_shape d classCount learningRate Hd) as [Hs Hr].
    done.
  - by apply multi_train_leaves.
  - by apply multi_classify_leaves.
  - done.
  - unfold MultiPerceptron.trainSet. rewrite MultiPerceptron_trainSet_fuel_eq.
    apply pass_trainSet_leaves; [|done]. intros x e s. apply multi_train_leaves.
Qed.

Lemma multi_configuration_kept_witness :
  let p := MultiPerceptron.new 1 2 1 in
  ((0 ≤ 1)%Z → multi_configured (Z.to_nat 1) (Z.to_nat 2) 1 (MultiPerceptron.new 1 2 1)) ∧
  leaves (multi_configured 1 2 1) (MultiPerceptron.train [5%float] 7 p) ∧
  leaves (multi_configured 1 2 1) (MultiPerceptron.classify [5%float] p) ∧
  leaves (multi_configured 1 2 1) (MultiPerceptron.getWeights p) ∧
  leaves (λ pw : MultiPerceptron.t * unit, multi_configured 1 2 1 pw.1)
    (MultiPerceptron.trainSet [[5%float]; [(-5)%float]] [1%Z; 0%Z] 4 None (p, tt)).
Proof.
  apply (multi_configuration_kept tt None 1 2 1 (MultiPerceptron.new 1 2 1)
           [5%float] 7 [[5%float]; [(-5)%float]] [1%Z; 0%Z] 4 1 2).
  split; [split; [by exists [0%float]|reflexivity]|]. split; [|reflexivity].
  repeat constructor.
Defined.

(** ** What the callback is told *)

Section Reports.
Context {St E : Type}.
Variable train : list float → E → js St bool.
Variable no_expected : E.
Variables (inputSet : list (list float)) (expectedSet : list E).

Lemma passes_counts p nfs p' :
  length inputSet = length expectedSet →
  Passes.passes train no_expected inputSet expectedSet p nfs p' →
  Forall (λ nf, 0 ≤ nf ≤ Z.of_nat (length inputSet))%Z nfs.
Proof.
  intros Hlen. induction 1 as [|p nf p1 nfs p' Hp _ IH]; constructor; [|done].
  rewrite pass_train_each in Hp by done. apply train_each_count in Hp.
  rewrite length_zip_with in Hp. lia.
Qed.

Lemma pass_trainSet_log maxIterations fuel p p' (l : list (Z * Z * Z)) b :
  Passes.pass_trainSet train no_expected inputSet expectedSet maxIterations
    (Some (λ a b c l, l ++ [(a, b, c)])) fuel (p, []) = Return b (p', l) →
  Forall (λ '(numberFailed, size, _),
            size = Z.of_nat (length inputSet) ∧ (0 ≤ numberFailed ≤ size)%Z) l ∧
  ((0 ≤ maxIterations)%Z → (Z.of_nat (length l) ≤ maxIterations)%Z) ∧
  ((0 ≤ maxIterations)%Z → b = true →
   ∃ l0 k, l = l0 ++ [(0%Z, Z.of_nat (length inputSet), k)]).
Proof.
  intros Hrun.
  assert (length inputSet = length expectedSet) as Hlen.
  { unfold Passes.pass_trainSet in Hrun.
    destruct (Nat.eqb_spec (length inputSet) (length expectedSet)); [done|]. by simpl in Hrun. }
  apply pass_trainSet_Return in Hrun as (nfs & Hps & Hb & Hd & ->).
  rewrite reported_log. simpl.
  pose proof (passes_counts _ _ _ Hlen Hps) as Hcounts.
  split; [|split].
  - apply Forall_lookup. intros k [[nf size] j]. rewrite list_lookup_imap.
    destruct (nfs !! k) as [nf0|] eqn:Hk; [|done]. simpl. intros [= <- <- <-].
    split; [done|]. rewrite Forall_lookup in Hcounts. by apply (Hcounts k).
  - intros Hmax. rewrite length_imap.
    pose proof (loop_discipline_length _ _ _ _ Hd). lia.
  - intros Hmax ->. symmetry in Hb. apply negb_true_iff, Z.eqb_neq in Hb.
    pose proof (loop_discipline_length _ _ _ _ Hd) as Hle.
    pose proof (loop_discipline_early _ _ _ _ Hd) as Hlast.
    destruct nfs as [|nf nfs _] using rev_ind.
    + simpl in Hlast. assert (Some (-1)%Z = Some 0%Z) as [=] by (apply Hlast; simpl in *; lia).
    + rewrite app_comm_cons, last_snoc in Hlast.
      assert (nf = 0%Z) as ->.
      { assert (Some nf = Some 0%Z) as [=] by (apply Hlast; lia). done. }
      rewrite imap_app. simpl. by eexists _, _.
Qed.

End Reports.

(** X19.  What a callback is told by a [trainSet] call of
    [BinaryPerceptron] or [MultiPerceptron] that returns, with a budget
    maxIterations >= 0: at most maxIterations reports, each with the size
    of the input set and a failure count between 0 and that size; and
    when the call returns true the last report counts no failure. *)
Theorem trainSet_reports_in_range (p p' : neuron) (m m' : MultiPerceptron.t)
    (inputSet : list (list float)) (expectedSet : list bool) (expectedClasses : list Z)
    (maxIterations : Z) (l : list (Z * Z * Z)) (b : bool) :
  let log : callback_fn (list (Z * Z * Z)) := Some (λ a b c l, l ++ [(a, b, c)]) in
  (0 ≤ maxIterations)%Z →
  BinaryPerceptron.trainSet inputSet expectedSet maxIterations log (p, []) = Return b (p', l) ∨
  MultiPerceptron.trainSet inputSet expectedClasses maxIterations log (m, []) = Return b (m', l) →
  Forall (λ '(numberFailed, size, _),
            size = Z.of_nat (length inputSet) ∧ (0 ≤ numberFailed ≤ size)%Z) l ∧
  (Z.of_nat (length l) ≤ maxIterations)%Z ∧
  (b = true → ∃ l0 k, l = l0 ++ [(0%Z, Z.of_nat (length inputSet), k)]).
Proof.
  cbv zeta. intros Hmax. unfold BinaryPerceptron.trainSet, MultiPerceptron.trainSet.
  rewrite BinaryPerceptron_trainSet_fuel_eq, MultiPerceptron_trainSet_fuel_eq.
  intros [(H1 & H2 & H3)%pass_trainSet_log|(H1 & H2 & H3)%pass_trainSet_log]; auto.
Qed.

Lemma trainSet_reports_in_range_witness :
  Forall (λ '(numberFailed, size, _),
            size = Z.of_nat (length [[1%float]; [(-3)%float]]) ∧ (0 ≤ numberFailed ≤ size)%Z)
    [(2, 2, 0); (1, 2, 1); (0, 2, 2)]%Z ∧
  (Z.of_nat (length [(2, 2, 0); (1, 2, 1); (0, 2, 2)]%Z) ≤ 4)%Z ∧
  (true = true →
   ∃ l0 k, [(2, 2, 0); (1, 2, 1); (0, 2, 2)]%Z
           = l0 ++ [(0%Z, Z.of_nat (length [[1%float]; [(-3)%float]]), k)]).
Proof.
  apply (trainSet_reports_in_range
           (BinaryPerceptron.new 1 1 0) (Neuron [1; -3]%float [3; -1]%float 1 0)
           (MultiPerceptron.new 1 2 1) (MultiPerceptron.new 1 2 1)
           [[1%float]; [(-3)%float]] [true; true] [1%Z; 0%Z] 4
           [(2, 2, 0); (1, 2, 1); (0, 2, 2)]%Z true); [lia|].
  left. reflexivity.
Defined.

(** ** A weight that is [NaN] *)

Lemma add_nan x : (x + nan)%float = nan.
Proof.
  pose proof (add_spec x nan) as Hadd.
  rewrite <- (SF2Prim_Prim2SF (x + nan)), Hadd.
  change (Prim2SF nan) with S754_nan. by destruct (Prim2SF x).
Qed.

Lemma nan_mul y : (nan * y)%float = nan.
Proof.
  pose proof (mul_spec nan y) as Hmul.
  rewrite <- (SF2Prim_Prim2SF (nan * y)), Hmul.
  change (Prim2SF nan) with S754_nan. reflexivity.
Qed.

Lemma foldl_score_nan (wxs : list (float * float)) :
  foldl (λ score wx, (score + wx.1 * wx.2)%js) nan wxs = nan.
Proof. induction wxs as [|wx wxs IH]; [done|]. simpl. by rewrite nan_add. Qed.

(** One [NaN] weight makes the score [NaN], whatever the input. *)
Lemma dot_nan (ws xs : list float) (i : nat) :
  ws !! i = Some nan → i < length xs → dot ws xs = nan.
Proof.
  unfold dot. generalize 0%float as acc. revert xs i.
  induction ws as [|w ws IH]; intros xs i acc Hi Hlt; [done|].
  destruct xs as [|x xs]; simpl in Hlt; [lia|]. simpl. destruct i as [|i].
  - injection Hi as ->. by rewrite nan_mul, add_nan, foldl_score_nan.
  - apply (IH xs i); [done|lia].
Qed.

Lemma binary_train_nan n p input expected i :
  neuron_wf n p → inputWeights_ p !! i = Some nan → length input = n →
  ∃ p', BinaryPerceptron.train input expected p = Return (negb expected) p' ∧
        neuron_wf n p' ∧ inputWeights_ p' !! i = Some nan.
Proof.
  intros Hwf Hnan Hlen. pose proof Hwf as (r & Hin & Hr & Hw).
  rewrite (BinaryPerceptron_train_eq n) by done. cbv zeta.
  rewrite (buffered_score n) by done.
  rewrite (dot_nan _ _ i) by (done || apply lookup_lt_Some in Hnan; simpl; lia).
  rewrite gt_nan. destruct expected; simpl.
  - eexists. split; [done|]. split; [by apply updated_wf, buffered_wf|].
    simpl. rewrite lookup_zip_with, Hnan. simpl.
    destruct ((1%float :: input) !! i) as [x|] eqn:Hx.
    + simpl. by rewrite nan_add.
    + apply lookup_ge_None in Hx. apply lookup_lt_Some in Hnan. simpl in Hx. lia.
  - eexists. split; [done|]. split; [by apply buffered_wf|done].
Qed.

Lemma binary_train_nan_leaves n p input expected i :
  neuron_wf n p ∧ inputWeights_ p !! i = Some nan →
  leaves (λ q, neuron_wf n q ∧ inputWeights_ q !! i = Some nan)
    (BinaryPerceptron.train input expected p).
Proof.
  intros [Hwf Hnan]. destruct (decide (length input = n)) as [Hlen|Hlen].
  - by destruct (binary_train_nan n p input expected i Hwf Hnan Hlen) as (p' & -> & ?).
  - by rewrite (BinaryPerceptron_train_throws n).
Qed.

(** X20.  A weight that is [NaN] stays [NaN].  On a binary perceptron with
    such a weight every input of length n is classified as false, [train]
    returns true exactly when false is expected and leaves the weight
    [NaN], [trainSet] leaves it [NaN] however it ends, and, given a
    budget maxIterations >= 0 and a set with an example expected true,
    [trainSet] never returns true. *)
Theorem nan_weight_is_absorbing {W} (w : W) (callback : callback_fn W) (n : nat) (p : neuron)
    (i : nat) (input : list float)
    (inputSet : list (list float)) (expectedSet : list bool) (maxIterations : Z) :
  neuron_wf n p → inputWeights_ p !! i = Some nan → length input = n →
  BinaryPerceptron.classify input p = Return false (buffered input p) ∧
  (∀ expected, ∃ p', BinaryPerceptron.train input expected p = Return (negb expected) p' ∧
                     inputWeights_ p' !! i = Some nan) ∧
  leaves (λ pw, inputWeights_ pw.1 !! i = Some nan)
    (BinaryPerceptron.trainSet inputSet expectedSet maxIterations callback (p, w)) ∧
  ((0 ≤ maxIterations)%Z → true ∈ expectedSet → length inputSet = length expectedSet →
   ∀ p' w', BinaryPerceptron.trainSet inputSet expectedSet maxIterations callback (p, w)
            ≠ Return true (p', w')).
Proof.
  intros Hwf Hnan Hlen. split; [|split; [|split]].
  - rewrite (BinaryPerceptron_classify_eq n), (buffered_score n) by done.
    rewrite (dot_nan _ _ i) by (done || apply lookup_lt_Some in Hnan;
                                 destruct Hwf as (r & _ & Hr & Hw); simpl; lia).
    by rewrite gt_nan.
  - intros expected.
    destruct (binary_train_nan n p input expected i Hwf Hnan Hlen) as (p' & Ht & _ & Hp').
    by exists p'.
  - unfold BinaryPerceptron.trainSet. rewrite BinaryPerceptron_trainSet_fuel_eq.
    pose proof (pass_trainSet_leaves BinaryPerceptron.train false inputSet expectedSet
                  maxIterations callback
                  (λ q, neuron_wf n q ∧ inputWeights_ q !! i = Some nan)
                  (λ x e s, binary_train_nan_leaves n s x e i) p w (conj Hwf Hnan)) as Hl.
    destruct (Passes.pass_trainSet _ _ _ _ _ _ _ _) as [b [q v]|e [q v]|]; [|by destruct Hl|done].
    by destruct Hl.
  - intros Hmax [j Hj]%list_elem_of_lookup_1 Hsets p' w' Hrun.
    destruct (lookup_lt_is_Some_2 inputSet j) as [x Hx].
    { rewrite Hsets. by eapply lookup_lt_Some. }
    unfold BinaryPerceptron.trainSet in Hrun. rewrite BinaryPerceptron_trainSet_fuel_eq in Hrun.
    pose proof (pass_trainSet_leaves BinaryPerceptron.train false inputSet expectedSet
                  maxIterations callback
                  (λ q, neuron_wf n q ∧ inputWeights_ q !! i = Some nan)
                  (λ x e s, binary_train_nan_leaves n s x e i) p w (conj Hwf Hnan)) as Hl.
    rewrite Hrun in Hl. destruct Hl as [Hwf' Hnan'].
    destruct (pass_trainSet_true_clean BinaryPerceptron.train (neuron_wf n)
                (λ x e s b s' Hs, BinaryPerceptron_train_wf n s x e b s' Hs)
                (λ x e s, ∃ q, BinaryPerceptron.classify x s = Return e q)
                (λ x e s s' Hs, binary_train_true_classifies n s x e s' Hs)
                (λ x e y e' s s' Hs, binary_train_true_stable n s x e y e' s' Hs)
                false inputSet expectedSet maxIterations callback _ p w p' w'
                Hmax Hwf Hrun j x true Hx Hj) as [q Hq].
    apply (binary_classify_Return n) in Hq as (Hxl & _ & Hc); [|done].
    rewrite (buffered_score n) in Hc by done.
    rewrite (dot_nan _ _ i) in Hc
      by (done || apply lookup_lt_Some in Hnan'; destruct Hwf' as (r & _ & Hr & Hw); simpl; lia).
    by rewrite gt_nan in Hc.
Qed.

Lemma nan_weight_is_absorbing_witness :
  let p := Neuron [1; 0]%float [0; nan]%float 1 0 in
  BinaryPerceptron.classify [2%float] p = Return false (buffered [2%float] p) ∧
  (∀ expected, ∃ p', BinaryPerceptron.train [2%float] expected p = Return (negb expected) p' ∧
                     inputWeights_ p' !! 1 = Some nan) ∧
  leaves (λ pw : neuron * unit, inputWeights_ pw.1 !! 1 = Some nan)
    (BinaryPerceptron.trainSet [[2%float]] [true] 3 None (p, tt)) ∧
  ((0 ≤ 3)%Z → true ∈ [true] → length [[2%float]] = length [true] →
   ∀ p' w', BinaryPerceptron.trainSet [[2%float]] [true] 3 None (p, tt)
            ≠ Return true (p', w')).
Proof.
  exact (nan_weight_is_absorbing tt None 1 (Neuron [1; 0]%float [0; nan]%float 1 0) 1
           [2%float] [[2%float]] [true] 3
           (ex_intro _ [0%float] (conj eq_refl (conj eq_refl eq_refl))) eq_refl eq_refl).
Defined.

(** ** A larger budget *)

Section Budget.
Context {St E W : Type}.
Variable train : list float → E → js St bool.
Variable no_expected : E.
Variables (inputSet : list (list float)) (expectedSet : list E).
Variable callback : callback_fn W.

(** A run that stops with budget left stops at the same point under any
    larger budget. *)
Lemma pass_while_budget maxIterations maxIterations' fuel fuel' numberFailed iteration s
    iteration' s' :
  Passes.pass_while train no_expected inputSet expectedSet maxIterations callback
    fuel numberFailed iteration s = Return iteration' s' →
  (iteration' < maxIterations)%Z → (maxIterations ≤ maxIterations')%Z →
  Z.to_nat (maxIterations' - iteration) ≤ fuel' →
  Passes.pass_while train no_expected inputSet expectedSet maxIterations' callback
    fuel' numberFailed iteration s = Return iteration' s'.
Proof.
  intros Hrun Hlt Hle. revert fuel' numberFailed iteration s Hrun.
  induction fuel as [|fuel IH]; intros fuel' nf it [p w]; simpl.
  - destruct (negb (nf =? 0)%Z && (it <? maxIterations)%Z) eqn:Hc; [done|].
    intros [= -> <-] _. apply andb_false_iff in Hc as [Hc|Hc%Z.ltb_ge]; [|lia].
    destruct fuel'; simpl; by rewrite Hc.
  - destruct (negb (nf =? 0)%Z && (it <? maxIterations)%Z) eqn:Hc.
    + apply andb_true_iff in Hc as [Hnz Hit%Z.ltb_lt]. intros Hrun Hfuel'.
      destruct fuel' as [|fuel']; [lia|]. simpl. rewrite Hnz.
      replace (it <? maxIterations')%Z with true by (symmetry; apply Z.ltb_lt; lia).
      simpl. revert Hrun. unfold mbind, js_bind.
      destruct (this _ (p, w)) as [nf1 [p1 w1]| |]; [|done|done].
      destruct (call _ _ _ _ _) as [[] [p2 w2]| |]; [|done|done].
      intros Hrun. apply IH; [done|lia].
    + intros [= -> <-] _. apply andb_false_iff in Hc as [Hc|Hc%Z.ltb_ge]; [|lia].
      destruct fuel'; simpl; by rewrite Hc.
Qed.

Lemma pass_trainSet_budget maxIterations maxIterations' p w p' w' :
  (0 ≤ maxIterations ≤ maxIterations')%Z →
  Passes.pass_trainSet train no_expected inputSet expectedSet maxIterations callback
    (Z.to_nat maxIterations) (p, w) = Return true (p', w') →
  Passes.pass_trainSet train no_expected inputSet expectedSet maxIterations' callback
    (Z.to_nat maxIterations') (p, w) = Return true (p', w').
Proof.
  intros Hmax. unfold Passes.pass_trainSet. destruct (negb _); [done|].
  unfold mbind, js_bind.
  destruct (Passes.pass_while _ _ _ _ maxIterations _ _ _ _ _) as [it [q v]| |] eqn:Hw;
    [|done|done].
  intros [= Hb <- <-]. apply negb_true_iff, Z.eqb_neq in Hb.
  assert (it < maxIterations)%Z as Hlt.
  { apply pass_while_Return in Hw as (nfs & _ & -> & Hd & _).
    pose proof (loop_discipline_length _ _ _ _ Hd). lia. }
  rewrite (pass_while_budget maxIterations maxIterations' _ _ _ _ _ _ _ Hw) by lia.
  simpl. f_equal. apply negb_true_iff, Z.eqb_neq. lia.
Qed.

End Budget.

Lemma Perceptron_trainSet_while_budget inputSet expectedSet maxIterations maxIterations'
    fuel fuel' allPassed iteration p iteration' p' :
  Perceptron.trainSet_while inputSet expectedSet maxIterations fuel allPassed iteration p
  = Return iteration' p' →
  (iteration ≤ maxIterations)%Z →
  (iteration' < maxIterations)%Z → (maxIterations ≤ maxIterations')%Z →
  Z.to_nat (maxIterations' - iteration) ≤ fuel' →
  Perceptron.trainSet_while inputSet expectedSet maxIterations' fuel' allPassed iteration p
  = Return iteration' p'.
Proof.
  intros Hrun Hit Hlt Hle. revert fuel' allPassed iteration p Hit Hrun.
  induction fuel as [|fuel IH]; intros fuel' allPassed it p Hit; simpl.
  - destruct (negb allPassed && (it <? maxIterations)%Z) eqn:Hc; [done|].
    intros [= -> <-] _. apply andb_false_iff in Hc as [Hc|Hc%Z.ltb_ge]; [|lia].
    destruct fuel'; simpl; by rewrite Hc.
  - destruct (negb allPassed && (it <? maxIterations)%Z) eqn:Hc.
    + apply andb_true_iff in Hc as [Hnz Hit'%Z.ltb_lt]. intros Hrun Hfuel'.
      destruct fuel' as [|fuel']; [lia|]. simpl. rewrite Hnz.
      replace (it <? maxIterations')%Z with true by (symmetry; apply Z.ltb_lt; lia).
      simpl. revert Hrun. unfold mbind, js_bind.
      destruct (for_loop _ _ _ _ _) as [ap p1| |]; [|done|done].
      intros Hrun. apply IH; [lia|done|lia].
    + intros [= -> <-] _. apply andb_false_iff in Hc as [Hc|Hc%Z.ltb_ge]; [|lia].
      destruct fuel'; simpl; by rewrite Hc.
Qed.

Lemma Perceptron_trainSet_while_le inputSet expectedSet maxIterations fuel allPassed
    iteration p iteration' p' :
  Perceptron.trainSet_while inputSet expectedSet maxIterations fuel allPassed iteration p
  = Return iteration' p' →
  (iteration ≤ maxIterations)%Z → (iteration' ≤ maxIterations)%Z.
Proof.
  revert allPassed iteration p. induction fuel as [|fuel IH]; intros allPassed it p; simpl.
  - destruct (negb allPassed && (it <? maxIterations)%Z); [done|]. by intros [= -> _].
  - destruct (negb allPassed && (it <? maxIterations)%Z) eqn:Hc; [|by intros [= -> _]].
    apply andb_true_iff in Hc as [_ Hit%Z.ltb_lt]. unfold mbind, js_bind.
    destruct (for_loop _ _ _ _ _) as [ap p1| |]; [|done|done].
    intros Hrun _. apply (IH _ _ _ Hrun). lia.
Qed.

(** X21.  A [trainSet] call of any of the three classes that returns
    true with a budget maxIterations >= 0 returns true, and leaves the
    same perceptron and the same callback state, with every larger
    budget. *)
Theorem larger_budget_same_result {W} (w w' : W) (callback : callback_fn W)
    (p p' : neuron) (m m' : MultiPerceptron.t)
    (inputSet : list (list float)) (expectedSet : list bool) (expectedClasses : list Z)
    (maxIterations maxIterations' : Z) :
  (0 ≤ maxIterations ≤ maxIterations')%Z →
  (BinaryPerceptron.trainSet inputSet expectedSet maxIterations callback (p, w)
   = Return true (p', w') →
   BinaryPerceptron.trainSet inputSet expectedSet maxIterations' callback (p, w)
   = Return true (p', w')) ∧
  (Perceptron.trainSet inputSet expectedSet maxIterations p = Return true p' →
   Perceptron.trainSet inputSet expectedSet maxIterations' p = Return true p') ∧
  (MultiPerceptron.trainSet inputSet expectedClasses maxIterations callback (m, w)
   = Return true (m', w') →
   MultiPerceptron.trainSet inputSet expectedClasses maxIterations' callback (m, w)
   = Return true (m', w')).
Proof.
  intros Hmax. unfold BinaryPerceptron.trainSet, MultiPerceptron.trainSet.
  rewrite !BinaryPerceptron_trainSet_fuel_eq, !MultiPerceptron_trainSet_fuel_eq.
  split; [by apply pass_trainSet_budget|]. split; [|by apply pass_trainSet_budget].
  unfold Perceptron.trainSet, Perceptron.trainSet_fuel. destruct (negb _); [done|].
  unfold mbind, js_bind.
  destruct (Perceptron.trainSet_while _ _ maxIterations _ _ _ _) as [it q| |] eqn:Hw;
    [|done|done].
  intros [= Hb <-]. apply negb_true_iff, Z.eqb_neq in Hb.
  pose proof (Perceptron_trainSet_while_le _ _ _ _ _ _ _ _ _ Hw) as Hle.
  rewrite (Perceptron_trainSet_while_budget _ _ maxIterations maxIterations' _ _ _ _ _ _ _ Hw)
    by lia.
  simpl. f_equal. apply negb_true_iff, Z.eqb_neq. lia.
Qed.

Lemma larger_budget_same_result_witness :
  let log : callback_fn (list (Z * Z * Z)) := Some (λ a b c l, l ++ [(a, b, c)]) in
  let inputSet := [[5%float]; [(-5)%float]] in
  BinaryPerceptron.trainSet inputSet [true; false] 9 log (BinaryPerceptron.new 1 1 0, [])
  = Return true (Neuron [1; -5]%float [1; 5]%float 1 0, [(1, 2, 0); (0, 2, 1)]%Z) ∧
  Perceptron.trainSet inputSet [true; false] 9 (BinaryPerceptron.new 1 1 0)
  = Return true (Neuron [1; -5]%float [1; 5]%float 1 0) ∧
  MultiPerceptron.trainSet inputSet [1%Z; 0%Z] 9 log (MultiPerceptron.new 1 2 1, [])
  = Return true (MultiPerceptron.Multi [1; -5]%float [[-1; -5]; [1; 5]]%float 1,
                 [(1, 2, 0); (0, 2, 1)]%Z).
Proof.
  cbv zeta.
  pose proof (larger_budget_same_result [] [(1, 2, 0); (0, 2, 1)]%Z
                (Some (λ a b c l, l ++ [(a, b, c)]))
                (BinaryPerceptron.new 1 1 0) (Neuron [1; -5]%float [1; 5]%float 1 0)
                (MultiPerceptron.new 1 2 1)
                (MultiPerceptron.Multi [1; -5]%float [[-1; -5]; [1; 5]]%float 1)
                [[5%float]; [(-5)%float]] [true; false] [1%Z; 0%Z] 4 9 ltac:(lia))
    as (HB & HP & HM).
  split; [apply HB; reflexivity|]. split; [apply HP; reflexivity|apply HM; reflexivity].
Defined.

(** ** A pass without failure, made again *)

Section CleanPass.
Context {St E : Type}.
Variable train : list float → E → js St bool.
Variable I : St → Prop.
Variable buffer : list float → St → St.
Hypothesis train_keeps : ∀ x e s b s', I s → train x e s = Return b s' → I s'.
Hypothesis train_true_buffer :
  ∀ x e s s', I s → train x e s = Return true s' → s' = buffer x s.
Hypothesis train_true_again :
  ∀ x e y s s', I s → I (buffer y s) → train x e s = Return true s' →
                train x e (buffer y s) = Return true s'.
Hypothesis buffer_buffer : ∀ x y s, buffer x (buffer y s) = buffer x s.

(** A pass without failure leaves the state it found, the last input in
    the buffer. *)
Lemma train_each_clean_end (examples : list (list float * E)) numberFailed s s' :
  I s → train_each train examples numberFailed s = Return numberFailed s' →
  s' = match last examples with None => s | Some xe => buffer xe.1 s end.
Proof.
  revert s. induction examples as [|[x e] rest IH]; intros s HI.
  - simpl. by intros [= <-].
  - intros (s1 & Ht & Hrest)%train_each_head.
    pose proof (train_true_buffer x e s s1 HI Ht) as ->.
    apply IH in Hrest; [|by apply (train_keeps x e s true)].
    destruct rest as [|xe rest]; [exact Hrest|]. rewrite last_cons_cons.
    destruct (last (xe :: rest)) as [xe'|] eqn:Hlast; [|by apply last_None in Hlast].
    by rewrite buffer_buffer in Hrest.
Qed.

Lemma train_each_clean_again (examples : list (list float * E)) numberFailed s s' :
  I s → train_each train examples numberFailed s = Return numberFailed s' →
  train_each train examples numberFailed s' = Return numberFailed s'.
Proof.
  intros HI Hrun. pose proof (train_each_keeps train I train_keeps _ _ _ _ _ HI Hrun) as HI'.
  pose proof (train_each_clean_end _ _ _ _ HI Hrun) as Hend.
  destruct examples as [|[x e] rest]; [simpl in *; congruence|].
  destruct (last ((x, e) :: rest)) as [[y e']|] eqn:Hlast;
    [|by apply last_None in Hlast].
  simpl in Hend. apply train_each_head in Hrun as Hhead. destruct Hhead as (s1 & Ht & Hrest).
  cbn [train_each]. unfold mbind, js_bind. rewrite Hend at 1.
  rewrite (train_true_again x e y s s1) by (done || by rewrite <- Hend). done.
Qed.

Lemma clean_pass_again (no_expected : E) inputSet expectedSet p p' :
  length inputSet = length expectedSet → I p →
  Passes.pass train no_expected inputSet expectedSet p = Return 0%Z p' →
  Passes.pass train no_expected inputSet expectedSet p' = Return 0%Z p'.
Proof.
  intros Hlen HI. rewrite !pass_train_each by done. by apply train_each_clean_again.
Qed.

End CleanPass.

(** ** Training in instalments *)

Section Instalments.
Context {St E W : Type}.
Variable train : list float → E → js St bool.
Variable no_expected : E.
Variables (inputSet : list (list float)) (expectedSet : list E).
Variable f : Z → Z → Z → W → W.

#[local] Abbreviation passes := (Passes.passes train no_expected inputSet expectedSet).

(** The loop executes every run of passes that obeys its discipline. *)
Lemma pass_while_complete maxIterations fuel numberFailed iteration p w nfs p' :
  passes p nfs p' → Passes.loop_discipline maxIterations numberFailed iteration nfs →
  Z.to_nat (maxIterations - iteration) ≤ fuel →
  Passes.pass_while train no_expected inputSet expectedSet maxIterations (Some f)
    fuel numberFailed iteration (p, w)
  = Return (iteration + Z.of_nat (length nfs))%Z
      (p', Passes.reported inputSet f iteration nfs w).
Proof.
  intros Hps. revert fuel numberFailed iteration w.
  induction Hps as [p|p nf1 p1 nfs p' Hp _ IH]; intros fuel nf it w Hd Hfuel.
  - simpl in Hd. rewrite Z.add_0_r.
    assert (negb (nf =? 0)%Z && (it <? maxIterations)%Z = false) as Hc.
    { destruct Hd as [->|Hd]; [done|]. apply andb_false_iff. right. by apply Z.ltb_ge. }
    destruct fuel; simpl; by rewrite Hc.
  - simpl in Hd. destruct Hd as (Hnz & Hlt & Hd).
    destruct fuel as [|fuel]; [lia|]. simpl.
    replace (nf =? 0)%Z with false by (symmetry; by apply Z.eqb_neq).
    replace (it <? maxIterations)%Z with true by (symmetry; by apply Z.ltb_lt).
    simpl. unfold mbind, js_bind, this. rewrite Hp. simpl.
    rewrite IH by (done || lia). f_equal. lia.
Qed.

Lemma passes_app p nfs1 p1 nfs2 p2 :
  passes p nfs1 p1 → passes p1 nfs2 p2 → passes p (nfs1 ++ nfs2) p2.
Proof. induction 1; [done|]. intros Hps. simpl. econstructor; eauto. Qed.

(** The discipline looks at the count it starts from only to tell zero
    from another number, and at iteration and budget only through their
    difference. *)
Lemma loop_discipline_shift maxIterations maxIterations' numberFailed numberFailed'
    iteration iteration' nfs :
  (numberFailed = 0 ↔ numberFailed' = 0)%Z →
  (maxIterations - iteration = maxIterations' - iteration')%Z →
  Passes.loop_discipline maxIterations numberFailed iteration nfs →
  Passes.loop_discipline maxIterations' numberFailed' iteration' nfs.
Proof.
  revert numberFailed numberFailed' iteration iteration'.
  induction nfs as [|nf nfs IH]; intros nf0 nf0' it it' Hnf Hd; simpl.
  - intros [?|?]; [left; by apply Hnf|right; lia].
  - intros (Hnz & Hlt & Hrest). split; [by rewrite <- Hnf|]. split; [lia|].
    apply (IH nf nf (it + 1)%Z); [done|lia|done].
Qed.

(** A run that ends on a pass without failure obeys the discipline of
    every larger budget. *)
Lemma loop_discipline_converged maxIterations maxIterations' numberFailed iteration nfs :
  Passes.loop_discipline maxIterations numberFailed iteration nfs →
  last (numberFailed :: nfs) = Some 0%Z → (maxIterations ≤ maxIterations')%Z →
  Passes.loop_discipline maxIterations' numberFailed iteration nfs.
Proof.
  revert numberFailed iteration. induction nfs as [|nf nfs IH]; intros nf0 it; simpl.
  - intros _ [= ->] _. by left.
  - intros (Hnz & Hlt & Hrest) Hlast Hle. split; [done|]. split; [lia|]. by apply IH.
Qed.

(** A run that does not end on a pass without failure goes on under a
    larger budget. *)
Lemma loop_discipline_app maxIterations maxIterations' numberFailed iteration nfs1 nfs2 :
  Passes.loop_discipline maxIterations numberFailed iteration nfs1 →
  (maxIterations ≤ maxIterations')%Z →
  Passes.loop_discipline maxIterations' (default numberFailed (last nfs1))
    (iteration + Z.of_nat (length nfs1))%Z nfs2 →
  Passes.loop_discipline maxIterations' numberFailed iteration (nfs1 ++ nfs2).
Proof.
  revert numberFailed iteration. induction nfs1 as [|nf nfs1 IH]; intros nf0 it; simpl.
  - intros _ _. by rewrite Z.add_0_r.
  - intros (Hnz & Hlt & Hrest) Hle Hd2. split; [done|]. split; [lia|].
    apply IH; [done..|]. replace (it + 1 + Z.of_nat (length nfs1))%Z
      with (it + Z.of_nat (S (length nfs1)))%Z by lia.
    replace (default nf (last nfs1)) with (default nf0 (last (nf :: nfs1))); [exact Hd2|].
    destruct nfs1 as [|nf' nfs1 _] using rev_ind; [done|].
    by rewrite app_comm_cons, !last_snoc.
Qed.

Variable I : St → Prop.
Hypothesis train_keeps : ∀ x e s b s', I s → train x e s = Return b s' → I s'.
Hypothesis clean_pass_repeats :
  ∀ p p', length inputSet = length expectedSet → I p →
          Passes.pass train no_expected inputSet expectedSet p = Return 0%Z p' →
          Passes.pass train no_expected inputSet expectedSet p' = Return 0%Z p'.

Lemma pass_trainSet_instalments m k p w b1 p1 w1 v1 b2 p2 w2 :
  (0 ≤ m)%Z → (0 ≤ k)%Z → I p →
  Passes.pass_trainSet train no_expected inputSet expectedSet m (Some f) (Z.to_nat m) (p, w)
  = Return b1 (p1, w1) →
  Passes.pass_trainSet train no_expected inputSet expectedSet k (Some f) (Z.to_nat k) (p1, v1)
  = Return b2 (p2, w2) →
  ∃ b w', Passes.pass_trainSet train no_expected inputSet expectedSet (m + k) (Some f)
            (Z.to_nat (m + k)) (p, w) = Return b (p2, w') ∧
          (b2 = true → b = true).
Proof.
  intros Hm Hk HI Hrun1 Hrun2.
  assert (length inputSet = length expectedSet) as Hlen.
  { unfold Passes.pass_trainSet in Hrun1.
    destruct (Nat.eqb_spec (length inputSet) (length expectedSet)); [done|]. by simpl in Hrun1. }
  apply pass_trainSet_Return in Hrun1 as (nfs1 & Hps1 & -> & Hd1 & _).
  apply pass_trainSet_Return in Hrun2 as (nfs2 & Hps2 & -> & Hd2 & _).
  pose proof (loop_discipline_length _ _ _ _ Hd1) as Hle1.
  pose proof (loop_discipline_length _ _ _ _ Hd2) as Hle2.
  assert (∀ nfs q, passes p nfs q → Passes.loop_discipline (m + k) (-1) 0 nfs →
            Passes.pass_trainSet train no_expected inputSet expectedSet (m + k) (Some f)
              (Z.to_nat (m + k)) (p, w)
            = Return (negb (Z.of_nat (length nfs) =? m + k)%Z)
                (q, Passes.reported inputSet f 0 nfs w)) as Hsingle.
  { intros nfs q Hps Hd. unfold Passes.pass_trainSet, mbind, js_bind.
    apply Nat.eqb_eq in Hlen. rewrite Hlen. change (negb true) with false. cbv beta iota.
    by rewrite (pass_while_complete (m + k) _ (-1) 0 p w nfs q) by (done || lia). }
  destruct (decide (last ((-1)%Z :: nfs1) = Some 0%Z)) as [Hconv|Hgo].
  - (* the first instalment has ended on a pass without failure *)
    assert (p2 = p1 ∧ (nfs2 = [] ∨ nfs2 = [0%Z])) as [-> Hnfs2].
    { destruct nfs1 as [|nf nfs1 _] using rev_ind; [done|].
      rewrite app_comm_cons, last_snoc in Hconv. injection Hconv as ->.
      apply passes_snoc_inv in Hps1 as (p0 & Hps0 & Hp0).
      assert (I p0) as HI0 by (by eapply (passes_keeps train I train_keeps)).
      pose proof (clean_pass_repeats p0 p1 Hlen HI0 Hp0) as Hp1.
      destruct Hps2 as [|q nf q1 nfs q2 Hq Hrest]; [by auto|].
      rewrite Hp1 in Hq. injection Hq as <- <-.
      destruct Hrest as [|q nf q1 nfs q2 Hq Hrest]; [by auto|].
      simpl in Hd2. lia. }
    exists (negb (Z.of_nat (length nfs1) =? m + k)%Z), (Passes.reported inputSet f 0 nfs1 w).
    split.
    + apply Hsingle; [done|]. apply (loop_discipline_converged m); [done..|lia].
    + rewrite !negb_true_iff, !Z.eqb_neq. intros Hne.
      destruct Hnfs2 as [->| ->]; simpl in *; [lia|].
      destruct nfs1 as [|nf nfs1 _] using rev_ind; [done|].
      destruct (decide (Z.of_nat (length (nfs1 ++ [nf])) < m)%Z); [lia|].
      assert (k ≠ 1)%Z by lia. lia.
  - (* the first instalment has used up its budget *)
    assert (Z.of_nat (length nfs1) = m) as Hlen1.
    { destruct (decide (Z.of_nat (length nfs1) < m)%Z) as [Hlt|]; [|lia].
      by pose proof (loop_discipline_early _ _ _ _ Hd1 ltac:(lia)). }
    exists (negb (Z.of_nat (length (nfs1 ++ nfs2)) =? m + k)%Z),
           (Passes.reported inputSet f 0 (nfs1 ++ nfs2) w).
    split.
    + apply Hsingle; [by eapply passes_app|].
      apply (loop_discipline_app m); [done|lia|].
      apply (loop_discipline_shift k _ (-1)%Z _ 0%Z); [|lia|done].
      split; [done|]. intros Hz. exfalso. apply Hgo.
      destruct nfs1 as [|nf nfs1 _] using rev_ind; [done|].
      rewrite last_snoc in Hz. simpl in Hz. subst nf.
      by rewrite app_comm_cons, last_snoc.
    + rewrite !negb_true_iff, !Z.eqb_neq, length_app. lia.
Qed.

End Instalments.

Lemma binary_train_true_again n x e y s s' :
  neuron_wf n s → neuron_wf n (buffered y s) →
  BinaryPerceptron.train x e s = Return true s' →
  BinaryPerceptron.train x e (buffered y s) = Return true s'.
Proof.
  intros Hwf Hwf' (Hlen & -> & He)%(binary_train_true n); [|done].
  rewrite (BinaryPerceptron_train_eq n) by done. cbv zeta.
  change (buffered x (buffered y s)) with (buffered x s).
  change (threshold_ (buffered y s)) with (threshold_ s).
  by rewrite expected_eq_result, <- He, Bool.eqb_reflx.
Qed.

Lemma multi_train_true_again n x e y s s' :
  multi_wf n s → multi_wf n (multi_buffered y s) →
  MultiPerceptron.train x e s = Return true s' →
  MultiPerceptron.train x e (multi_buffered y s) = Return true s'.
Proof.
  intros Hwf Hwf' (Hlen & Hrows & _ & _ & Hb & Hs')%(multi_train_Return n); [|done].
  rewrite (Hs' eq_refl). rewrite (multi_train_eq n) by done. cbv zeta.
  change (multi_buffered x (multi_buffered y s)) with (multi_buffered x s).
  by rewrite <- (proj1 Hb eq_refl), Z.eqb_refl.
Qed.

(** X22.  Training in instalments.  When a [BinaryPerceptron.trainSet]
    call with a budget m >= 0 and a callback has returned, and a second
    call on the same sets with a budget k >= 0 returns from the
    perceptron the first has left, a single call with the budget m + k
    leaves the same perceptron as the two; and it returns true when the
    second instalment does. *)
Theorem training_in_instalments {W} (w w1 v1 w2 : W) (f : Z → Z → Z → W → W) (n : nat)
    (p p1 p2 : neuron) (inputSet : list (list float)) (expectedSet : list bool)
    (m k : Z) (b1 b2 : bool) :
  neuron_wf n p → (0 ≤ m)%Z → (0 ≤ k)%Z →
  BinaryPerceptron.trainSet inputSet expectedSet m (Some f) (p, w) = Return b1 (p1, w1) →
  BinaryPerceptron.trainSet inputSet expectedSet k (Some f) (p1, v1) = Return b2 (p2, w2) →
  ∃ b w', BinaryPerceptron.trainSet inputSet expectedSet (m + k) (Some f) (p, w)
          = Return b (p2, w') ∧
          (b2 = true → b = true).
Proof.
  intros Hwf Hm Hk. unfold BinaryPerceptron.trainSet.
  rewrite !BinaryPerceptron_trainSet_fuel_eq.
  apply (pass_trainSet_instalments BinaryPerceptron.train false inputSet expectedSet f
           (neuron_wf n) (λ x e s b s' Hs, BinaryPerceptron_train_wf n s x e b s' Hs)); [|done..].
  apply (clean_pass_again BinaryPerceptron.train (neuron_wf n) buffered
           (λ x e s b s' Hs, BinaryPerceptron_train_wf n s x e b s' Hs)).
  - intros x e s s' Hs Ht. by apply (binary_train_true n) in Ht as (_ & -> & _).
  - intros x e y s s'. apply binary_train_true_again.
  - done.
Qed.

Lemma training_in_instalments_witness :
  let log := λ (a b c : Z) (l : list (Z * Z * Z)), l ++ [(a, b, c)] in
  ∃ b w', BinaryPerceptron.trainSet [[1%float]; [(-3)%float]] [true; true] (1 + 3) (Some log)
            (BinaryPerceptron.new 1 1 0, [])
          = Return b (Neuron [1; -3]%float [3; -1]%float 1 0, w') ∧
          (true = true → b = true).
Proof.
  exact (training_in_instalments [] [(2, 2, 0)]%Z [] [(1, 2, 0); (0, 2, 1)]%Z
           (λ a b c l, l ++ [(a, b, c)]) 1
           (BinaryPerceptron.new 1 1 0) (Neuron [1; -3]%float [2; -2]%float 1 0)
           (Neuron [1; -3]%float [3; -1]%float 1 0)
           [[1%float]; [(-3)%float]] [true; true] 1 3 false true
           (ex_intro _ [0%float] (conj eq_refl (conj eq_refl eq_refl)))
           ltac:(lia) ltac:(lia) eq_refl eq_refl).
Defined.

(** X23.  The same for [MultiPerceptron.trainSet]: two calls with the
    budgets m >= 0 and k >= 0, the second from the perceptron the first
    has left, leave the perceptron a single call with the budget m + k
    leaves, which returns true when the second instalment does. *)
Theorem multi_training_in_instalments {W} (w w1 v1 w2 : W) (f : Z → Z → Z → W → W) (n : nat)
    (p p1 p2 : MultiPerceptron.t) (inputSet : list (list float)) (expectedSet : list Z)
    (m k : Z) (b1 b2 : bool) :
  multi_wf n p → (0 ≤ m)%Z → (0 ≤ k)%Z →
  MultiPerceptron.trainSet inputSet expectedSet m (Some f) (p, w) = Return b1 (p1, w1) →
  MultiPerceptron.trainSet inputSet expectedSet k (Some f) (p1, v1) = Return b2 (p2, w2) →
  ∃ b w', MultiPerceptron.trainSet inputSet expectedSet (m + k) (Some f) (p, w)
          = Return b (p2, w') ∧
          (b2 = true → b = true).
Proof.
  intros Hwf Hm Hk. unfold MultiPerceptron.trainSet.
  rewrite !MultiPerceptron_trainSet_fuel_eq.
  apply (pass_trainSet_instalments MultiPerceptron.train (-1)%Z inputSet expectedSet f
           (multi_wf n) (λ x e s b s' Hs, multi_train_wf n s x e b s' Hs)); [|done..].
  apply (clean_pass_again MultiPerceptron.train (multi_wf n) multi_buffered
           (λ x e s b s' Hs, multi_train_wf n s x e b s' Hs)).
  - intros x e s s' Hs Ht.
    apply (multi_train_Return n) in Ht as (_ & _ & _ & _ & _ & Hs'); [|done]. by apply Hs'.
  - intros x e y s s'. apply multi_train_true_again.
  - done.
Qed.

Lemma multi_training_in_instalments_witness :
  let log := λ (a b c : Z) (l : list (Z * Z * Z)), l ++ [(a, b, c)] in
  ∃ b w', MultiPerceptron.trainSet [[5%float]; [(-5)%float]] [1%Z; 0%Z] (1 + 1) (Some log)
            (MultiPerceptron.new 1 2 1, [])
          = Return b (MultiPerceptron.Multi [1; -5]%float [[-1; -5]; [1; 5]]%float 1, w') ∧
          (false = true → b = true).
Proof.
  exact (multi_training_in_instalments [] [(1, 2, 0)]%Z [] [(0, 2, 0)]%Z
           (λ a b c l, l ++ [(a, b, c)]) 1
           (MultiPerceptron.new 1 2 1)
           (MultiPerceptron.Multi [1; -5]%float [[-1; -5]; [1; 5]]%float 1)
           (MultiPerceptron.Multi [1; -5]%float [[-1; -5]; [1; 5]]%float 1)
           [[5%float]; [(-5)%float]] [1%Z; 0%Z] 1 1 false false
           (ex_intro _ [0%float] (conj eq_refl eq_refl))
           ltac:(lia) ltac:(lia) eq_refl eq_refl).
Defined.

(** ** A bad example inside the set of a multi-class perceptron *)

Lemma multi_train_each_returns n c (examples : list (list float * Z)) numberFailed p :
  Forall (λ xe, length xe.1 = n ∧ (0 ≤ xe.2 < Z.of_nat c)%Z) examples → multi_shape n c p →
  ∃ nf p', train_each MultiPerceptron.train examples numberFailed p = Return nf p' ∧
           multi_shape n c p'.
Proof.
  intros Hex. revert numberFailed p.
  induction Hex as [|[x e] rest [Hx He] _ IH]; intros nf p Hp; [by exists nf, p|].
  destruct (MultiPerceptron_train_returns n c p x e Hp Hx He) as (b & p1 & Ht & Hp1).
  simpl. unfold mbind, js_bind. rewrite Ht. by apply IH.
Qed.

(** X24.  When example number i is the first bad one of the set, every
    example before it having an input of length n and an expected class
    that is the index of a class, [MultiPerceptron.trainSet] with a
    budget of at least one pass throws in its first pass; the weight
    updates of the examples before it are not undone and the callback has
    not been called.  It throws 'Illegal input dimension' when the input
    has not the length n, and a [TypeError], the buffer overwritten by
    the input, when the input has the length n and the expected class is
    no index of a class. *)
Theorem multi_trainSet_stops_at_bad_example {W} (w : W) (callback : callback_fn W) (n c : nat)
    (p : MultiPerceptron.t) (inputSet : list (list float)) (expectedSet : list Z)
    (maxIterations : Z) (i : nat) (bad : list float) (expected : Z) :
  multi_shape n c p → 1 ≤ c →
  length inputSet = length expectedSet → (1 ≤ maxIterations)%Z →
  inputSet !! i = Some bad → expectedSet !! i = Some expected →
  (∀ j input e, j < i → inputSet !! j = Some input → expectedSet !! j = Some e →
                length input = n ∧ (0 ≤ e < Z.of_nat c)%Z) →
  ∃ nf p1,
    train_each MultiPerceptron.train (zip (take i inputSet) (take i expectedSet)) 0 p
    = Return nf p1 ∧
    (length bad ≠ n →
     MultiPerceptron.trainSet inputSet expectedSet maxIterations callback (p, w)
     = Throw IllegalInputDimension (p1, w)) ∧
    (length bad = n → ¬ (0 ≤ expected < Z.of_nat c)%Z →
     MultiPerceptron.trainSet inputSet expectedSet maxIterations callback (p, w)
     = Throw TypeError (multi_buffered bad p1, w)).
Proof.
  intros Hp Hc Hlen Hmax Hbad Hexp Hbefore.
  destruct (multi_train_each_returns n c (zip (take i inputSet) (take i expectedSet)) 0 p)
    as (nf & p1 & Hpre & [Hwf1 Hc1]); [|done|].
  { apply Forall_lookup. intros j [x e] (x' & y' & [= <- <-] & Hx & He)%lookup_zip_with_Some.
    apply lookup_take_Some in Hx as [Hx Hj]. apply lookup_take_Some in He as [He _].
    simpl. by eapply Hbefore. }
  exists nf, p1. split; [done|].
  assert (∀ e q, MultiPerceptron.train bad expected p1 = Throw e q →
            MultiPerceptron.trainSet inputSet expectedSet maxIterations callback (p, w)
            = Throw e (q, w)) as Hthrow.
  { intros e q Ht.
    assert (Passes.pass MultiPerceptron.train (-1)%Z inputSet expectedSet p = Throw e q)
      as Hpass.
    { rewrite pass_train_each by done. rewrite (zip_split_at _ _ i bad expected) by done.
      rewrite train_each_app. unfold mbind at 1, js_bind. rewrite Hpre. simpl.
      unfold mbind, js_bind. by rewrite Ht. }
    unfold MultiPerceptron.trainSet. rewrite MultiPerceptron_trainSet_fuel_eq.
    unfold Passes.pass_trainSet, mbind, js_bind.
    apply Nat.eqb_eq in Hlen. rewrite Hlen. change (negb true) with false. cbv beta iota.
    destruct (Z.to_nat maxIterations) as [|fuel] eqn:Hfuel; [lia|].
    cbn [Passes.pass_while].
    replace (0 <? maxIterations)%Z with true by (symmetry; apply Z.ltb_lt; lia).
    change (negb (-1 =? 0)%Z && true) with true. cbv beta iota.
    unfold mbind, js_bind, this. by rewrite Hpass. }
  split.
  - intros Hsize. apply Hthrow. by apply (multi_train_throws n).
  - intros Hsize Hrange. apply Hthrow. apply (multi_train_out_of_range n); [done..| |].
    + intros Hnil. rewrite Hnil in Hc1. simpl in Hc1. lia.
    + apply row_at_None. by rewrite Hc1.
Qed.

Lemma multi_trainSet_stops_at_bad_example_witness :
  ∃ nf p1,
    train_each MultiPerceptron.train
      (zip (take 1 [[5%float]; [1%float]; [2%float]]) (take 1 [1%Z; 2%Z; 0%Z])) 0
      (MultiPerceptron.new 1 2 1)
    = Return nf p1 ∧
    MultiPerceptron.trainSet [[5%float]; [1%float]; [2%float]] [1%Z; 2%Z; 0%Z] 3 None
      (MultiPerceptron.new 1 2 1, tt)
    = Throw TypeError (multi_buffered [1%float] p1, tt).
Proof.
  destruct (multi_trainSet_stops_at_bad_example tt None 1 2 (MultiPerceptron.new 1 2 1)
              [[5%float]; [1%float]; [2%float]] [1%Z; 2%Z; 0%Z] 3 1 [1%float] 2%Z
              (conj (ex_intro _ [0%float] (conj eq_refl eq_refl)) eq_refl)
              ltac:(lia) eq_refl ltac:(lia) eq_refl eq_refl)
    as (nf & p1 & Hpre & _ & Hrange).
  - intros [|j] input e Hj Hinput He; [|lia]. simpl in Hinput, He.
    injection Hinput as <-. injection He as <-. split; [done|lia].
  - exists nf, p1. split; [exact Hpre|]. apply Hrange; [reflexivity|simpl; lia].
Defined.

(** ** The perceptron by value and the perceptron by reference *)

Lemma row_at_matrix s (c : Z) :
  rows_allocated s → MultiPerceptron.row_at (matrix s) c = MultiPerceptronRef.row_at s c.
Proof.
  intros Hall.
  unfold MultiPerceptron.row_at, MultiPerceptronRef.row_at, MultiPerceptronRef.row_ref.
  destruct (c <? 0)%Z; [done|]. unfold matrix. rewrite list_lookup_fmap.
  destruct (MultiPerceptronRef.inputWeights_ s.2 !! Z.to_nat c) as [r|] eqn:Hr; [|done]. simpl.
  unfold rows_allocated in Hall. rewrite Forall_lookup in Hall.
  by destruct (Hall _ r Hr) as [row ->].
Qed.

Lemma by_value_setInput_ input s :
  by_value (MultiPerceptronRef.setInput_ input s) = MultiPerceptron.setInput_ input (by_value s).
Proof.
  unfold MultiPerceptronRef.setInput_, MultiPerceptron.setInput_.
  rewrite (ref_foldl_set_inputs_ (λ i a, js_set a i (js_get input (i - 1)))).
  by rewrite (multi_foldl_set_inputs_ (λ i a, js_set a i (js_get input (i - 1)))).
Qed.

Lemma setInput_allocated input s :
  rows_allocated s → rows_allocated (MultiPerceptronRef.setInput_ input s).
Proof.
  unfold MultiPerceptronRef.setInput_.
  by rewrite (ref_foldl_set_inputs_ (λ i a, js_set a i (js_get input (i - 1)))).
Qed.

Lemma setInput_inputWeights_ input s :
  MultiPerceptronRef.inputWeights_ (MultiPerceptronRef.setInput_ input s).2
  = MultiPerceptronRef.inputWeights_ s.2.
Proof.
  unfold MultiPerceptronRef.setInput_.
  by rewrite (ref_foldl_set_inputs_ (λ i a, js_set a i (js_get input (i - 1)))).
Qed.

Lemma by_value_scan_loop k lo best s :
  rows_allocated s →
  (∃ best', for_loop k lo MultiPerceptronRef.scan_example best s = Return best' s ∧
            for_loop k lo MultiPerceptron.scan_example best (by_value s)
            = Return best' (by_value s)) ∨
  (∃ e, for_loop k lo MultiPerceptronRef.scan_example best s = Throw e s ∧
        for_loop k lo MultiPerceptron.scan_example best (by_value s) = Throw e (by_value s)).
Proof.
  intros Hall. revert lo best. induction k as [|k IH]; intros lo [m c]; [left; by eexists|].
  cbn [for_loop]. unfold mbind, js_bind.
  unfold MultiPerceptronRef.scan_example at 1 3, MultiPerceptron.scan_example at 1 3.
  unfold mbind, js_bind, MultiPerceptronRef.getScore_, MultiPerceptron.getScore_.
  change (MultiPerceptron.inputWeights_ (by_value s)) with (matrix s).
  rewrite row_at_matrix by done.
  destruct (MultiPerceptronRef.row_at s (Z.of_nat lo)) as [row|]; [|right; by eexists].
  apply IH.
Qed.

Lemma by_value_scan {A} (k : float * nat → js MultiPerceptronRef.state A)
    (k' : float * nat → js MultiPerceptron.t A) s :
  rows_allocated s →
  (∀ best, outcome_by_value (k best s) = k' best (by_value s)) →
  outcome_by_value
    ((maxScore ← MultiPerceptronRef.getScore_ 0;
      classes ← gets (λ s, length (MultiPerceptronRef.inputWeights_ s.2));
      best ← for_loop (classes - 1) 1 MultiPerceptronRef.scan_example (maxScore, 0);
      k best) s)
  = (maxScore ← MultiPerceptron.getScore_ 0;
     classes ← gets (λ p, length (MultiPerceptron.inputWeights_ p));
     best ← for_loop (classes - 1) 1 MultiPerceptron.scan_example (maxScore, 0);
     k' best) (by_value s).
Proof.
  intros Hall Hk. unfold mbind, js_bind, gets.
  unfold MultiPerceptronRef.getScore_, MultiPerceptron.getScore_.
  change (MultiPerceptron.inputWeights_ (by_value s)) with (matrix s).
  rewrite row_at_matrix by done.
  destruct (MultiPerceptronRef.row_at s 0) as [row|]; [|done].
  replace (length (MultiPerceptron.inputWeights_ (by_value s)))
    with (length (MultiPerceptronRef.inputWeights_ s.2))
    by (simpl; unfold matrix; by rewrite length_map).
  change (MultiPerceptron.inputs_ (by_value s)) with (MultiPerceptronRef.inputs_ s.2).
  fold (row_score row (MultiPerceptronRef.inputs_ s.2)).
  destruct (by_value_scan_loop (length (MultiPerceptronRef.inputWeights_ s.2) - 1) 1
              (row_score row (MultiPerceptronRef.inputs_ s.2), 0) s Hall)
    as [(best' & -> & ->)|(e & -> & ->)]; [apply Hk|done].
Qed.

(** X25.  [classify] never writes into a row: whatever rows the classes
    share, it ends as the [classify] of the perceptron by value does, with
    the same class or the same exception, and leaves the same buffer and
    the same weights. *)
Theorem by_value_classify s input :
  rows_allocated s →
  outcome_by_value (MultiPerceptronRef.classify input s)
  = MultiPerceptron.classify input (by_value s).
Proof.
  intros Hall. unfold MultiPerceptronRef.classify, MultiPerceptron.classify.
  rewrite !(bind_Return (gets _) _ _ _ _ eq_refl).
  change (MultiPerceptron.inputs_ (by_value s)) with (MultiPerceptronRef.inputs_ s.2).
  destruct (negb _); [done|].
  rewrite !(bind_Return (modify _) _ _ _ _ eq_refl). rewrite <- by_value_setInput_.
  apply (by_value_scan (λ '(_, c), mret c) (λ '(_, c), mret c)).
  - by apply setInput_allocated.
  - by intros [m c].
Qed.

Lemma by_value_classify_witness :
  let row := 0 in
  let s := ([[3; 4]%float], MultiPerceptronRef.Multi [1; 0]%float [row; row] 1%float) in
  outcome_by_value (MultiPerceptronRef.classify [5%float] s)
  = MultiPerceptron.classify [5%float] (by_value s).
Proof.
  exact (by_value_classify
           ([[3; 4]%float], MultiPerceptronRef.Multi [1; 0]%float [0; 0] 1%float) [5%float]
           ltac:(by repeat constructor)).
Defined.

(** A write into the array of a class that has it for itself changes
    that row of the matrix and no other. *)
Lemma matrix_set_array f s c r :
  MultiPerceptronRef.inputWeights_ s.2 !! c = Some r → own_row s c →
  is_Some (MultiPerceptronRef.array_at s.1 r) →
  matrix (MultiPerceptronRef.set_array f r s) = alter f c (matrix s).
Proof.
  intros Hr Hown [row Hrow]. apply list_eq. intros i. unfold matrix. simpl.
  destruct (decide (i = c)) as [->|Hi].
  - rewrite list_lookup_alter_eq, !list_lookup_fmap, Hr. simpl.
    unfold MultiPerceptronRef.array_at in *. by rewrite list_lookup_alter_eq, Hrow.
  - rewrite list_lookup_alter_ne, !list_lookup_fmap by done.
    destruct (MultiPerceptronRef.inputWeights_ s.2 !! i) as [r'|] eqn:Hr'; [|done]. simpl.
    unfold MultiPerceptronRef.array_at. rewrite list_lookup_alter_ne; [done|].
    intros <-. apply (Hown i Hi). by rewrite Hr, Hr'.
Qed.

Lemma set_array_allocated f r s :
  rows_allocated s → rows_allocated (MultiPerceptronRef.set_array f r s).
Proof.
  unfold rows_allocated, MultiPerceptronRef.array_at. simpl. intros Hall.
  eapply Forall_impl; [exact Hall|]. simpl.
  intros r' [row Hrow]. destruct (decide (r = r')) as [->|Hne].
  - rewrite list_lookup_alter_eq, Hrow. by eexists.
  - rewrite list_lookup_alter_ne by done. by eexists.
Qed.

Lemma by_value_encourage s (c : Z) :
  rows_allocated s → rows_distinct s →
  outcome_by_value (MultiPerceptronRef.encourageWeights_ c s)
  = MultiPerceptron.encourageWeights_ c (by_value s).
Proof.
  intros Hall Hnd.
  destruct (MultiPerceptronRef.row_at s c) as [row|] eqn:Hrow.
  - pose proof Hrow as Hrow'. unfold MultiPerceptronRef.row_at in Hrow'.
    apply bind_Some in Hrow' as (r & Hr & Harr). apply row_ref_Some in Hr as [Hpos Hr].
    rewrite <- (Z2Nat.id c) by done.
    rewrite (ref_encourage_eq s (Z.to_nat c) r row) by done.
    rewrite (multi_encourage_eq (by_value s) (Z.to_nat c) row)
      by (simpl; rewrite <- (row_at_nat (matrix s)), row_at_matrix, Z2Nat.id by done; done).
    simpl. f_equal. unfold by_value, MultiPerceptron.set_inputWeights_. simpl. f_equal.
    apply matrix_set_array; [done| |by eexists].
    apply rows_distinct_own_row; [done|]. by eapply lookup_lt_Some.
  - unfold MultiPerceptronRef.encourageWeights_, MultiPerceptron.encourageWeights_.
    change (MultiPerceptron.inputWeights_ (by_value s)) with (matrix s).
    rewrite row_at_matrix, Hrow by done. by destruct (MultiPerceptronRef.row_ref s c).
Qed.

Lemma by_value_punish s (c : Z) :
  rows_allocated s → rows_distinct s →
  outcome_by_value (MultiPerceptronRef.punishWeights_ c s)
  = MultiPerceptron.punishWeights_ c (by_value s).
Proof.
  intros Hall Hnd.
  destruct (MultiPerceptronRef.row_at s c) as [row|] eqn:Hrow.
  - pose proof Hrow as Hrow'. unfold MultiPerceptronRef.row_at in Hrow'.
    apply bind_Some in Hrow' as (r & Hr & Harr). apply row_ref_Some in Hr as [Hpos Hr].
    rewrite <- (Z2Nat.id c) by done.
    rewrite (ref_punish_eq s (Z.to_nat c) r row) by done.
    rewrite (multi_punish_eq (by_value s) (Z.to_nat c) row)
      by (simpl; rewrite <- (row_at_nat (matrix s)), row_at_matrix, Z2Nat.id by done; done).
    simpl. f_equal. unfold by_value, MultiPerceptron.set_inputWeights_. simpl. f_equal.
    apply matrix_set_array; [done| |by eexists].
    apply rows_distinct_own_row; [done|]. by eapply lookup_lt_Some.
  - unfold MultiPerceptronRef.punishWeights_, MultiPerceptron.punishWeights_.
    change (MultiPerceptron.inputWeights_ (by_value s)) with (matrix s).
    rewrite row_at_matrix, Hrow by done. by destruct (MultiPerceptronRef.row_ref s c).
Qed.

(** X26.  On a perceptron whose rows are pairwise distinct arrays, [train]
    ends as the [train] of the perceptron by value does, whatever the
    input and the expected class: the same result or the same exception,
    and the same buffer and weights left behind. *)
Theorem by_value_train s input expected :
  rows_allocated s → rows_distinct s →
  outcome_by_value (MultiPerceptronRef.train input expected s)
  = MultiPerceptron.train input expected (by_value s).
Proof.
  intros Hall Hnd. unfold MultiPerceptronRef.train, MultiPerceptron.train.
  rewrite !(bind_Return (gets _) _ _ _ _ eq_refl).
  change (MultiPerceptron.inputs_ (by_value s)) with (MultiPerceptronRef.inputs_ s.2).
  destruct (negb _); [done|].
  rewrite !(bind_Return (modify _) _ _ _ _ eq_refl). rewrite <- by_value_setInput_.
  pose proof (setInput_allocated input s Hall) as Hall1.
  assert (rows_distinct (MultiPerceptronRef.setInput_ input s)) as Hnd1
    by (unfold rows_distinct; by rewrite setInput_inputWeights_).
  set (s1 := MultiPerceptronRef.setInput_ input s) in *.
  apply (by_value_scan
           (λ '(_, c), if (expected =? Z.of_nat c)%Z then mret true
                       else MultiPerceptronRef.encourageWeights_ expected;;
                            MultiPerceptronRef.punishWeights_ (Z.of_nat c);; mret false)
           (λ '(_, c), if (expected =? Z.of_nat c)%Z then mret true
                       else MultiPerceptron.encourageWeights_ expected;;
                            MultiPerceptron.punishWeights_ (Z.of_nat c);; mret false));
    [done|].
  intros [m c]. destruct (_ =? _)%Z; [done|].
  unfold mbind at 1 3, js_bind.
  rewrite <- by_value_encourage by done.
  destruct (MultiPerceptronRef.encourageWeights_ expected s1) as [[] s2|e s2|] eqn:Henc;
    [|done|done].
  simpl. unfold mbind, js_bind.
  assert (rows_allocated s2 ∧ rows_distinct s2) as [Hall2 Hnd2].
  { revert Henc. unfold MultiPerceptronRef.encourageWeights_.
    destruct (MultiPerceptronRef.row_ref s1 expected) as [r|]; [|done].
    destruct (MultiPerceptronRef.row_at s1 expected) as [row|]; [|done].
    rewrite (ref_foldl_set_array (λ lr inp i a, js_set a i (js_get a i + lr * js_get inp i)%js)).
    rewrite (foldl_alter (λ i a, js_set a i _) r). intros [= <-].
    split; [|done]. by apply (set_array_allocated _ r s1). }
  rewrite <- by_value_punish by done.
  by destruct (MultiPerceptronRef.punishWeights_ (Z.of_nat c) s2).
Qed.

Lemma by_value_train_witness :
  let s := ([[3; 4]; [0; 0]]%float, MultiPerceptronRef.Multi [1; 0]%float [0; 1] 1%float) in
  outcome_by_value (MultiPerceptronRef.train [5%float] 1 s)
  = MultiPerceptron.train [5%float] 1 (by_value s).
Proof.
  exact (by_value_train
           ([[3; 4]; [0; 0]]%float, MultiPerceptronRef.Multi [1; 0]%float [0; 1] 1%float)
           [5%float] 1 ltac:(by repeat constructor)
           (NoDup_seq 0 2)).
Defined.
